(** * ClimateCare: data-fusion, caching and alerting core

    A shallow embedding of the server-side services of ClimateCare:

    - [server/services/weatherService.ts]: the [WeatherCache] class, the
      Open-Meteo client with its NASA POWER fallback, [processWeatherForRisk]
      and [calculateTemperatureAnomaly];
    - [server/services/airQualityService.ts]: [calculateDistance],
      [fetchAirQualityData] and [getFallbackAirQuality];
    - [server/services/scheduler.ts]: [getCentroid] and [calculateDailyRisks];
    - [server/storage.ts]: [getNeighborhoods], [addAlert] and [saveAlerts].

    Numbers.  In [calculateTemperatureAnomaly], which decides on an equality
    of computed numbers, a JavaScript [number] is a binary64 number
    ([float]).  Elsewhere it is read as an exact number: a rational ([Q]) for
    observations, scores and pollutant readings, where the code only adds,
    multiplies, divides, rounds and compares; a real ([R]) for coordinates
    and distances, where the code calls [Math.sqrt], [Math.sin], [Math.cos]
    and [Math.atan2].  Array cells that feed a JavaScript truthiness test
    keep the values that matter to that test: [null], [NaN] and numbers.
    Clock readings ([Date.now()]) are integers, in milliseconds.

    Effects.  The services share one cache object, read the clock, talk to
    HTTP endpoints, read and write files, write to the console and append
    alerts to the store.  They are written in a state-and-exception monad
    over a [World]; the clock, the network and the files are oracles indexed
    by the number of readings made so far.  The storage reports a file it
    cannot read or write on the console, with the other lines.

    Inputs.  Values that TypeScript types as records or arrays are records
    and lists here: a station has coordinates, a day count is a natural
    number.  What [response.json()] and [JSON.parse] return is typed only as
    far as the code reads it: sections and result lists may be missing, array
    cells may be [null], and a feature of the neighbourhoods file may come
    with its geometry or its properties [null].

    The repository holds [weatherService.ts] in two states, without and with
    the NASA POWER fallback; they agree on everything but the [catch] of
    [fetchWeatherData], which is modelled in the state with the fallback.
    The risk engine ([riskEngine.ts]) is a parameter.

    Further parts, each in a module of its own and with a small state of its
    own: [fetchWeatherData] in the state without the fallback, the push
    service ([WebPushService]), the alerts of [MemStorage], the demographics
    client ([getElderlyPercent]) and the key decoding of the push client
    ([urlBase64ToUint8Array]). *)

From Stdlib Require Import Floats.
From Stdlib Require Import ZArith QArith Qround Reals Psatz Lia List String.
From Stdlib Require Import Ascii DecimalString.
From stdpp Require Import gmap strings.
Import ListNotations.

Local Open Scope Z_scope.

(** ** [WeatherCache] (weatherService.ts, lines 3-37) *)

Module WeatherCache.

(** [interface CacheEntry<T> { data: T; timestamp: number }] *)
Record CacheEntry (T : Type) : Type := mkEntry {
  data : T;
  timestamp : Z
}.
Arguments mkEntry {T} _ _.
Arguments data {T} _.
Arguments timestamp {T} _.

(** The object state: the private [Map] and the private [ttl]. *)
Record t (T : Type) : Type := mkCache {
  cache : gmap string (CacheEntry T);
  ttl : Z
}.
Arguments mkCache {T} _ _.
Arguments cache {T} _.
Arguments ttl {T} _.

(** [constructor(ttlMinutes = 15) { this.ttl = ttlMinutes * 60 * 1000 }] *)
Definition new {T : Type} (ttlMinutes : Z) : t T :=
  mkCache ∅ (ttlMinutes * 60 * 1000).

(** [get(key)]; [now] is the reading [Date.now()] would give.  The result
    is the returned value ([None] for [null]) and the object afterwards. *)
Definition get {T : Type} (now : Z) (key : string) (c : t T) : option T * t T :=
  match cache c !! key with
  | None => (None, c)
  | Some entry =>
      if now - timestamp entry >? ttl c
      then (None, mkCache (delete key (cache c)) (ttl c))
      else (Some (data entry), c)
  end.

(** [set(key, data)] *)
Definition set {T : Type} (now : Z) (key : string) (d : T) (c : t T) : t T :=
  mkCache (<[key := mkEntry d now]> (cache c)) (ttl c).

(** [clear()] *)
Definition clear {T : Type} (c : t T) : t T := mkCache ∅ (ttl c).

End WeatherCache.

(** [export const weatherCache = new WeatherCache(15)] *)
Definition weatherCache {T : Type} : WeatherCache.t T := WeatherCache.new 15.

(** ** Numbers and array cells *)

(** A cell of a numeric JSON array as the truthiness test [x || d] sees it:
    [null], [NaN] (from [Number(..)] of a non-numeric value) or a number. *)
Inductive jsnum : Type :=
| JNull
| JNaN
| JNum (q : Q).

(** [a[i]]: [None] is [undefined] (index negative or past the end). *)
Definition js_index {A : Type} (a : list A) (i : Z) : option A :=
  if i <? 0 then None else nth_error a (Z.to_nat i).

(** [x || d] on a numeric cell: [undefined], [null], [NaN] and [0] are
    falsy, every other number is truthy. *)
Definition js_or (x : option jsnum) (d : Q) : Q :=
  match x with
  | Some (JNum q) => if Qeq_bool q 0 then d else q
  | Some JNull | Some JNaN | None => d
  end.

(** [Math.round(x)]: the nearest integer, ties toward plus infinity. *)
Definition Math_round (x : Q) : Q := inject_Z (Qfloor (x + (1 # 2))).

(** [Number(x.toFixed(f))]: [toFixed] works on the magnitude and picks the
    integer [n] with [n / 10^f] nearest to it, the larger one on a tie; the
    sign is put back in front.  (Above [10^21] [toFixed] prints the number
    itself; binary64 numbers of that size are integers already.) *)
Definition Number_toFixed (x : Q) (f : nat) : Q :=
  let scale := inject_Z (10 ^ Z.of_nat f) in
  if Qlt_le_dec x 0
  then - (inject_Z (Qfloor ((- x) * scale + (1 # 2))) / scale)
  else inject_Z (Qfloor (x * scale + (1 # 2))) / scale.

(** ** Weather snapshots (weatherService.ts, lines 39-56) *)

(** [OpenMeteoResponse.hourly] *)
Record Hourly : Type := mkHourly {
  hourly_time : list string;
  temperature_2m : list jsnum;
  relative_humidity_2m : list jsnum;
  wind_speed_10m : list jsnum;
  hourly_precipitation : list jsnum
}.

(** [OpenMeteoResponse.daily] *)
Record Daily : Type := mkDaily {
  daily_time : list string;
  temperature_2m_max : list jsnum;
  temperature_2m_min : list jsnum;
  uv_index_max : list jsnum;
  precipitation_sum : list jsnum
}.

(** [OpenMeteoResponse]: the value is whatever [response.json()] produced, so
    every field may be missing. *)
Record OpenMeteoResponse : Type := mkOpenMeteoResponse {
  latitude : option R;
  longitude : option R;
  hourly : option Hourly;
  daily : option Daily
}.

(** [WeatherData] (shared/schema), as [processWeatherForRisk] builds it. *)
Record WeatherData : Type := mkWeatherData {
  temperature : Q;
  humidity : Q;
  windSpeed : Q;
  uvIndex : Q;
  windChill : Q;
  precipitation : Q
}.

(** ** Exceptions *)

Inductive exn : Type :=
| FetchFailed (reason : string)     (* [fetch] rejected: transport failure *)
| JsonRejected (reason : string)    (* [response.json()] rejected *)
| OpenMeteoApiError (status : Z)    (* [Error(`Open-Meteo API error: ${status}`)] *)
| NasaPowerApiError (status : Z)    (* [Error(`NASA POWER API error: ${status}`)] *)
| InvalidWeatherData                (* [Error('Invalid weather data structure')] *)
| TypeError (reason : string)       (* reading through [undefined] or [null] *)
| EngineError (reason : string)     (* raised inside the risk engine *)
| FileError (reason : string).      (* [readFileSync], [JSON.parse] or [writeFileSync] threw *)

(** The cells on which [x || d] takes the default: [undefined] (no such
    index), [null], [NaN] and the number zero. *)
Definition falsy (x : option jsnum) : Prop :=
  x = None \/ x = Some JNull \/ x = Some JNaN \/ exists q, x = Some (JNum q) /\ q == 0.

(** ** [processWeatherForRisk] (weatherService.ts, lines 100-130) *)

Definition processWeatherForRisk (data : OpenMeteoResponse) (dayIndex : Z)
  : exn + WeatherData :=
  match daily data, hourly data with
  | Some daily, Some hourly =>
      let maxTemp := js_or (js_index (temperature_2m_max daily) dayIndex) 25 in
      let minTemp := js_or (js_index (temperature_2m_min daily) dayIndex) 15 in
      let uvIndex := js_or (js_index (uv_index_max daily) dayIndex) 5 in
      let currentHourIndex :=
        Z.min (dayIndex * 24) (Z.of_nat (length (hourly_time hourly)) - 1) in
      let humidity :=
        js_or (js_index (relative_humidity_2m hourly) currentHourIndex) 50 in
      let windSpeed :=
        js_or (js_index (wind_speed_10m hourly) currentHourIndex) 10 in
      let precipitation := js_or (js_index (precipitation_sum daily) dayIndex) 0 in
      let windChill := (minTemp - windSpeed * (1 # 2))%Q in
      inr (mkWeatherData maxTemp humidity windSpeed uvIndex windChill precipitation)
  | _, _ => inl InvalidWeatherData
  end.

(** ** [calculateTemperatureAnomaly] (weatherService.ts, lines 132-145)

    The function decides on [stdDev === 0], a comparison of the rounded
    result of rounded operations, so here the numbers are the binary64
    numbers of the code. [Math.pow(d, 2)] is the rounded product [d * d]. *)

(** [recentTemps.length] as a number. *)
Definition Number_of_length {A : Type} (l : list A) : float :=
  PrimFloat.of_uint63 (Uint63.of_Z (Z.of_nat (length l))).

Definition calculateTemperatureAnomaly (currentTemp : float)
    (recentTemps : list float) : float :=
  if (length recentTemps <? 3)%nat then 0%float
  else
    let mean :=
      (fold_left (fun a b => a + b) recentTemps 0
       / Number_of_length recentTemps)%float in
    let variance :=
      (fold_left (fun sum t => sum + (t - mean) * (t - mean)) recentTemps 0
       / Number_of_length recentTemps)%float in
    let stdDev := PrimFloat.sqrt variance in
    if PrimFloat.eqb stdDev 0 then 0%float
    else ((currentTemp - mean) / stdDev)%float.

(** The textbook quantities, over exact numbers. *)
Fixpoint Rsum (l : list R) : R :=
  match l with
  | [] => 0%R
  | x :: l' => (x + Rsum l')%R
  end.

Definition population_mean (h : list R) : R := (Rsum h / INR (length h))%R.

Definition population_variance (h : list R) : R :=
  (Rsum (map (fun x => (x - population_mean h) ^ 2) h) / INR (length h))%R.

Definition population_stddev (h : list R) : R := sqrt (population_variance h).

(** ** Air-quality data (airQualityService.ts, lines 4-28; shared/schema) *)

Record Coordinates : Type := mkCoordinates {
  coord_latitude : R;
  coord_longitude : R
}.

(** [OpenAQLocation] *)
Record OpenAQLocation : Type := mkLocation {
  id : Z;
  name : string;
  coordinates : Coordinates
}.

(** [OpenAQMeasurement] *)
Record OpenAQMeasurement : Type := mkMeasurement {
  parameter : string;
  value : Q;
  unit_ : string
}.

(** [AirQualityData]: [None] is [null]. *)
Record AirQualityData : Type := mkAirQualityData {
  pm25 : option Q;
  pm10 : option Q;
  no2 : option Q;
  station : option string;
  distance : option R
}.

(** ** Risk results and alerts (riskEngine.ts, shared/schema) *)

(** The fields of the risk engine's result that the scheduler reads. *)
Record RiskData : Type := mkRiskData {
  hsi : Q;
  csi : Q;
  aqri : Q;
  riskScore : Q
}.

Inductive AlertType : Type := heat | cold | air_quality.

#[global] Instance AlertType_eq_dec : EqDecision AlertType.
Proof. solve_decision. Defined.

Inductive Severity : Type := extreme | high.

(** [Omit<Alert, "id" | "timestamp">], the argument of [storage.addAlert]. *)
Record Alert : Type := mkAlert {
  type : AlertType;
  severity : Severity;
  neighborhoods : list string;
  message : string
}.

(** A GeoJSON feature of the neighbourhood file, as [JSON.parse] gives it:
    the file is not validated, and a feature may come with its [geometry] or
    its [properties] [null] ([None]), as GeoJSON allows; a key that is
    missing behaves alike, with [undefined] for [null] in the message of the
    error. A geometry that is present has its type and its coordinates. A
    position is [[longitude, latitude]]. *)
Inductive GeometryType : Type := Polygon | MultiPolygon | OtherGeometry.

Record Geometry : Type := mkGeometry {
  geometry_type : GeometryType;
  geometry_coordinates : list (list (R * R))
}.

Record Properties : Type := mkProperties {
  properties_name : string
}.

Record Feature : Type := mkListedFeature {
  geometry : option Geometry;
  properties : option Properties
}.

(** A feature with its geometry and its properties. *)
Definition mkFeature (t : GeometryType) (coordinates : list (list (R * R)))
    (name : string) : Feature :=
  mkListedFeature (Some (mkGeometry t coordinates)) (Some (mkProperties name)).

(** ** The world the services run in *)

(** What the shared cache holds: its payload type is [any]. *)
Inductive Payload : Type :=
| PWeather (d : OpenMeteoResponse)
| PAir (a : AirQualityData).

(** The unchecked casts [weatherCache.get<OpenMeteoResponse>] and
    [weatherCache.get<AirQualityData>]: an object of the other kind has none
    of the fields read through the cast. *)
Definition asWeather (p : Payload) : OpenMeteoResponse :=
  match p with
  | PWeather d => d
  | PAir _ => mkOpenMeteoResponse None None None None
  end.

Definition asAirQuality (p : Payload) : AirQualityData :=
  match p with
  | PAir a => a
  | PWeather _ => mkAirQualityData None None None None None
  end.

(** One constructor per console call of the modelled functions. *)
Inductive LogEvent : Type :=
| WeatherCacheHit (key : string)
| WeatherApiFetching (lat lon : R) (days : nat)
| WeatherApiError (e : exn)
| WeatherApiFallingBack
| WeatherApiNasaFailed (e : exn)
| AirQualityCacheHit (key : string)
| AirQualityFetching (lat lon : R)
| AirQualityStatus (status : Z)
| AirQualityNoStations
| AirQualityError (e : exn)
| SchedulerRunning
| SchedulerRegion (name : string) (r : RiskData)
| SchedulerErrorProcessing (name : string) (e : exn)
| SchedulerCreatedAlert (t : AlertType) (names : list string)
| SchedulerCompleted
| SchedulerError (e : exn)
| StorageErrorLoadingNeighborhoods (e : exn)
| StorageErrorSavingAlerts (e : exn).

(** What [await fetch(url)] gives: a rejection, or a response with its status
    and the outcome of [response.json()]. *)
Inductive HttpReply (Body : Type) : Type :=
| Rejected (e : exn)
| Response (status : Z) (json : exn + Body).
Arguments Rejected {Body} _.
Arguments Response {Body} _ _.

(** [response.ok] *)
Definition response_ok (status : Z) : bool :=
  (200 <=? status) && (status <=? 299).

(** The NASA POWER body: parameter name, then [YYYYMMDD] key, then value. *)
Record NasaJson : Type := mkNasaJson {
  properties_parameter : option (gmap string (gmap string Q));
  parameters : option (gmap string (gmap string Q))
}.

(** Everything outside the process. Each oracle takes the number of readings
    made before it, so that two identical requests may be answered
    differently.  [calculateCompleteRisk] stands for the risk engine applied
    to [defaultRiskConfig]; the printers stand for template-string
    conversion of numbers and for the [Date] formatting methods. *)
Record Env : Type := mkEnv {
  clock : nat -> Z;
  openMeteo : nat -> R -> R -> nat -> HttpReply OpenMeteoResponse;
  nasaPower : nat -> R -> R -> string -> string -> HttpReply NasaJson;
  openaqLocations : nat -> R -> R -> R -> HttpReply (option (list OpenAQLocation));
  openaqMeasurements : nat -> Z -> HttpReply (option (list OpenAQMeasurement));
  neighborhoodsFile : nat -> exn + option (list Feature);
  calculateCompleteRisk :
    WeatherData -> AirQualityData -> Q -> Q -> string -> exn + RiskData;
  numberToString : R -> string;
  formatYMD : Z -> nat -> string;
  dayISO : Z -> nat -> string;
  hourISO : Z -> nat -> nat -> string;
  toISOString : Z -> string;
  alertsFileWrite : nat -> option exn
}.

Record World : Type := mkWorld {
  w_cache : WeatherCache.t Payload;
  w_reads : nat;
  w_console : list LogEvent;
  w_alerts : list Alert
}.

(** Computations that read and change the world and may throw. *)
Definition M (A : Type) : Type := World -> (exn + A) * World.

Definition ret {A : Type} (a : A) : M A := fun w => (inr a, w).

Definition throw {A : Type} (e : exn) : M A := fun w => (inl e, w).

Definition bind {A B : Type} (m : M A) (k : A -> M B) : M B :=
  fun w =>
    match m w with
    | (inr a, w') => k a w'
    | (inl e, w') => (inl e, w')
    end.

(** [try { body } catch (e) { handler }] *)
Definition try_catch {A : Type} (body : M A) (handler : exn -> M A) : M A :=
  fun w =>
    match body w with
    | (inr a, w') => (inr a, w')
    | (inl e, w') => handler e w'
    end.

(** Lifting of a synchronous call that returns or throws. *)
Definition lift {A : Type} (r : exn + A) : M A := fun w => (r, w).

Declare Scope world_scope.
Delimit Scope world_scope with world.
Notation "x <- m ;; k" := (bind m (fun x => k))
  (at level 100, m at next level, right associativity) : world_scope.
Notation "m ;;; k" := (bind m (fun _ => k))
  (at level 100, right associativity) : world_scope.
Local Open Scope world_scope.

(** [console.log], [console.warn], [console.error] *)
Definition console (ev : LogEvent) : M unit :=
  fun w => (inr tt, mkWorld (w_cache w) (w_reads w) (w_console w ++ [ev]) (w_alerts w)).

(** Take the next reading of an oracle. *)
Definition reading {A : Type} (oracle : nat -> A) : M A :=
  fun w =>
    (inr (oracle (w_reads w)),
     mkWorld (w_cache w) (S (w_reads w)) (w_console w) (w_alerts w)).

(** [weatherCache.get(key)]: the clock is read only when an entry is found. *)
Definition cache_get (env : Env) (key : string) : M (option Payload) :=
  fun w =>
    match WeatherCache.cache (w_cache w) !! key with
    | None => (inr None, w)
    | Some _ =>
        let (r, c) := WeatherCache.get (clock env (w_reads w)) key (w_cache w) in
        (inr r, mkWorld c (S (w_reads w)) (w_console w) (w_alerts w))
    end.

(** [weatherCache.set(key, data)] *)
Definition cache_set (env : Env) (key : string) (p : Payload) : M unit :=
  fun w =>
    (inr tt,
     mkWorld (WeatherCache.set (clock env (w_reads w)) key p (w_cache w))
             (S (w_reads w)) (w_console w) (w_alerts w)).

(** [storage.addAlert(alert)] (storage.ts, lines 130-139): the store gives
    the alert an identifier and a timestamp, keeps it and writes the alerts
    file; [saveAlerts] (lines 56-63) catches a write that throws and reports
    it on the console. *)
Definition addAlert (env : Env) (a : Alert) : M unit :=
  fun w =>
    (inr tt,
     mkWorld (w_cache w) (S (w_reads w))
       (match alertsFileWrite env (w_reads w) with
        | None => w_console w
        | Some e => w_console w ++ [StorageErrorSavingAlerts e]
        end)
       (w_alerts w ++ [a])).

Section Services.

Variable env : Env.

(** ** The weather client (weatherService.ts, lines 58-237) *)

(** The template [`weather_${lat}_${lon}_${days}`]. *)
Definition weatherCacheKey (lat lon : R) (days : nat) : string :=
  ("weather_" ++ numberToString env lat ++ "_" ++ numberToString env lon
   ++ "_" ++ numberToString env (INR days))%string.

(** [x ?? y] *)
Definition nullish_or {A : Type} (x y : option A) : option A :=
  match x with
  | Some v => Some v
  | None => y
  end.

(** [parameterObj?.NAME?.[key]] *)
Definition nasaParam (parameterObj : gmap string (gmap string Q))
    (param key : string) : option Q :=
  match parameterObj !! param with
  | Some byDate => byDate !! key
  | None => None
  end.

(** [json?.properties?.parameter || json?.parameters || {}] *)
Definition nasaParameterObj (json : NasaJson) : gmap string (gmap string Q) :=
  match properties_parameter json with
  | Some p => p
  | None =>
      match parameters json with
      | Some p => p
      | None => ∅
      end
  end.

(** The five arrays of daily values the first loop fills. *)
Record NasaDaily : Type := mkNasaDaily {
  nd_time : list string;
  nd_tmax : list Q;
  nd_tmin : list Q;
  nd_uv : list Q;
  nd_pr : list Q;
  nd_wsDaily : list Q
}.

(** [for (let i = 0; i < days; i++) { ... }] (lines 167-186): what iteration
    [i] pushes on each array; [today] is the clock reading of [new Date()]. *)
Definition nasaDay (parameterObj : gmap string (gmap string Q)) (today : Z)
    (i : nat) : string * Q * Q * Q * Q * Q :=
  let key := formatYMD env today i in
  let t2mMax :=
    nullish_or (nasaParam parameterObj "T2M_MAX" key)
               (nasaParam parameterObj "T2M" key) in
  let t2mMin :=
    nullish_or (nasaParam parameterObj "T2M_MIN" key)
               (nasaParam parameterObj "T2M" key) in
  let uvIndex := nasaParam parameterObj "ALLSKY_SFC_UV_INDEX" key in
  let precip := default 0%Q (nasaParam parameterObj "PRECTOT" key) in
  let wind := default 0%Q (nasaParam parameterObj "WS2M" key) in
  (dayISO env today i,
   default 25%Q t2mMax, default 15%Q t2mMin, default 5%Q uvIndex, precip, wind).

Definition nasaDailyLoop (parameterObj : gmap string (gmap string Q))
    (today : Z) (days : nat) : NasaDaily :=
  let rows := map (nasaDay parameterObj today) (seq 0 days) in
  mkNasaDaily
    (map (fun '(t, _, _, _, _, _) => t) rows)
    (map (fun '(_, tmax, _, _, _, _) => tmax) rows)
    (map (fun '(_, _, tmin, _, _, _) => tmin) rows)
    (map (fun '(_, _, _, uv, _, _) => uv) rows)
    (map (fun '(_, _, _, _, pr, _) => pr) rows)
    (map (fun '(_, _, _, _, _, ws) => ws) rows).

(** The cells pushed for hour [h] of day [day] (lines 197-213). Reading
    past the end of an array gives [undefined], and arithmetic on it [NaN]. *)
Definition nasaHourCell (d : NasaDaily) (today : Z) (day h : nat)
  : string * jsnum * jsnum * jsnum * jsnum :=
  let temp :=
    match nth_error (nd_tmax d) day, nth_error (nd_tmin d) day with
    | Some tmax, Some tmin =>
        let tAvg := ((tmax + tmin) / 2)%Q in
        JNum (Math_round (tAvg * 10) / 10)
    | _, _ => JNaN
    end in
  let wind :=
    match nth_error (nd_wsDaily d) day with
    | Some ws => JNum ws
    | None => JNull
    end in
  let precip :=
    match nth_error (nd_pr d) day with
    | Some pr => JNum (Number_toFixed (pr / 24) 3)
    | None => JNaN
    end in
  (hourISO env today day h, temp, JNum 50, wind, precip).

(** The nested loops of lines 195-215. *)
Definition nasaHourlyLoop (d : NasaDaily) (today : Z) (days : nat) : Hourly :=
  let cells :=
    flat_map (fun day => map (nasaHourCell d today day) (seq 0 24)) (seq 0 days) in
  mkHourly
    (map (fun '(t, _, _, _, _) => t) cells)
    (map (fun '(_, temp, _, _, _) => temp) cells)
    (map (fun '(_, _, hum, _, _) => hum) cells)
    (map (fun '(_, _, _, wind, _) => wind) cells)
    (map (fun '(_, _, _, _, precip) => precip) cells).

(** The object [mapped] (lines 217-234). *)
Definition nasaMapped (lat lon : R) (json : NasaJson) (today : Z) (days : nat)
  : OpenMeteoResponse :=
  let d := nasaDailyLoop (nasaParameterObj json) today days in
  mkOpenMeteoResponse (Some lat) (Some lon)
    (Some (nasaHourlyLoop d today days))
    (Some (mkDaily (nd_time d) (map JNum (nd_tmax d)) (map JNum (nd_tmin d))
                   (map JNum (nd_uv d)) (map JNum (nd_pr d)))).

(** [fetchWeatherDataFromNASA(lat, lon, days)] *)
Definition fetchWeatherDataFromNASA (lat lon : R) (days : nat) : M OpenMeteoResponse :=
  today <- reading (clock env) ;;
  let start_ := formatYMD env today 0 in
  let end_ := formatYMD env today (Nat.max 0 (days - 1)) in
  resp <- reading (fun n => nasaPower env n lat lon start_ end_) ;;
  match resp with
  | Rejected e => throw e
  | Response status body =>
      if negb (response_ok status) then throw (NasaPowerApiError status)
      else
        json <- lift body ;;
        ret (nasaMapped lat lon json today days)
  end.

(** [fetchWeatherData(lat, lon, days)], in the version with the NASA POWER
    fallback. *)
Definition fetchWeatherData (lat lon : R) (days : nat) : M OpenMeteoResponse :=
  let cacheKey := weatherCacheKey lat lon days in
  cached <- cache_get env cacheKey ;;
  match cached with
  | Some p =>
      console (WeatherCacheHit cacheKey) ;;;
      ret (asWeather p)
  | None =>
      console (WeatherApiFetching lat lon days) ;;;
      try_catch
        (response <- reading (fun n => openMeteo env n lat lon days) ;;
         match response with
         | Rejected e => throw e
         | Response status body =>
             if negb (response_ok status) then throw (OpenMeteoApiError status)
             else
               data <- lift body ;;
               cache_set env cacheKey (PWeather data) ;;;
               ret data
         end)
        (fun error =>
           console (WeatherApiError error) ;;;
           try_catch
             (console WeatherApiFallingBack ;;;
              nasaData <- fetchWeatherDataFromNASA lat lon days ;;
              cache_set env cacheKey (PWeather nasaData) ;;;
              ret nasaData)
             (fun nasaError =>
                console (WeatherApiNasaFailed nasaError) ;;;
                throw error))
  end.

(** ** The air-quality resolver (airQualityService.ts) *)

(** [Math.atan2(y, x)] on exact numbers. *)
Definition Math_atan2 (y x : R) : R :=
  if Rlt_dec 0 x then atan (y / x)
  else if Rlt_dec x 0 then
    (if Rle_dec 0 y then atan (y / x) + PI else atan (y / x) - PI)%R
  else if Rlt_dec 0 y then (PI / 2)%R
  else if Rlt_dec y 0 then (- PI / 2)%R
  else 0%R.

(** [calculateDistance(lat1, lon1, lat2, lon2)] (lines 30-45) *)
Definition calculateDistance (lat1 lon1 lat2 lon2 : R) : R :=
  let R_ := 6371%R in
  let dLat := ((lat2 - lat1) * PI / 180)%R in
  let dLon := ((lon2 - lon1) * PI / 180)%R in
  let a :=
    (sin (dLat / 2) * sin (dLat / 2) +
     cos (lat1 * PI / 180) * cos (lat2 * PI / 180) *
     sin (dLon / 2) * sin (dLon / 2))%R in
  let c := (2 * Math_atan2 (sqrt a) (sqrt (1 - a)))%R in
  (R_ * c)%R.

(** The distance of a station from the query point. *)
Definition stationDistance (lat lon : R) (station : OpenAQLocation) : R :=
  calculateDistance lat lon
    (coord_latitude (coordinates station))
    (coord_longitude (coordinates station)).

(** The body of [for (const station of data.results)] (lines 101-112); the
    state is [(nearestStation, minDistance)]. *)
Definition nearestStep (lat lon : R) (acc : OpenAQLocation * R)
    (station : OpenAQLocation) : OpenAQLocation * R :=
  let distance := stationDistance lat lon station in
  if Rlt_dec distance (snd acc) then (station, distance) else acc.

(** Lines 93-112: start from [data.results[0]] and scan all of
    [data.results]. *)
Definition nearestStationOf (lat lon : R) (first : OpenAQLocation)
    (results : list OpenAQLocation) : OpenAQLocation * R :=
  fold_left (nearestStep lat lon) results (first, stationDistance lat lon first).

(** The body of [for (const measurement of measurementsData.results)]
    (lines 137-145); the state is [(pm25, pm10, no2)]. *)
Definition measurementStep (acc : option Q * option Q * option Q)
    (measurement : OpenAQMeasurement) : option Q * option Q * option Q :=
  let '(pm25, pm10, no2) := acc in
  if String.eqb (parameter measurement) "pm25" && bool_decide (pm25 = None)
  then (Some (value measurement), pm10, no2)
  else if String.eqb (parameter measurement) "pm10" && bool_decide (pm10 = None)
  then (pm25, Some (value measurement), no2)
  else if String.eqb (parameter measurement) "no2" && bool_decide (no2 = None)
  then (pm25, pm10, Some (value measurement))
  else (pm25, pm10, no2).

(** [getFallbackAirQuality()] (lines 165-173) *)
Definition getFallbackAirQuality : AirQualityData :=
  mkAirQualityData None None None None None.

(** The template [`airquality_${lat}_${lon}`]. *)
Definition airQualityCacheKey (lat lon : R) : string :=
  ("airquality_" ++ numberToString env lat ++ "_" ++ numberToString env lon)%string.

(** [fetchAirQualityData(lat, lon, radius)] (lines 47-163) *)
Definition fetchAirQualityData (lat lon radius : R) : M AirQualityData :=
  let cacheKey := airQualityCacheKey lat lon in
  cached <- cache_get env cacheKey ;;
  match cached with
  | Some p =>
      console (AirQualityCacheHit cacheKey) ;;;
      ret (asAirQuality p)
  | None =>
      console (AirQualityFetching lat lon) ;;;
      try_catch
        (response <- reading (fun n => openaqLocations env n lat lon radius) ;;
         match response with
         | Rejected e => throw e
         | Response status body =>
             if negb (response_ok status) then
               console (AirQualityStatus status) ;;;
               ret getFallbackAirQuality
             else
               data <- lift body ;;
               match data with
               | None | Some [] =>
                   console AirQualityNoStations ;;;
                   ret getFallbackAirQuality
               | Some ((first :: _) as results) =>
                   let '(nearestStation, minDistance) :=
                     nearestStationOf lat lon first results in
                   measurementsResponse <-
                     reading (fun n => openaqMeasurements env n (id nearestStation)) ;;
                   match measurementsResponse with
                   | Rejected e => throw e
                   | Response mstatus mbody =>
                       readings <-
                         (if response_ok mstatus then
                            measurementsData <- lift mbody ;;
                            match measurementsData with
                            | Some results' =>
                                ret (fold_left measurementStep results'
                                       (None, None, None))
                            | None =>
                                throw (TypeError "measurementsData.results is not iterable")
                            end
                          else ret (None, None, None)) ;;
                       let '(pm25, pm10, no2) := readings in
                       let result :=
                         mkAirQualityData pm25 pm10 no2
                           (Some (name nearestStation)) (Some minDistance) in
                       cache_set env cacheKey (PAir result) ;;;
                       ret result
                   end
               end
         end)
        (fun error =>
           console (AirQualityError error) ;;;
           ret getFallbackAirQuality)
  end.

(** ** The scheduler (scheduler.ts) *)

(** [interface RiskThresholds] and the constant [thresholds]. *)
Record RiskThresholds : Type := mkThresholds {
  th_hsi : Q;
  th_csi : Q;
  th_aqri : Q
}.

Definition thresholds : RiskThresholds := mkThresholds 70 60 65.

(** [getCentroid(coordinates)]: returns [[sumLon / count, sumLat / count]]. *)
Definition getCentroid (coordinates : list (list (R * R))) : R * R :=
  let '(sumLat, sumLon, count) :=
    fold_left
      (fun acc ring =>
         fold_left
           (fun '(sumLat, sumLon, count) coord =>
              ((sumLat + snd coord)%R, (sumLon + fst coord)%R, S count))
           ring acc)
      coordinates (0%R, 0%R, 0%nat) in
  ((sumLon / INR count)%R, (sumLat / INR count)%R).

(** [highRiskNeighborhoods] *)
Record HighRisk : Type := mkHighRisk {
  hr_heat : list string;
  hr_cold : list string;
  hr_air_quality : list string
}.

(** [a >= b] on numbers. *)
Definition js_ge (a b : Q) : bool := Qle_bool b a.

(** Lines 227-238: the calls inside the per-region [try]. *)
Definition assessRegion (lat lon : R) : M RiskData :=
  weatherData <- fetchWeatherData lat lon 7 ;;
  weather <- lift (processWeatherForRisk weatherData 0) ;;
  airQuality <- fetchAirQualityData lat lon 50000 ;;
  now <- reading (clock env) ;;
  lift (calculateCompleteRisk env weather airQuality 0 0 (toISOString env now)).

(** Lines 240-248: the three pushes. *)
Definition pushHighRisk (name : string) (riskData : RiskData) (acc : HighRisk)
  : HighRisk :=
  mkHighRisk
    (if js_ge (hsi riskData) (th_hsi thresholds)
     then hr_heat acc ++ [name] else hr_heat acc)
    (if js_ge (csi riskData) (th_csi thresholds)
     then hr_cold acc ++ [name] else hr_cold acc)
    (if js_ge (aqri riskData) (th_aqri thresholds)
     then hr_air_quality acc ++ [name] else hr_air_quality acc).

(** The body of [for (const feature of neighborhoods.features)] (lines
    221-253): the three statements before the [try] read through
    [feature.geometry] and [feature.properties] and throw when these are
    [null]. *)
Definition processFeature (acc : HighRisk) (feature : Feature) : M HighRisk :=
  match geometry feature with
  | None => throw (TypeError "Cannot read properties of null (reading 'type')")
  | Some g =>
      match geometry_type g with
      | Polygon =>
          let '(lon, lat) := getCentroid (geometry_coordinates g) in
          match properties feature with
          | None => throw (TypeError "Cannot read properties of null (reading 'name')")
          | Some p =>
              let name := properties_name p in
              try_catch
                (riskData <- assessRegion lat lon ;;
                 let acc' := pushHighRisk name riskData acc in
                 console (SchedulerRegion name riskData) ;;;
                 ret acc')
                (fun error =>
                   console (SchedulerErrorProcessing name error) ;;;
                   ret acc)
          end
      | _ => ret acc
      end
  end.

Fixpoint forEachFeature (features : list Feature) (acc : HighRisk) : M HighRisk :=
  match features with
  | [] => ret acc
  | feature :: rest =>
      acc' <- processFeature acc feature ;;
      forEachFeature rest acc'
  end.

(** [`${n}`] for an array length. *)
Definition lengthToString (n : nat) : string :=
  NilEmpty.string_of_uint (Nat.to_uint n).

(** The three message templates of lines 262, 273 and 284. *)
Definition alertMessage (t : AlertType) (n : nat) : string :=
  match t with
  | heat =>
      "High heat stress detected in " ++ lengthToString n
      ++ " neighborhood(s). Heat Stress Index above 70."
  | cold =>
      "High cold stress detected in " ++ lengthToString n
      ++ " neighborhood(s). Cold Stress Index above 60."
  | air_quality =>
      "Poor air quality detected in " ++ lengthToString n
      ++ " neighborhood(s). Air Quality Risk Index above 65."
  end%string.

(** One of the three blocks [if (highRiskNeighborhoods.X.length > 0) {..}]
    (lines 256-287). *)
Definition alertBlock (t : AlertType) (names : list string) : M unit :=
  if (0 <? length names)%nat then
    let severity := if (3 <=? length names)%nat then extreme else high in
    addAlert env (mkAlert t severity names (alertMessage t (length names))) ;;;
    console (SchedulerCreatedAlert t names)
  else ret tt.

(** [storage.getNeighborhoods()] (storage.ts, lines 104-112): a file that
    cannot be read or parsed is reported on the console and an empty
    collection is returned. The result is the [features] of the collection,
    [None] when the parsed document has no list of features. *)
Definition getNeighborhoods : M (option (list Feature)) :=
  file <- reading (neighborhoodsFile env) ;;
  match file with
  | inl e =>
      console (StorageErrorLoadingNeighborhoods e) ;;;
      ret (Some [])
  | inr neighborhoods => ret neighborhoods
  end.

(** [calculateDailyRisks()] (lines 209-293) *)
Definition calculateDailyRisks : M unit :=
  console SchedulerRunning ;;;
  try_catch
    (neighborhoods <- getNeighborhoods ;;
     features <-
       match neighborhoods with
       | Some features => ret features
       | None => throw (TypeError "neighborhoods.features is not iterable")
       end ;;
     highRiskNeighborhoods <- forEachFeature features (mkHighRisk [] [] []) ;;
     alertBlock heat (hr_heat highRiskNeighborhoods) ;;;
     alertBlock cold (hr_cold highRiskNeighborhoods) ;;;
     alertBlock air_quality (hr_air_quality highRiskNeighborhoods) ;;;
     console SchedulerCompleted)
    (fun error => console (SchedulerError error)).

End Services.

(** * Vocabulary of the statements *)

(** The error with which the request to the primary provider fails, if it
    does: the rejection of [fetch], a status outside 200-299, or the
    rejection of [response.json()]. *)
Definition primaryFailure (reply : HttpReply OpenMeteoResponse) : option exn :=
  match reply with
  | Rejected e => Some e
  | Response status body =>
      if response_ok status
      then match body with inl e => Some e | inr _ => None end
      else Some (OpenMeteoApiError status)
  end.

(** The same for the request to the secondary provider. *)
Definition secondaryFailure (reply : HttpReply NasaJson) : option exn :=
  match reply with
  | Rejected e => Some e
  | Response status body =>
      if response_ok status
      then match body with inl e => Some e | inr _ => None end
      else Some (NasaPowerApiError status)
  end.

(** [r] is [x] rounded to [k] decimals: a multiple of [10^-k] at most half
    of [10^-k] away from [x]. *)
Definition rounded_to_decimals (k : nat) (x r : Q) : Prop :=
  (exists n : Z, r == inject_Z n / inject_Z (10 ^ Z.of_nat k))
  /\ (x - (1 # 2) / inject_Z (10 ^ Z.of_nat k) <= r)%Q
  /\ (r <= x + (1 # 2) / inject_Z (10 ^ Z.of_nat k))%Q.

(** The ways the station-listing request fails: [fetch] rejects, the status
    is outside 200-299, the body cannot be read, or it lists no station. *)
Inductive locationsFailure : HttpReply (option (list OpenAQLocation)) -> Prop :=
| LocationsRejected (e : exn) : locationsFailure (Rejected e)
| LocationsStatus (status : Z) (body : exn + option (list OpenAQLocation)) :
    response_ok status = false -> locationsFailure (Response status body)
| LocationsUnreadable (status : Z) (e : exn) :
    locationsFailure (Response status (inl e))
| LocationsNoResults (status : Z) :
    locationsFailure (Response status (inr None))
| LocationsEmpty (status : Z) :
    locationsFailure (Response status (inr (Some []))).

(** The ways the measurements request fails other than by its status:
    [fetch] rejects, or the body of a 2xx response cannot be read or has no
    list of results. *)
Inductive measurementsFailure : HttpReply (option (list OpenAQMeasurement)) -> Prop :=
| MeasurementsRejected (e : exn) : measurementsFailure (Rejected e)
| MeasurementsUnreadable (status : Z) (e : exn) :
    response_ok status = true -> measurementsFailure (Response status (inl e))
| MeasurementsNoResults (status : Z) :
    response_ok status = true -> measurementsFailure (Response status (inr None)).

(** The snapshot built once the nearest station [s], at distance [d], is
    known, from the reply to the measurements request. *)
Definition stationSnapshot (s : OpenAQLocation) (d : R)
    (reply : HttpReply (option (list OpenAQMeasurement))) : AirQualityData :=
  match reply with
  | Rejected _ => getFallbackAirQuality
  | Response mstatus mbody =>
      if response_ok mstatus then
        match mbody with
        | inr (Some results) =>
            let '(pm25, pm10, no2) :=
              fold_left measurementStep results (None, None, None) in
            mkAirQualityData pm25 pm10 no2 (Some (name s)) (Some d)
        | _ => getFallbackAirQuality
        end
      else mkAirQualityData None None None (Some (name s)) (Some d)
  end.

(** What [fetchAirQualityData] returns when the cache has nothing for the
    key, from the replies to its two requests; [n] is the number of readings
    made before the first request. *)
Definition resolvedAirQuality (env : Env) (lat lon radius : R) (n : nat)
  : AirQualityData :=
  match openaqLocations env n lat lon radius with
  | Response status (inr (Some (first :: rest))) =>
      if response_ok status then
        let out := nearestStationOf lat lon first (first :: rest) in
        stationSnapshot (fst out) (snd out)
          (openaqMeasurements env (S n) (id (fst out)))
      else getFallbackAirQuality
  | _ => getFallbackAirQuality
  end.

(** [s] is the first station of [l] at the least distance: it stands at some
    index of [l], every station before it is strictly farther, and no station
    of [l] is nearer. *)
Definition first_nearest (dist : OpenAQLocation -> R) (l : list OpenAQLocation)
    (s : OpenAQLocation) : Prop :=
  (exists i : nat,
     nth_error l i = Some s
     /\ forall (j : nat) (s' : OpenAQLocation),
          (j < i)%nat -> nth_error l j = Some s' -> (dist s < dist s')%R)
  /\ forall s' : OpenAQLocation, In s' l -> (dist s <= dist s')%R.

(** A feature the loop can read: it has a geometry and, when the geometry
    is a polygon, properties. On any other feature a statement before the
    per-region [try] throws. *)
Definition readable (feature : Feature) : Prop :=
  match geometry feature with
  | Some (mkGeometry Polygon _) => properties feature <> None
  | Some _ => True
  | None => False
  end.

(** What [storage.getNeighborhoods()] returns and what it puts on the
    console, by the reading [n] of the file. *)
Definition listedFeatures (env : Env) (n : nat) : option (list Feature) :=
  match neighborhoodsFile env n with
  | inl _ => Some []
  | inr neighborhoods => neighborhoods
  end.

Definition storageLines (env : Env) (n : nat) : list LogEvent :=
  match neighborhoodsFile env n with
  | inl e => [StorageErrorLoadingNeighborhoods e]
  | inr _ => []
  end.

(** The world in which the loop of a run started in [w] begins: the file has
    been read, the first line of the run and the report of the storage, if
    any, are on the console. *)
Definition loopStart (env : Env) (w : World) : World :=
  mkWorld (w_cache w) (S (w_reads w))
    (w_console w ++ SchedulerRunning :: storageLines env (w_reads w)) (w_alerts w).

(** The error a statement before the per-region [try] throws on a feature
    that cannot be read. *)
Definition unreadableError (feature : Feature) : exn :=
  match geometry feature with
  | None => TypeError "Cannot read properties of null (reading 'type')"
  | Some _ => TypeError "Cannot read properties of null (reading 'name')"
  end.

(** Lines 256-289 of a run: the three alert blocks and the last line. *)
Definition raiseAlerts (env : Env) (highRiskNeighborhoods : HighRisk) : M unit :=
  alertBlock env heat (hr_heat highRiskNeighborhoods) ;;;
  alertBlock env cold (hr_cold highRiskNeighborhoods) ;;;
  alertBlock env air_quality (hr_air_quality highRiskNeighborhoods) ;;;
  console SchedulerCompleted.

(** What one region contributes to a run started in world [w]: nothing when
    its geometry is not a polygon, else its name with the error thrown or
    the risk computed inside the per-region [try]. *)
Definition regionOutcome (env : Env) (feature : Feature) (w : World)
  : list (string * (exn + RiskData)) :=
  match geometry feature, properties feature with
  | Some (mkGeometry Polygon coordinates), Some p =>
      let '(lon, lat) := getCentroid coordinates in
      [(properties_name p, fst (assessRegion env lat lon w))]
  | _, _ => []
  end.

(** The outcomes of the regions of a run, in the order of the file; each
    region is assessed in the world the previous one left. *)
Fixpoint outcomes (env : Env) (features : list Feature) (w : World)
  : list (string * (exn + RiskData)) :=
  match features with
  | [] => []
  | feature :: rest =>
      regionOutcome env feature w
      ++ outcomes env rest (snd (processFeature env (mkHighRisk [] [] []) feature w))
  end.

(** The effect of one outcome on [highRiskNeighborhoods]. *)
Definition pushOutcome (acc : HighRisk) (o : string * (exn + RiskData)) : HighRisk :=
  match o with
  | (name, inr riskData) => pushHighRisk name riskData acc
  | (_, inl _) => acc
  end.

(** The names of the regions whose [score] is at least [threshold]. *)
Fixpoint affected (score : RiskData -> Q) (threshold : Q)
    (outs : list (string * (exn + RiskData))) : list string :=
  match outs with
  | [] => []
  | (name, inr r) :: rest =>
      if Qle_bool threshold (score r)
      then name :: affected score threshold rest
      else affected score threshold rest
  | (_, inl _) :: rest => affected score threshold rest
  end.

(** The alerts an index gives rise to: none for an empty set of regions,
    else one. *)
Definition alertsFor (t : AlertType) (names : list string) : list Alert :=
  match names with
  | [] => []
  | _ :: _ =>
      [mkAlert t (if (3 <=? length names)%nat then extreme else high) names
               (alertMessage t (length names))]
  end.

(** The alerts of type [t] among [alerts]. *)
Definition alertsOfType (t : AlertType) (alerts : list Alert) : list Alert :=
  List.filter (fun a => bool_decide (type a = t)) alerts.

(** A computation that stores no alert. *)
Definition keeps_alerts {A : Type} (m : M A) : Prop :=
  forall w : World, w_alerts (snd (m w)) = w_alerts w.

(** The world a run has reached after the regions [features], started in
    [w]. *)
Definition worldAfter (env : Env) (features : list Feature) (w : World) : World :=
  snd (forEachFeature env features (mkHighRisk [] [] []) w).

(** A text without the separator of the cache keys. *)
Fixpoint no_underscore (s : string) : Prop :=
  match s with
  | EmptyString => True
  | String c s' => c <> "_"%char /\ no_underscore s'
  end.

(** * Scenarios

    Concrete inputs on which the properties below are exercised. *)

(** A one-day snapshot of a calm winter day: the minimum temperature is
    exactly 0 degrees and the relative humidity reads 0 percent. *)
Definition freezingDay : OpenMeteoResponse :=
  mkOpenMeteoResponse None None
    (Some (mkHourly ["2024-01-15T00:00"%string] [JNum 1] [JNum 0] [JNum 20] [JNum 0]))
    (Some (mkDaily ["2024-01-15"%string] [JNum (7 # 2)] [JNum 0] [JNum 1] [JNum 0])).

(** The process right after start-up: an empty cache with a 15 minute
    time-to-live, no reading made, nothing printed, no alert stored. *)
Definition startup : World := mkWorld weatherCache 0 [] [].

(** The printers of the scenarios. Numbers print as the fixed text [0], so
    all lookups of one kind share one cache key; dates print as 15 January
    2024 and the days after. *)
Definition scenarioYMD (today : Z) (i : nat) : string :=
  NilEmpty.string_of_uint (N.to_uint (20240115 + N.of_nat i)).

(** Both weather providers are down: the primary answers 500, the secondary
    answers 503; the air-quality service refuses connections. *)
Definition outage : Env :=
  mkEnv
    (fun n => 1705300000000 + Z.of_nat n)
    (fun _ _ _ _ => Response 500 (inl (JsonRejected "Unexpected token <")))
    (fun _ _ _ _ _ => Response 503 (inl (JsonRejected "Unexpected token <")))
    (fun _ _ _ _ => Rejected (FetchFailed "ECONNREFUSED"))
    (fun _ _ => Rejected (FetchFailed "ECONNREFUSED"))
    (fun _ => inr (Some []))
    (fun _ _ _ _ _ => inl (EngineError "not reached"))
    (fun _ => "0"%string)
    scenarioYMD
    (fun _ _ => "2024-01-15"%string)
    (fun _ _ _ => "2024-01-15T00:00:00.000Z"%string)
    (fun _ => "2024-01-15T06:00:00.000Z"%string)
    (fun _ => None).

(** A NASA POWER body for 15 and 16 January 2024; the second day has no wind
    and no precipitation value. *)
Definition nasaTwoDays : NasaJson :=
  mkNasaJson
    (Some {[ "T2M_MAX"%string :=
               {[ "20240115"%string := (33 # 10)%Q; "20240116"%string := 5%Q ]};
             "T2M_MIN"%string :=
               {[ "20240115"%string := (- (215 # 100))%Q; "20240116"%string := (- 1)%Q ]};
             "WS2M"%string := {[ "20240115"%string := (72 # 10)%Q ]};
             "PRECTOT"%string := {[ "20240115"%string := (13 # 10)%Q ]} ]})
    None.

(** The primary provider cannot be reached; the secondary answers 200 with
    [nasaTwoDays]. *)
Definition primaryDown : Env :=
  mkEnv
    (fun n => 1705300000000 + Z.of_nat n)
    (fun _ _ _ _ => Rejected (FetchFailed "ECONNRESET"))
    (fun _ _ _ _ _ => Response 200 (inr nasaTwoDays))
    (fun _ _ _ _ => Rejected (FetchFailed "ECONNREFUSED"))
    (fun _ _ => Rejected (FetchFailed "ECONNREFUSED"))
    (fun _ => inr (Some []))
    (fun _ _ _ _ _ => inl (EngineError "not reached"))
    (fun _ => "0"%string)
    scenarioYMD
    (fun _ _ => "2024-01-15"%string)
    (fun _ _ _ => "2024-01-15T00:00:00.000Z"%string)
    (fun _ => "2024-01-15T06:00:00.000Z"%string)
    (fun _ => None).

(** Three stations on the equator, 12 km, 3 km and 47 km east of the point
    at latitude 0 and longitude 0, in the order the service lists them. *)
Definition eastOfOrigin (km : R) : Coordinates :=
  mkCoordinates 0 (km * 180 / (6371 * PI)).

Definition harbour : OpenAQLocation := mkLocation 101 "Harbour" (eastOfOrigin 12).
Definition midtown : OpenAQLocation := mkLocation 102 "Midtown" (eastOfOrigin 3).
Definition airport : OpenAQLocation := mkLocation 103 "Airport" (eastOfOrigin 47).

(** The station list answers with [midtown] alone; the measurements endpoint
    answers 500. *)
Definition measurementsUnavailable : Env :=
  mkEnv
    (fun n => 1705300000000 + Z.of_nat n)
    (fun _ _ _ _ => Rejected (FetchFailed "ECONNRESET"))
    (fun _ _ _ _ _ => Response 503 (inl (JsonRejected "Unexpected token <")))
    (fun _ _ _ _ => Response 200 (inr (Some [midtown])))
    (fun _ _ => Response 500 (inl (JsonRejected "Unexpected token <")))
    (fun _ => inr (Some []))
    (fun _ _ _ _ _ => inl (EngineError "not reached"))
    (fun _ => "0"%string)
    scenarioYMD
    (fun _ _ => "2024-01-15"%string)
    (fun _ _ _ => "2024-01-15T00:00:00.000Z"%string)
    (fun _ => "2024-01-15T06:00:00.000Z"%string)
    (fun _ => None).

(** The station list depends on the radius asked: within 50 km of the origin
    there is [airport], within 1 km there is nothing. *)
Definition radiusSensitive : Env :=
  mkEnv
    (fun n => 1705300000000 + Z.of_nat n)
    (fun _ _ _ _ => Rejected (FetchFailed "ECONNRESET"))
    (fun _ _ _ _ _ => Response 503 (inl (JsonRejected "Unexpected token <")))
    (fun _ _ _ radius =>
       if Rlt_dec radius 47000
       then Response 200 (inr (Some []))
       else Response 200 (inr (Some [airport])))
    (fun _ _ => Response 200 (inr (Some [mkMeasurement "pm25" (25 # 2) "ug/m3"])))
    (fun _ => inr (Some []))
    (fun _ _ _ _ _ => inl (EngineError "not reached"))
    (fun _ => "0"%string)
    scenarioYMD
    (fun _ _ => "2024-01-15"%string)
    (fun _ _ _ => "2024-01-15T00:00:00.000Z"%string)
    (fun _ => "2024-01-15T06:00:00.000Z"%string)
    (fun _ => None).

(** What the 50 km lookup finds. *)
Definition airportReading : AirQualityData :=
  mkAirQualityData (Some (25 # 2)%Q) None None (Some "Airport"%string) (Some 47%R).

(** Three neighbourhoods, each outlined by two corners. *)
Definition riverside : Feature :=
  mkFeature Polygon [[((- 7940 / 100)%R, (4365 / 100)%R); ((- 7938 / 100)%R, (4367 / 100)%R)]]
    "Riverside".

Definition oldtown : Feature :=
  mkFeature Polygon [[((- 7936 / 100)%R, (4365 / 100)%R); ((- 7934 / 100)%R, (4367 / 100)%R)]]
    "Oldtown".

Definition hillcrest : Feature :=
  mkFeature Polygon [[((- 7932 / 100)%R, (4369 / 100)%R); ((- 7930 / 100)%R, (4371 / 100)%R)]]
    "Hillcrest".

(** A one-day forecast with the given maximum temperature. *)
Definition forecast (tmax : Q) : OpenMeteoResponse :=
  mkOpenMeteoResponse None None
    (Some (mkHourly ["2024-07-03T00:00"%string] [JNum 20] [JNum 40] [JNum 5] [JNum 0]))
    (Some (mkDaily ["2024-07-03"%string] [JNum tmax] [JNum 18] [JNum 7] [JNum 0])).

(** A stand-in for the risk engine: the heat index is the maximum
    temperature, the other two indices are 0. *)
Definition thermometer (weather : WeatherData) (airQuality : AirQualityData)
    (a b : Q) (timestamp : string) : exn + RiskData :=
  inr (mkRiskData (temperature weather) 0 0 (temperature weather)).

(** A run over the three neighbourhoods. Clock readings are 1000 seconds
    apart, so the forecast cached for one neighbourhood has expired when the
    next one looks it up; the primary provider answers the three requests of
    the run, which are readings 1, 6 and 11, with maxima 72, 50 and 90; the
    air-quality service refuses connections. *)
Definition heatwave : Env :=
  mkEnv
    (fun n => 1720000000000 + 1000000 * Z.of_nat n)
    (fun n _ _ _ =>
       match n with
       | 1%nat => Response 200 (inr (forecast 72))
       | 6%nat => Response 200 (inr (forecast 50))
       | 11%nat => Response 200 (inr (forecast 90))
       | _ => Rejected (FetchFailed "ECONNRESET")
       end)
    (fun _ _ _ _ _ => Response 503 (inl (JsonRejected "Unexpected token <")))
    (fun _ _ _ _ => Rejected (FetchFailed "ECONNREFUSED"))
    (fun _ _ => Rejected (FetchFailed "ECONNREFUSED"))
    (fun _ => inr (Some [riverside; oldtown; hillcrest]))
    thermometer
    (fun _ => "0"%string)
    scenarioYMD
    (fun _ _ => "2024-07-03"%string)
    (fun _ _ _ => "2024-07-03T00:00:00.000Z"%string)
    (fun _ => "2024-07-03T06:00:00.000Z"%string)
    (fun _ => None).

(** The same run, except that both weather providers fail for the second
    neighbourhood: the primary provider answers readings 1 and 9 and rejects
    reading 6, and the secondary provider answers 503. *)
Definition heatwaveWithOutage : Env :=
  mkEnv
    (fun n => 1720000000000 + 1000000 * Z.of_nat n)
    (fun n _ _ _ =>
       match n with
       | 1%nat => Response 200 (inr (forecast 72))
       | 9%nat => Response 200 (inr (forecast 90))
       | _ => Rejected (FetchFailed "ECONNRESET")
       end)
    (fun _ _ _ _ _ => Response 503 (inl (JsonRejected "Unexpected token <")))
    (fun _ _ _ _ => Rejected (FetchFailed "ECONNREFUSED"))
    (fun _ _ => Rejected (FetchFailed "ECONNREFUSED"))
    (fun _ => inr (Some [riverside; oldtown; hillcrest]))
    thermometer
    (fun _ => "0"%string)
    scenarioYMD
    (fun _ _ => "2024-07-03"%string)
    (fun _ _ _ => "2024-07-03T00:00:00.000Z"%string)
    (fun _ => "2024-07-03T06:00:00.000Z"%string)
    (fun _ => None).

(** The world in which the first region of a run from [startup] is
    processed. *)
Definition running : World := mkWorld weatherCache 1 [SchedulerRunning] [].

(** A feature without location, as GeoJSON allows: its geometry is [null]. *)
Definition unlocated : Feature :=
  mkListedFeature None (Some (mkProperties "Unlocated")).

(** The heat wave over a given list of features: the primary provider
    answers the first two requests of the run, which are readings 1 and 6,
    with maxima 72 and 90. *)
Definition heatwaveOver (listed : list Feature) : Env :=
  mkEnv
    (fun n => 1720000000000 + 1000000 * Z.of_nat n)
    (fun n _ _ _ =>
       match n with
       | 1%nat => Response 200 (inr (forecast 72))
       | 6%nat => Response 200 (inr (forecast 90))
       | _ => Rejected (FetchFailed "ECONNRESET")
       end)
    (fun _ _ _ _ _ => Response 503 (inl (JsonRejected "Unexpected token <")))
    (fun _ _ _ _ => Rejected (FetchFailed "ECONNREFUSED"))
    (fun _ _ => Rejected (FetchFailed "ECONNREFUSED"))
    (fun _ => inr (Some listed))
    thermometer
    (fun _ => "0"%string)
    scenarioYMD
    (fun _ _ => "2024-07-03"%string)
    (fun _ _ _ => "2024-07-03T00:00:00.000Z"%string)
    (fun _ => "2024-07-03T06:00:00.000Z"%string)
    (fun _ => None).

(** * Further vocabulary *)

(** A computation that changes nothing of the cache but, at most, the
    entries under the keys that satisfy [P]: the time-to-live and the entries
    under all other keys stay. *)
Definition frames {A : Type} (P : string -> Prop) (m : M A) : Prop :=
  forall w : World,
    WeatherCache.ttl (w_cache (snd (m w))) = WeatherCache.ttl (w_cache w)
    /\ forall k : string,
         ~ P k ->
         WeatherCache.cache (w_cache (snd (m w))) !! k
         = WeatherCache.cache (w_cache w) !! k.

(** The cache keys of a region of the neighbourhoods file: none when its
    geometry is not a polygon, else the key of the seven-day forecast and the
    key of the air quality at its centroid. *)
Definition regionKeys (env : Env) (feature : Feature) : list string :=
  match geometry feature with
  | Some (mkGeometry Polygon coordinates) =>
      let '(lon, lat) := getCentroid coordinates in
      [weatherCacheKey env lat lon 7; airQualityCacheKey env lat lon]
  | _ => []
  end.

(** The value of the first measurement of [ms] whose parameter is [p]. *)
Definition firstReading (p : string) (ms : list OpenAQMeasurement) : option Q :=
  option_map value (find (fun m => String.eqb (parameter m) p) ms).

(** Both weather providers are down and the cache holds, under the key of
    the request, a forecast stored well over a quarter of an hour before. *)
Definition staleForecast : World :=
  mkWorld (WeatherCache.set 1705200000000 "weather_0_0_0" (PWeather freezingDay)
             weatherCache) 0 [] [].

(** The station list answers with [midtown] alone; the measurements endpoint
    lists ozone, two fine-particle readings, one coarse-particle reading and
    one nitrogen-dioxide reading. *)
Definition midtownReadings : list OpenAQMeasurement :=
  [mkMeasurement "o3" 40 "ug/m3"; mkMeasurement "pm25" (25 # 2) "ug/m3";
   mkMeasurement "pm10" 30 "ug/m3"; mkMeasurement "pm25" 99 "ug/m3";
   mkMeasurement "no2" 17 "ug/m3"].

Definition measurementsListed : Env :=
  mkEnv
    (fun n => 1705300000000 + Z.of_nat n)
    (fun _ _ _ _ => Rejected (FetchFailed "ECONNRESET"))
    (fun _ _ _ _ _ => Response 503 (inl (JsonRejected "Unexpected token <")))
    (fun _ _ _ _ => Response 200 (inr (Some [midtown])))
    (fun _ _ => Response 200 (inr (Some midtownReadings)))
    (fun _ => inr (Some []))
    (fun _ _ _ _ _ => inl (EngineError "not reached"))
    (fun _ => "0"%string)
    scenarioYMD
    (fun _ _ => "2024-01-15"%string)
    (fun _ _ _ => "2024-01-15T00:00:00.000Z"%string)
    (fun _ => "2024-01-15T06:00:00.000Z"%string)
    (fun _ => None).

(** The features the loop passes over with [continue]: those with a geometry
    of another type than ["Polygon"]. *)
Definition skipped (feature : Feature) : bool :=
  match geometry feature with
  | Some (mkGeometry Polygon _) => false
  | Some _ => true
  | None => false
  end.

(** What a run that assessed no region puts on the console after its first
    line: the report of the storage when the file could not be read, then
    the completion; or the error of the run when the document has no list of
    features. *)
Definition idleRunEnd (file : exn + option (list Feature)) : list LogEvent :=
  match file with
  | inl e => [StorageErrorLoadingNeighborhoods e; SchedulerCompleted]
  | inr (Some _) => [SchedulerCompleted]
  | inr None => [SchedulerError (TypeError "neighborhoods.features is not iterable")]
  end.

(** A file with one region outlined as a multi-polygon and one as a line. *)
Definition islands : Feature := mkFeature MultiPolygon [] "Islands".
Definition causeway : Feature := mkFeature OtherGeometry [] "Causeway".

Definition noPolygons : Env :=
  mkEnv
    (fun n => 1705300000000 + Z.of_nat n)
    (fun _ _ _ _ => Rejected (FetchFailed "ECONNRESET"))
    (fun _ _ _ _ _ => Response 503 (inl (JsonRejected "Unexpected token <")))
    (fun _ _ _ _ => Rejected (FetchFailed "ECONNREFUSED"))
    (fun _ _ => Rejected (FetchFailed "ECONNREFUSED"))
    (fun _ => inr (Some [islands; causeway]))
    thermometer
    (fun _ => "0"%string)
    scenarioYMD
    (fun _ _ => "2024-01-15"%string)
    (fun _ _ _ => "2024-01-15T00:00:00.000Z"%string)
    (fun _ => "2024-01-15T06:00:00.000Z"%string)
    (fun _ => None).

(** A neighbourhoods file cut short: [JSON.parse] throws. *)
Definition unreadableFile : Env :=
  mkEnv
    (fun n => 1705300000000 + Z.of_nat n)
    (fun _ _ _ _ => Rejected (FetchFailed "ECONNRESET"))
    (fun _ _ _ _ _ => Response 503 (inl (JsonRejected "Unexpected token <")))
    (fun _ _ _ _ => Rejected (FetchFailed "ECONNREFUSED"))
    (fun _ _ => Rejected (FetchFailed "ECONNREFUSED"))
    (fun _ => inl (FileError "Unexpected end of JSON input"))
    thermometer
    (fun _ => "0"%string)
    scenarioYMD
    (fun _ _ => "2024-01-15"%string)
    (fun _ _ _ => "2024-01-15T00:00:00.000Z"%string)
    (fun _ => "2024-01-15T06:00:00.000Z"%string)
    (fun _ => None).

(** * The weather client without the fallback

    [fetchWeatherData] as server/services/weatherService.ts has it (lines
    58-98): the [catch] logs the error and rethrows it. *)

Module WeatherServiceDirect.

Definition fetchWeatherData (env : Env) (lat lon : R) (days : nat)
  : M OpenMeteoResponse :=
  let cacheKey := weatherCacheKey env lat lon days in
  cached <- cache_get env cacheKey ;;
  match cached with
  | Some p =>
      console (WeatherCacheHit cacheKey) ;;;
      ret (asWeather p)
  | None =>
      console (WeatherApiFetching lat lon days) ;;;
      try_catch
        (response <- reading (fun n => openMeteo env n lat lon days) ;;
         match response with
         | Rejected e => throw e
         | Response status body =>
             if negb (response_ok status) then throw (OpenMeteoApiError status)
             else
               data <- lift body ;;
               cache_set env cacheKey (PWeather data) ;;;
               ret data
         end)
        (fun error =>
           console (WeatherApiError error) ;;;
           throw error)
  end.

End WeatherServiceDirect.

(** * The push service (WebPushService)

    ** Insertion-ordered maps

    A JavaScript [Map] with string keys, as the list of its entries in
    insertion order: [set] on a key already present replaces the value where
    the entry stands, [set] on a new key appends, [delete] removes. *)

Module JsMap.

Definition t (V : Type) : Type := list (string * V).

Definition has {V : Type} (k : string) (m : t V) : bool :=
  existsb (fun kv => String.eqb (fst kv) k) m.

Fixpoint set {V : Type} (k : string) (v : V) (m : t V) : t V :=
  match m with
  | [] => [(k, v)]
  | (k', v') :: rest =>
      if String.eqb k' k then (k', v) :: rest else (k', v') :: set k v rest
  end.

Definition delete {V : Type} (k : string) (m : t V) : t V :=
  List.filter (fun kv => negb (String.eqb (fst kv) k)) m.

(** [Array.from(m.values())] and [Array.from(m.entries())] *)
Definition values {V : Type} (m : t V) : list V := map snd m.

Definition entries {V : Type} (m : t V) : list (string * V) := m.

Definition size {V : Type} (m : t V) : nat := length m.

End JsMap.

Module WebPushService.

Record PushSubscription : Type := mkSubscription {
  endpoint : string;
  p256dh : string;
  auth : string
}.

(** How the promise of [webpush.sendNotification] settles: fulfilled, or
    rejected with an error that may carry a [statusCode]. *)
Inductive Outcome : Type :=
| Delivered
| Failed (statusCode : option Z).

Inductive PushLog : Type :=
| LoadedSubscriptions (n : nat)
| LoadError (e : exn)
| SaveError (e : exn)
| AddedSubscription (endpoint50 : string)
| RemovedSubscription (endpoint50 : string)
| SendError (endpoint50 : string) (statusCode : option Z)
| RemovingExpired (endpoint50 : string)
| SentNotifications (successCount size : nat).

(** The service object and what it leaves outside: the private map, the
    content of push-subscriptions.json, the number of times the file has
    been written or a write attempted, and the console. A write that throws
    is taken to leave the file as it was. *)
Record t : Type := mkService {
  ps_subscriptions : JsMap.t PushSubscription;
  ps_file : list PushSubscription;
  ps_writes : nat;
  ps_console : list PushLog
}.

(** [endpoint.substring(0, 50)] *)
Definition substring50 (s : string) : string := String.substring 0 50 s.

Section Service.

(** [writeFileSync] on the subscriptions file, by the number of earlier
    attempts: [None] when it returns, the error when it throws. *)
Variable writeFileSync : nat -> list PushSubscription -> option exn.

(** [webpush.sendNotification(subscription, payload)] *)
Variable webpush_sendNotification : PushSubscription -> string -> Outcome.

(** [loadSubscriptions()]; [content] is [None] when the file does not exist,
    else the outcome of reading and parsing it. *)
Definition loadSubscriptions (content : option (exn + list PushSubscription))
    (s : t) : t :=
  match content with
  | None => s
  | Some (inl e) =>
      mkService (ps_subscriptions s) (ps_file s) (ps_writes s)
        (ps_console s ++ [LoadError e])
  | Some (inr subscriptions) =>
      mkService
        (fold_left (fun m sub => JsMap.set (endpoint sub) sub m) subscriptions
           (ps_subscriptions s))
        (ps_file s) (ps_writes s)
        (ps_console s ++ [LoadedSubscriptions (length subscriptions)])
  end.

(** [saveSubscriptions()] *)
Definition saveSubscriptions (s : t) : t :=
  let subscriptions := JsMap.values (ps_subscriptions s) in
  match writeFileSync (ps_writes s) subscriptions with
  | None =>
      mkService (ps_subscriptions s) subscriptions (S (ps_writes s)) (ps_console s)
  | Some e =>
      mkService (ps_subscriptions s) (ps_file s) (S (ps_writes s))
        (ps_console s ++ [SaveError e])
  end.

Definition log (ev : PushLog) (s : t) : t :=
  mkService (ps_subscriptions s) (ps_file s) (ps_writes s) (ps_console s ++ [ev]).

(** [addSubscription(subscription)] *)
Definition addSubscription (subscription : PushSubscription) (s : t) : t :=
  let s1 :=
    mkService (JsMap.set (endpoint subscription) subscription (ps_subscriptions s))
      (ps_file s) (ps_writes s) (ps_console s) in
  log (AddedSubscription (substring50 (endpoint subscription))) (saveSubscriptions s1).

(** [removeSubscription(endpoint)] *)
Definition removeSubscription (endpoint : string) (s : t) : t :=
  let s1 :=
    mkService (JsMap.delete endpoint (ps_subscriptions s))
      (ps_file s) (ps_writes s) (ps_console s) in
  log (RemovedSubscription (substring50 endpoint)) (saveSubscriptions s1).

(** [getSubscriptionCount()] *)
Definition getSubscriptionCount (s : t) : nat := JsMap.size (ps_subscriptions s).

(** The callbacks [.then(...)] and [.catch(...)] of one send, run when its
    promise settles; the state is the counter [successCount] and the
    service. *)
Definition settle (payload : string) (acc : nat * t)
    (entry : string * PushSubscription) : nat * t :=
  let '(successCount, s) := acc in
  let '(endpoint, subscription) := entry in
  match webpush_sendNotification subscription payload with
  | Delivered => (S successCount, s)
  | Failed statusCode =>
      let s1 := log (SendError (substring50 endpoint) statusCode) s in
      if bool_decide (statusCode = Some 410) then
        let s2 := log (RemovingExpired (substring50 endpoint)) s1 in
        (successCount,
         mkService (JsMap.delete endpoint (ps_subscriptions s2))
           (ps_file s2) (ps_writes s2) (ps_console s2))
      else (successCount, s1)
  end.

(** [sendNotification(title, body, data)]; [payload] is the serialised
    notification and [settled] the entries of the map in the order in which
    their sends settle. *)
Definition sendNotification (payload : string)
    (settled : list (string * PushSubscription)) (s : t) : nat * t :=
  let '(successCount, s1) := fold_left (settle payload) settled (0%nat, s) in
  let s2 :=
    if negb (JsMap.size (ps_subscriptions s1)
             =? length (JsMap.values (ps_subscriptions s1)))%nat
    then saveSubscriptions s1
    else s1 in
  (successCount,
   log (SentNotifications successCount (JsMap.size (ps_subscriptions s2))) s2).

End Service.

(** The map holds each subscription under its endpoint, once. *)
Definition keyed_by_endpoint (m : JsMap.t PushSubscription) : Prop :=
  List.NoDup (map fst m) /\ forall k sub, In (k, sub) m -> k = endpoint sub.

(** The send to this entry is rejected with status 410. *)
Definition expired (deliver : PushSubscription -> string -> Outcome)
    (payload : string) (entry : string * PushSubscription) : bool :=
  match deliver (snd entry) payload with
  | Failed statusCode => bool_decide (statusCode = Some 410)
  | Delivered => false
  end.

(** Among the sends [settled], one to the key [k] is rejected with
    status 410. *)
Definition removedBy (deliver : PushSubscription -> string -> Outcome)
    (payload : string) (settled : list (string * PushSubscription)) (k : string)
  : bool :=
  existsb (fun e => expired deliver payload e && String.eqb (fst e) k) settled.

Definition delivered (deliver : PushSubscription -> string -> Outcome)
    (payload : string) (entry : string * PushSubscription) : bool :=
  match deliver (snd entry) payload with
  | Delivered => true
  | Failed _ => false
  end.

End WebPushService.

(** Three subscribers; the push service accepts the notification for the
    first, answers 410 for the second and 500 for the third. *)
Definition alice : WebPushService.PushSubscription :=
  WebPushService.mkSubscription "https://push.example/alice" "pk-a" "auth-a".
Definition bob : WebPushService.PushSubscription :=
  WebPushService.mkSubscription "https://push.example/bob" "pk-b" "auth-b".
Definition carol : WebPushService.PushSubscription :=
  WebPushService.mkSubscription "https://push.example/carol" "pk-c" "auth-c".

Definition pushGateway (sub : WebPushService.PushSubscription) (payload : string)
  : WebPushService.Outcome :=
  if String.eqb (WebPushService.endpoint sub) "https://push.example/alice"
  then WebPushService.Delivered
  else if String.eqb (WebPushService.endpoint sub) "https://push.example/bob"
  then WebPushService.Failed (Some 410)
  else WebPushService.Failed (Some 500).

Definition diskAlwaysWritable (n : nat) (content : list WebPushService.PushSubscription)
  : option exn := None.

Definition subscribers : WebPushService.t :=
  WebPushService.mkService
    [(WebPushService.endpoint alice, alice); (WebPushService.endpoint bob, bob);
     (WebPushService.endpoint carol, carol)]
    [alice; bob; carol] 3 [].

(** * The alert store (MemStorage, server/storage.ts) *)

(** [a.sort(compare)]: the sort is stable, and [x] goes before [y] when
    [compare(x, y) <= 0]; on a consistent comparator this fixes the
    result. *)
Fixpoint js_sort_insert {A : Type} (compare : A -> A -> Z) (x : A) (l : list A)
  : list A :=
  match l with
  | [] => [x]
  | y :: rest =>
      if compare x y <=? 0 then x :: y :: rest
      else y :: js_sort_insert compare x rest
  end.

Definition js_sort {A : Type} (compare : A -> A -> Z) (l : list A) : list A :=
  fold_right (js_sort_insert compare) [] l.

Module MemStorage.

(** An [Alert] as stored: the fields given to [addAlert], an [id] and a
    [timestamp]; the timestamp is kept as the milliseconds
    [new Date(timestamp).getTime()] reads back from it. *)
Record StoredAlert : Type := mkStoredAlert {
  sa_id : string;
  sa_timestamp : Z;
  sa_fields : Alert
}.

Inductive StorageLog : Type :=
| SavingAlertsError (e : exn).

(** The store and what it leaves outside: the private map of alerts, the
    content of alerts.json, the number of writes attempted, the number of
    alerts created, and the console. A write that throws is taken to leave
    the file as it was. *)
Record t : Type := mkStorage {
  ms_alerts : JsMap.t StoredAlert;
  ms_alertsFile : list StoredAlert;
  ms_writes : nat;
  ms_created : nat;
  ms_console : list StorageLog
}.

Section Storage.

(** [randomUUID()] and [new Date()] for the n-th alert created, and
    [writeFileSync] on the alerts file by the number of earlier attempts. *)
Variable randomUUID : nat -> string.
Variable now : nat -> Z.
Variable writeFileSync : nat -> list StoredAlert -> option exn.

(** [saveAlerts()] (lines 56-63) *)
Definition saveAlerts (s : t) : t :=
  let alerts := JsMap.values (ms_alerts s) in
  match writeFileSync (ms_writes s) alerts with
  | None =>
      mkStorage (ms_alerts s) alerts (S (ms_writes s)) (ms_created s) (ms_console s)
  | Some e =>
      mkStorage (ms_alerts s) (ms_alertsFile s) (S (ms_writes s)) (ms_created s)
        (ms_console s ++ [SavingAlertsError e])
  end.

(** [getAlerts()] (lines 124-128) *)
Definition getAlerts (s : t) : list StoredAlert :=
  js_sort (fun a b => sa_timestamp b - sa_timestamp a) (JsMap.values (ms_alerts s)).

(** [addAlert(alert)] (lines 130-139) *)
Definition addAlert (alert : Alert) (s : t) : StoredAlert * t :=
  let newAlert :=
    mkStoredAlert (randomUUID (ms_created s)) (now (ms_created s)) alert in
  let s1 :=
    mkStorage (JsMap.set (sa_id newAlert) newAlert (ms_alerts s))
      (ms_alertsFile s) (ms_writes s) (S (ms_created s)) (ms_console s) in
  (newAlert, saveAlerts s1).

(** [removeAlert(id)] (lines 141-144) *)
Definition removeAlert (id : string) (s : t) : t :=
  saveAlerts
    (mkStorage (JsMap.delete id (ms_alerts s))
       (ms_alertsFile s) (ms_writes s) (ms_created s) (ms_console s)).

End Storage.

(** From the newest to the oldest. *)
Fixpoint newest_first (l : list StoredAlert) : Prop :=
  match l with
  | [] => True
  | a :: rest =>
      (forall b, In b rest -> sa_timestamp b <= sa_timestamp a) /\ newest_first rest
  end.

End MemStorage.

(** Two alerts stored on 3 July 2024, at 06:00 and at 18:00. *)
Definition morningAlert : MemStorage.StoredAlert :=
  MemStorage.mkStoredAlert "a-1" 1719986400000
    (mkAlert heat high ["Riverside"%string] "heat"%string).

Definition eveningAlert : MemStorage.StoredAlert :=
  MemStorage.mkStoredAlert "a-2" 1720029600000
    (mkAlert air_quality high ["Oldtown"%string] "air"%string).

Definition alertStore : MemStorage.t :=
  MemStorage.mkStorage [("a-1"%string, morningAlert); ("a-2"%string, eveningAlert)]
    [morningAlert; eveningAlert] 2 2 [].

(** * The demographics client (demographicsService.ts) *)

Module DemographicsService.

Inductive DemographicsLog : Type :=
| RequestFailed (status : Z)
| ErrorFetching (e : exn).

(** [for (const entry of data) if (entry && entry.value != null) return
    Number(entry.value)], and [return null] after the loop. An entry is
    [None] when it is [null], and its value is [None] when it is [null] or
    missing; values are numbers. *)
Fixpoint firstValue (data : list (option (option Q))) : option Q :=
  match data with
  | [] => None
  | Some (Some value) :: _ => Some value
  | _ :: rest => firstValue rest
  end.

(** [getElderlyPercent(countryCode, year)] (lines 12-39), from the reply to
    its request; the body is [None] when [json?.[1]] is [null] or missing, and
    a body that cannot be iterated is an unreadable one. The result is the
    returned value, [None] for [null], and what is put on the console. *)
Definition getElderlyPercent (reply : HttpReply (option (list (option (option Q)))))
  : option Q * list DemographicsLog :=
  match reply with
  | Rejected e => (None, [ErrorFetching e])
  | Response status body =>
      if negb (response_ok status) then (None, [RequestFailed status])
      else
        match body with
        | inl e => (None, [ErrorFetching e])
        | inr json =>
            let data := match json with Some data => data | None => [] end in
            (firstValue data, [])
        end
  end.

End DemographicsService.

(** * The push client (urlBase64ToUint8Array)

    Texts are taken to hold one-byte characters, as encoded keys do. *)

Module PushClient.

(** [s.replace(/c/g, d)] for a single character [c] *)
Fixpoint replaceAll (c d : ascii) (s : string) : string :=
  match s with
  | EmptyString => EmptyString
  | String x rest =>
      String (if Ascii.eqb x c then d else x) (replaceAll c d rest)
  end.

(** ['='.repeat(n)] *)
Fixpoint repeatEquals (n : nat) : string :=
  match n with
  | O => EmptyString
  | S n' => String "="%char (repeatEquals n')
  end.

(** The constants [padding] and [base64] of [urlBase64ToUint8Array]. *)
Definition padding (base64String : string) : string :=
  repeatEquals ((4 - String.length base64String mod 4) mod 4).

Definition base64 (base64String : string) : string :=
  replaceAll "_"%char "/"%char
    (replaceAll "-"%char "+"%char (base64String ++ padding base64String)%string).

(** [rawData.charCodeAt(i)] for every [i] *)
Fixpoint charCodes (rawData : string) : list nat :=
  match rawData with
  | EmptyString => []
  | String x rest => nat_of_ascii x :: charCodes rest
  end.

(** [urlBase64ToUint8Array(base64String)]; [atob] is [window.atob], which
    returns the decoded text or throws. *)
Definition urlBase64ToUint8Array (atob : string -> exn + string)
    (base64String : string) : exn + list nat :=
  match atob (base64 base64String) with
  | inl e => inl e
  | inr rawData => inr (charCodes rawData)
  end.

(** No character of [s] is [c]. *)
Fixpoint without (c : ascii) (s : string) : Prop :=
  match s with
  | EmptyString => True
  | String x rest => x <> c /\ without c rest
  end.

End PushClient.

(** * The console of a run *)

(** A computation that only adds to the console, and only events that
    satisfy [P]. *)
Definition logs {A : Type} (P : LogEvent -> Prop) (m : M A) : Prop :=
  forall w : World,
    exists l : list LogEvent,
      w_console (snd (m w)) = w_console w ++ l /\ Forall P l.

(** The events of the two services, as against those of the scheduler and
    of the storage. *)
Definition serviceEvent (ev : LogEvent) : Prop :=
  match ev with
  | SchedulerRunning | SchedulerRegion _ _ | SchedulerErrorProcessing _ _
  | SchedulerCreatedAlert _ _ | SchedulerCompleted | SchedulerError _
  | StorageErrorLoadingNeighborhoods _ | StorageErrorSavingAlerts _ => False
  | _ => True
  end.

(** The lines [[Scheduler] <name>: HSI=...] and
    [[Scheduler] Error processing <name>:]. *)
Definition isRegionLine (ev : LogEvent) : bool :=
  match ev with
  | SchedulerRegion _ _ | SchedulerErrorProcessing _ _ => true
  | _ => false
  end.

(** The line a region's outcome puts on the console. *)
Definition regionLine (o : string * (exn + RiskData)) : LogEvent :=
  match o with
  | (name, inr riskData) => SchedulerRegion name riskData
  | (name, inl e) => SchedulerErrorProcessing name e
  end.

(** The lines [[Scheduler] Created ... alert for ...]. *)
Definition isCreatedLine (ev : LogEvent) : bool :=
  match ev with
  | SchedulerCreatedAlert _ _ => true
  | _ => false
  end.

(** The line the scheduler prints after it has stored an alert. *)
Definition createdLine (a : Alert) : LogEvent :=
  SchedulerCreatedAlert (type a) (neighborhoods a).

(** The lines of the alert blocks: those of the scheduler, and the reports
    of the storage when the alerts file cannot be written. *)
Definition alertEvent (ev : LogEvent) : Prop :=
  match ev with
  | SchedulerCreatedAlert _ _ | StorageErrorSavingAlerts _ => True
  | _ => False
  end.

(** * Properties *)

(** ** The cache *)

Lemma WeatherCache_get_fresh {T : Type} (c : WeatherCache.t T) (k : string)
    (e : WeatherCache.CacheEntry T) (now : Z) :
  WeatherCache.cache c !! k = Some e ->
  now - WeatherCache.timestamp e <= WeatherCache.ttl c ->
  WeatherCache.get now k c = (Some (WeatherCache.data e), c).
Proof.
  intros Hk Hage. unfold WeatherCache.get. rewrite Hk.
  destruct (Z.gtb_spec (now - WeatherCache.timestamp e) (WeatherCache.ttl c)) as [Hgt|_].
  - lia.
  - reflexivity.
Qed.

Lemma WeatherCache_get_stale {T : Type} (c : WeatherCache.t T) (k : string)
    (e : WeatherCache.CacheEntry T) (now : Z) :
  WeatherCache.cache c !! k = Some e ->
  now - WeatherCache.timestamp e > WeatherCache.ttl c ->
  WeatherCache.get now k c
  = (None, WeatherCache.mkCache (delete k (WeatherCache.cache c)) (WeatherCache.ttl c)).
Proof.
  intros Hk Hage. unfold WeatherCache.get. rewrite Hk.
  destruct (Z.gtb_spec (now - WeatherCache.timestamp e) (WeatherCache.ttl c)) as [_|Hle].
  - reflexivity.
  - lia.
Qed.

Lemma WeatherCache_get_absent {T : Type} (c : WeatherCache.t T) (k : string) (now : Z) :
  WeatherCache.cache c !! k = None ->
  WeatherCache.get now k c = (None, c).
Proof. intros Hk. unfold WeatherCache.get. now rewrite Hk. Qed.

Lemma WeatherCache_lookup_set {T : Type} (c : WeatherCache.t T) (k : string)
    (v : T) (now : Z) :
  WeatherCache.cache (WeatherCache.set now k v c) !! k = Some (WeatherCache.mkEntry v now).
Proof. unfold WeatherCache.set. simpl. apply lookup_insert_eq. Qed.

(** C6. [set(k, v)] followed by a [get(k)] no more than the time-to-live
    later returns [v] and leaves the cache as it is; a [get(k)] that finds an
    entry older than the time-to-live returns [null] and deletes the entry,
    after which every [get(k)] returns [null] until a [set(k, _)] stores a
    new entry; [set] replaces whatever entry the key had, and leaves other
    keys alone; the time-to-live of the shared cache is 15 minutes and no
    operation changes it. *)
Theorem WeatherCache_set_get_expiry {T : Type} (c : WeatherCache.t T)
    (k : string) (v : T) (now later : Z) :
  (later - now <= WeatherCache.ttl c ->
   WeatherCache.get later k (WeatherCache.set now k v c)
   = (Some v, WeatherCache.set now k v c))
  /\ (forall e : WeatherCache.CacheEntry T,
        WeatherCache.cache c !! k = Some e ->
        later - WeatherCache.timestamp e > WeatherCache.ttl c ->
        let c' := snd (WeatherCache.get later k c) in
        fst (WeatherCache.get later k c) = None
        /\ WeatherCache.cache c' = delete k (WeatherCache.cache c)
        /\ (forall t : Z, WeatherCache.get t k c' = (None, c'))
        /\ (forall (v' : T) (t t' : Z),
              t' - t <= WeatherCache.ttl c ->
              fst (WeatherCache.get t' k (WeatherCache.set t k v' c')) = Some v'))
  /\ (later - now > WeatherCache.ttl c ->
      WeatherCache.get later k (WeatherCache.set now k v c)
      = (None, WeatherCache.mkCache (delete k (WeatherCache.cache c)) (WeatherCache.ttl c)))
  /\ WeatherCache.cache (WeatherCache.set now k v c) !! k
     = Some (WeatherCache.mkEntry v now)
  /\ (forall (v0 : T) (t0 : Z),
        WeatherCache.set now k v (WeatherCache.set t0 k v0 c) = WeatherCache.set now k v c)
  /\ (forall k' : string,
        k' <> k ->
        WeatherCache.cache (WeatherCache.set now k v c) !! k' = WeatherCache.cache c !! k')
  /\ WeatherCache.ttl (@weatherCache T) = 15 * 60 * 1000
  /\ WeatherCache.ttl (WeatherCache.set now k v c) = WeatherCache.ttl c
  /\ WeatherCache.ttl (snd (WeatherCache.get later k c)) = WeatherCache.ttl c.
Proof.
  repeat split.
  - intros Hage.
    apply (WeatherCache_get_fresh _ k (WeatherCache.mkEntry v now)).
    + apply WeatherCache_lookup_set.
    + exact Hage.
  - now rewrite (WeatherCache_get_stale c k e later).
  - now rewrite (WeatherCache_get_stale c k e later).
  - intros t. rewrite (WeatherCache_get_stale c k e later) by assumption.
    apply WeatherCache_get_absent. simpl. apply lookup_delete_eq.
  - intros v' t t' Hage.
    rewrite (WeatherCache_get_fresh _ k (WeatherCache.mkEntry v' t)).
    + reflexivity.
    + apply WeatherCache_lookup_set.
    + rewrite (WeatherCache_get_stale c k e later) by assumption. exact Hage.
  - intros Hage.
    rewrite (WeatherCache_get_stale _ k (WeatherCache.mkEntry v now) later).
    + unfold WeatherCache.set. simpl. now rewrite delete_insert_eq.
    + apply WeatherCache_lookup_set.
    + exact Hage.
  - apply WeatherCache_lookup_set.
  - intros v0 t0. unfold WeatherCache.set. simpl. now rewrite insert_insert_eq.
  - intros k' Hne. unfold WeatherCache.set. simpl. now apply lookup_insert_ne.
  - unfold WeatherCache.get.
    destruct (WeatherCache.cache c !! k) as [e|]; [|reflexivity].
    now destruct (later - WeatherCache.timestamp e >? WeatherCache.ttl c).
Qed.

(** A weather snapshot stored at second 1 is still served 900 seconds later
    and is gone one millisecond after that. *)
Lemma WeatherCache_set_get_expiry_witness :
  WeatherCache.get 901000 "weather_43.7_-79.4_7"
    (WeatherCache.set 1000 "weather_43.7_-79.4_7" 21 weatherCache)
  = (Some 21, WeatherCache.set 1000 "weather_43.7_-79.4_7" 21 weatherCache)
  /\ fst (WeatherCache.get 901001 "weather_43.7_-79.4_7"
            (WeatherCache.set 1000 "weather_43.7_-79.4_7" 21 weatherCache))
     = None.
Proof.
  split.
  - apply (WeatherCache_set_get_expiry weatherCache "weather_43.7_-79.4_7" 21 1000 901000).
    vm_compute. discriminate.
  - apply (WeatherCache_set_get_expiry
             (WeatherCache.set 1000 "weather_43.7_-79.4_7" 21 weatherCache)
             "weather_43.7_-79.4_7" 21 1000 901001)
      with (e := WeatherCache.mkEntry 21 1000).
    + vm_compute. reflexivity.
    + vm_compute. reflexivity.
Defined.

(** ** The anomaly estimator *)

Lemma Rsum_repeat (x : R) (n : nat) : Rsum (repeat x n) = (INR n * x)%R.
Proof.
  induction n as [|n IH].
  - simpl. lra.
  - rewrite S_INR. simpl. rewrite IH. lra.
Qed.

Lemma population_mean_repeat (x : R) (n : nat) :
  (0 < n)%nat -> population_mean (repeat x n) = x.
Proof.
  intros Hn. unfold population_mean. rewrite Rsum_repeat, repeat_length.
  field. apply not_0_INR. lia.
Qed.

(** Over exact numbers the population standard deviation of identical
    values is 0. *)
Lemma population_stddev_repeat (x : R) (n : nat) :
  (0 < n)%nat -> population_stddev (repeat x n) = 0%R.
Proof.
  intros Hn. unfold population_stddev, population_variance.
  rewrite population_mean_repeat by assumption.
  assert (Hdev : Rsum (map (fun y => ((y - x) ^ 2)%R) (repeat x n)) = 0%R).
  { clear Hn. induction n as [|n IH].
    - reflexivity.
    - cbn [repeat map Rsum]. rewrite IH. ring. }
  rewrite Hdev. unfold Rdiv. rewrite Rmult_0_l. apply sqrt_0.
Qed.

Lemma calculateTemperatureAnomaly_short (t : float) (h : list float) :
  (length h < 3)%nat -> calculateTemperatureAnomaly t h = 0%float.
Proof.
  intros Hlen. unfold calculateTemperatureAnomaly.
  destruct (Nat.ltb_spec (length h) 3); [reflexivity|lia].
Qed.

#[local] Set Warnings "-inexact-float".

(** C2. [calculateTemperatureAnomaly(t, h)] returns 0 when [h] has fewer
    than 3 values, and 0 for [t = 25] and the history [20, 20, 20], where the
    guard [stdDev === 0] fires. The guard does not catch every history of
    identical values, whose population standard deviation is 0: for the
    history [0.7, 0.7, 0.7] the sum is rounded, the mean the code computes
    is not 0.7, the standard deviation it computes is not 0, and for
    [t = 25] it returns a number between 2e17 and 2.2e17 instead of 0. *)
Theorem calculateTemperatureAnomaly_identical_history :
  (forall (t : float) (h : list float),
     (length h < 3)%nat -> calculateTemperatureAnomaly t h = 0%float)
  /\ calculateTemperatureAnomaly 25 [20; 20; 20]%float = 0%float
  /\ (forall x : R, population_stddev [x; x; x] = 0%R)
  /\ PrimFloat.eqb (calculateTemperatureAnomaly 25 [0.7; 0.7; 0.7]%float) 0 = false
  /\ PrimFloat.ltb 2e17 (calculateTemperatureAnomaly 25 [0.7; 0.7; 0.7]%float) = true
  /\ PrimFloat.ltb (calculateTemperatureAnomaly 25 [0.7; 0.7; 0.7]%float) 2.2e17 = true.
Proof.
  split; [exact calculateTemperatureAnomaly_short|].
  split; [reflexivity|].
  split; [intros x; apply (population_stddev_repeat x 3); lia|].
  split; [reflexivity|]. split; reflexivity.
Qed.

(** ** Defaults of [processWeatherForRisk] *)

Lemma js_or_falsy (x : option jsnum) (d : Q) : falsy x -> js_or x d = d.
Proof.
  intros [-> | [-> | [-> | (q & -> & Hq)]]]; try reflexivity.
  simpl. apply Qeq_bool_iff in Hq. now rewrite Hq.
Qed.

Lemma js_or_truthy (q d : Q) : ~ q == 0 -> js_or (Some (JNum q)) d = q.
Proof.
  intros Hq. simpl. destruct (Qeq_bool q 0) eqn:E; [|reflexivity].
  apply Qeq_bool_iff in E. contradiction.
Qed.

(** C10. With both sections present [processWeatherForRisk] returns, and
    each of its six inputs is replaced by its default (25, 15, 5, 50, 10, 0)
    when the cell read is [undefined], [null], [NaN] or the number 0, and is
    kept when it is a number other than 0; the wind chill is computed from
    the minimum temperature after defaulting, so a minimum of exactly 0 gives
    [15 - windSpeed * 0.5]. *)
Theorem processWeatherForRisk_defaults_on_zero (data : OpenMeteoResponse)
    (d : Daily) (h : Hourly) (dayIndex : Z) :
  daily data = Some d ->
  hourly data = Some h ->
  let hourIndex := Z.min (dayIndex * 24) (Z.of_nat (length (hourly_time h)) - 1) in
  exists w : WeatherData,
    processWeatherForRisk data dayIndex = inr w
    /\ (falsy (js_index (temperature_2m_max d) dayIndex) -> temperature w = 25%Q)
    /\ (falsy (js_index (uv_index_max d) dayIndex) -> uvIndex w = 5%Q)
    /\ (falsy (js_index (relative_humidity_2m h) hourIndex) -> humidity w = 50%Q)
    /\ (falsy (js_index (wind_speed_10m h) hourIndex) -> windSpeed w = 10%Q)
    /\ (falsy (js_index (precipitation_sum d) dayIndex) -> precipitation w = 0%Q)
    /\ (falsy (js_index (temperature_2m_min d) dayIndex) ->
        windChill w = (15 - windSpeed w * (1 # 2))%Q)
    /\ (forall q, js_index (temperature_2m_max d) dayIndex = Some (JNum q) ->
                  ~ q == 0 -> temperature w = q)
    /\ (forall q, js_index (uv_index_max d) dayIndex = Some (JNum q) ->
                  ~ q == 0 -> uvIndex w = q)
    /\ (forall q, js_index (relative_humidity_2m h) hourIndex = Some (JNum q) ->
                  ~ q == 0 -> humidity w = q)
    /\ (forall q, js_index (wind_speed_10m h) hourIndex = Some (JNum q) ->
                  ~ q == 0 -> windSpeed w = q)
    /\ (forall q, js_index (precipitation_sum d) dayIndex = Some (JNum q) ->
                  ~ q == 0 -> precipitation w = q)
    /\ (forall q, js_index (temperature_2m_min d) dayIndex = Some (JNum q) ->
                  ~ q == 0 -> windChill w = (q - windSpeed w * (1 # 2))%Q).
Proof.
  intros Hd Hh hourIndex. unfold processWeatherForRisk. rewrite Hd, Hh.
  eexists. split; [reflexivity|]. simpl. fold hourIndex.
  repeat split;
    first [ intros Hf; now rewrite (js_or_falsy _ _ Hf)
          | intros q Hq Hnz; rewrite Hq; now rewrite (js_or_truthy _ _ Hnz) ].
Qed.

Lemma falsy_zero : falsy (Some (JNum 0)).
Proof. right. right. right. exists 0%Q. split; reflexivity. Qed.

(** On [freezingDay] the humidity read is 0 and becomes 50; the minimum read
    is 0, and the wind chill is computed from 15. *)
Lemma processWeatherForRisk_defaults_on_zero_witness :
  exists w : WeatherData,
    processWeatherForRisk freezingDay 0 = inr w
    /\ humidity w = 50%Q
    /\ windSpeed w = 20%Q
    /\ windChill w = (15 - 20 * (1 # 2))%Q
    /\ temperature w = (7 # 2)%Q.
Proof.
  destruct (processWeatherForRisk_defaults_on_zero freezingDay
              (mkDaily ["2024-01-15"%string] [JNum (7 # 2)] [JNum 0] [JNum 1] [JNum 0])
              (mkHourly ["2024-01-15T00:00"%string] [JNum 1] [JNum 0] [JNum 20] [JNum 0])
              0 eq_refl eq_refl)
    as (w & Hw & _ & _ & Hhum & _ & _ & Hchill & Htemp & _ & _ & Hwind & _).
  exists w.
  assert (Hws : windSpeed w = 20%Q).
  { apply Hwind; [reflexivity|]. intros H. discriminate H. }
  split; [exact Hw|]. split; [apply Hhum, falsy_zero|]. split; [exact Hws|].
  split.
  - rewrite <- Hws. apply Hchill, falsy_zero.
  - apply Htemp; [reflexivity|]. intros H. discriminate H.
Defined.

(** ** The weather client *)

Ltac run :=
  unfold bind, try_catch, ret, throw, lift, console, reading, cache_set;
  cbn [fst snd w_cache w_reads w_console w_alerts negb].

(** What the secondary provider does when its request fails. *)
Lemma fetchWeatherDataFromNASA_fails (env : Env) (lat lon : R) (days : nat)
    (w : World) (e : exn) :
  let today := clock env (w_reads w) in
  secondaryFailure
    (nasaPower env (S (w_reads w)) lat lon
       (formatYMD env today 0) (formatYMD env today (Nat.max 0 (days - 1))))
  = Some e ->
  fetchWeatherDataFromNASA env lat lon days w
  = (inl e, mkWorld (w_cache w) (S (S (w_reads w))) (w_console w) (w_alerts w)).
Proof.
  intros today. unfold fetchWeatherDataFromNASA, secondaryFailure. run. fold today.
  destruct (nasaPower env _ lat lon _ _) as [e0|status body]; simpl.
  - intros [= ->]. reflexivity.
  - destruct (response_ok status); simpl.
    + destruct body as [e0|json]; simpl; intros [= <-]. reflexivity.
    + intros [= <-]. reflexivity.
Qed.

(** What the secondary provider does when its request succeeds. *)
Lemma fetchWeatherDataFromNASA_succeeds (env : Env) (lat lon : R) (days : nat)
    (w : World) (status : Z) (json : NasaJson) :
  let today := clock env (w_reads w) in
  nasaPower env (S (w_reads w)) lat lon
    (formatYMD env today 0) (formatYMD env today (Nat.max 0 (days - 1)))
  = Response status (inr json) ->
  response_ok status = true ->
  fetchWeatherDataFromNASA env lat lon days w
  = (inr (nasaMapped env lat lon json today days),
     mkWorld (w_cache w) (S (S (w_reads w))) (w_console w) (w_alerts w)).
Proof.
  intros today Hreply Hok. unfold fetchWeatherDataFromNASA. run. fold today.
  rewrite Hreply. simpl. rewrite Hok. reflexivity.
Qed.

Lemma fetchWeatherData_both_fail (env : Env) (lat lon : R) (days : nat)
    (w w1 : World) (e e' : exn) :
  cache_get env (weatherCacheKey env lat lon days) w = (inr None, w1) ->
  let n := w_reads w1 in
  let today := clock env (S n) in
  primaryFailure (openMeteo env n lat lon days) = Some e ->
  secondaryFailure
    (nasaPower env (S (S n)) lat lon
       (formatYMD env today 0) (formatYMD env today (Nat.max 0 (days - 1))))
  = Some e' ->
  fetchWeatherData env lat lon days w
  = (inl e,
     mkWorld (w_cache w1) (S (S (S n)))
       (w_console w1 ++ [WeatherApiFetching lat lon days; WeatherApiError e;
                         WeatherApiFallingBack; WeatherApiNasaFailed e'])
       (w_alerts w1)).
Proof.
  intros Hmiss n today Hprimary Hsecondary.
  unfold fetchWeatherData. unfold bind at 1. rewrite Hmiss. run. fold n.
  assert (Hnasa : forall l,
    fetchWeatherDataFromNASA env lat lon days
      (mkWorld (w_cache w1) (S n) l (w_alerts w1))
    = (inl e', mkWorld (w_cache w1) (S (S (S n))) l (w_alerts w1))).
  { intros l. now apply fetchWeatherDataFromNASA_fails. }
  unfold primaryFailure in Hprimary.
  destruct (openMeteo env n lat lon days) as [e0|status body].
  - injection Hprimary as ->. cbn [w_cache w_reads w_console w_alerts].
    rewrite Hnasa. cbn [w_cache w_reads w_console w_alerts].
    now rewrite <- !app_assoc.
  - destruct (response_ok status); cbn [negb].
    + destruct body as [e0|data]; [|discriminate].
      injection Hprimary as ->. cbn [w_cache w_reads w_console w_alerts].
      rewrite Hnasa. cbn [w_cache w_reads w_console w_alerts].
      now rewrite <- !app_assoc.
    + injection Hprimary as <-. cbn [w_cache w_reads w_console w_alerts].
      rewrite Hnasa. cbn [w_cache w_reads w_console w_alerts].
      now rewrite <- !app_assoc.
Qed.

(** C3. When the cache has nothing for the key, the request to the primary
    provider fails with [e] (rejected, status outside 200-299, or unreadable
    body) and the request to the secondary provider fails too, with whatever
    error [e'], [fetchWeatherData] throws [e]; nothing is stored in the cache
    and both errors are on the console. *)
Theorem fetchWeatherData_rethrows_primary_error (env : Env) (lat lon : R)
    (days : nat) (w w1 : World) (e e' : exn) :
  cache_get env (weatherCacheKey env lat lon days) w = (inr None, w1) ->
  let n := w_reads w1 in
  let today := clock env (S n) in
  primaryFailure (openMeteo env n lat lon days) = Some e ->
  secondaryFailure
    (nasaPower env (S (S n)) lat lon
       (formatYMD env today 0) (formatYMD env today (Nat.max 0 (days - 1))))
  = Some e' ->
  let out := fetchWeatherData env lat lon days w in
  fst out = inl e
  /\ w_cache (snd out) = w_cache w1
  /\ w_console (snd out)
     = w_console w1 ++ [WeatherApiFetching lat lon days; WeatherApiError e;
                        WeatherApiFallingBack; WeatherApiNasaFailed e'].
Proof.
  intros Hmiss n today Hprimary Hsecondary out. subst out.
  rewrite (fetchWeatherData_both_fail env lat lon days w w1 e e' Hmiss Hprimary Hsecondary).
  repeat split.
Qed.

(** During [outage] the caller sees the 500 of the primary provider, not the
    503 of the secondary one. *)
Lemma fetchWeatherData_rethrows_primary_error_witness :
  fst (fetchWeatherData outage (437 / 10) (- 794 / 10) 7 startup)
  = inl (OpenMeteoApiError 500)
  /\ OpenMeteoApiError 500 <> NasaPowerApiError 503.
Proof.
  split; [|discriminate].
  apply (fetchWeatherData_rethrows_primary_error outage (437 / 10) (- 794 / 10) 7
           startup startup (OpenMeteoApiError 500) (NasaPowerApiError 503));
    reflexivity.
Defined.

(** ** The snapshot built from the secondary provider *)

Lemma Qfloor_half_bounds (y : Q) :
  (y - (1 # 2) <= inject_Z (Qfloor (y + (1 # 2))) <= y + (1 # 2))%Q.
Proof.
  split.
  - pose proof (Qlt_floor (y + (1 # 2))) as H.
    rewrite inject_Z_plus in H. change (inject_Z 1) with 1%Q in H. lra.
  - apply Qfloor_le.
Qed.

Lemma Math_round_one_decimal (x : Q) :
  rounded_to_decimals 1 x (Math_round (x * 10) / 10).
Proof.
  unfold rounded_to_decimals, Math_round.
  change (inject_Z (10 ^ Z.of_nat 1)) with 10%Q.
  unfold Qdiv. change (/ 10)%Q with (1 # 10)%Q.
  pose proof (Qfloor_half_bounds (x * 10)) as [Hlo Hhi].
  split; [|split].
  - eexists. reflexivity.
  - lra.
  - lra.
Qed.

Lemma Number_toFixed_three_decimals (x : Q) :
  rounded_to_decimals 3 x (Number_toFixed x 3).
Proof.
  unfold rounded_to_decimals, Number_toFixed.
  change (inject_Z (10 ^ Z.of_nat 3)) with 1000%Q.
  unfold Qdiv. change (/ 1000)%Q with (1 # 1000)%Q.
  destruct (Qlt_le_dec x 0) as [Hneg|Hpos].
  - pose proof (Qfloor_half_bounds (- x * 1000)) as [Hlo Hhi].
    split; [|split].
    + exists (- Qfloor (- x * 1000 + (1 # 2)))%Z.
      rewrite inject_Z_opp. ring.
    + lra.
    + lra.
  - pose proof (Qfloor_half_bounds (x * 1000)) as [Hlo Hhi].
    split; [|split].
    + eexists. reflexivity.
    + lra.
    + lra.
Qed.

Lemma nth_error_map_seq {A : Type} (f : nat -> A) (len i : nat) :
  (i < len)%nat -> nth_error (map f (seq 0 len)) i = Some (f i).
Proof.
  intros Hi. rewrite nth_error_map, nth_error_seq.
  destruct (Nat.ltb_spec i len); [reflexivity|lia].
Qed.

Lemma length_hour_rows {A : Type} (f : nat -> nat -> A) (s days : nat) :
  length (flat_map (fun day => map (f day) (seq 0 24)) (seq s days)) = (days * 24)%nat.
Proof.
  rewrite flat_map_constant_length with (c := 24%nat).
  - now rewrite length_seq.
  - intros day _. now rewrite length_map, length_seq.
Qed.

Lemma nth_error_hour_rows {A : Type} (f : nat -> nat -> A) (days : nat) :
  forall s day hr : nat,
    (day < days)%nat -> (hr < 24)%nat ->
    nth_error (flat_map (fun d => map (f d) (seq 0 24)) (seq s days)) (day * 24 + hr)
    = Some (f (s + day)%nat hr).
Proof.
  induction days as [|days IH]; intros s day hr Hday Hhr; [lia|].
  change (seq s (S days)) with (s :: seq (S s) days). cbn [flat_map].
  destruct day as [|day].
  - rewrite nth_error_app1 by (rewrite length_map, length_seq; lia).
    rewrite Nat.add_0_r. now apply nth_error_map_seq.
  - rewrite nth_error_app2 by (rewrite length_map, length_seq; lia).
    rewrite length_map, length_seq.
    replace (S day * 24 + hr - 24)%nat with (day * 24 + hr)%nat by lia.
    rewrite IH by lia. f_equal. f_equal. lia.
Qed.

Lemma fetchWeatherData_fallback_succeeds (env : Env) (lat lon : R) (days : nat)
    (w w1 : World) (e : exn) (status : Z) (json : NasaJson) :
  cache_get env (weatherCacheKey env lat lon days) w = (inr None, w1) ->
  let n := w_reads w1 in
  let today := clock env (S n) in
  primaryFailure (openMeteo env n lat lon days) = Some e ->
  nasaPower env (S (S n)) lat lon
    (formatYMD env today 0) (formatYMD env today (Nat.max 0 (days - 1)))
  = Response status (inr json) ->
  response_ok status = true ->
  fst (fetchWeatherData env lat lon days w)
  = inr (nasaMapped env lat lon json today days).
Proof.
  intros Hmiss n today Hprimary Hreply Hok.
  unfold fetchWeatherData. unfold bind at 1. rewrite Hmiss. run. fold n.
  assert (Hnasa : forall l,
    fetchWeatherDataFromNASA env lat lon days
      (mkWorld (w_cache w1) (S n) l (w_alerts w1))
    = (inr (nasaMapped env lat lon json today days),
       mkWorld (w_cache w1) (S (S (S n))) l (w_alerts w1))).
  { intros l. now apply fetchWeatherDataFromNASA_succeeds with (status := status). }
  unfold primaryFailure in Hprimary.
  destruct (openMeteo env n lat lon days) as [e0|status0 body].
  - cbn [w_cache w_reads w_console w_alerts]. now rewrite Hnasa.
  - destruct (response_ok status0); cbn [negb].
    + destruct body as [e0|data]; [|discriminate].
      cbn [w_cache w_reads w_console w_alerts]. now rewrite Hnasa.
    + cbn [w_cache w_reads w_console w_alerts]. now rewrite Hnasa.
Qed.

(** The shape of the snapshot [fetchWeatherDataFromNASA] assembles. *)
Lemma nasaMapped_shape (env : Env) (lat lon : R) (json : NasaJson) (today : Z)
    (days : nat) :
  exists (h : Hourly) (d : Daily),
    hourly (nasaMapped env lat lon json today days) = Some h
    /\ daily (nasaMapped env lat lon json today days) = Some d
    /\ (length (daily_time d) = days
        /\ length (temperature_2m_max d) = days
        /\ length (temperature_2m_min d) = days
        /\ length (uv_index_max d) = days
        /\ length (precipitation_sum d) = days)
    /\ (length (hourly_time h) = (days * 24)%nat
        /\ length (temperature_2m h) = (days * 24)%nat
        /\ length (relative_humidity_2m h) = (days * 24)%nat
        /\ length (wind_speed_10m h) = (days * 24)%nat
        /\ length (hourly_precipitation h) = (days * 24)%nat)
    /\ forall day hr : nat,
         (day < days)%nat -> (hr < 24)%nat ->
         exists tmax tmin pr t p : Q,
           nth_error (temperature_2m_max d) day = Some (JNum tmax)
           /\ nth_error (temperature_2m_min d) day = Some (JNum tmin)
           /\ nth_error (precipitation_sum d) day = Some (JNum pr)
           /\ nth_error (temperature_2m h) (day * 24 + hr) = Some (JNum t)
           /\ rounded_to_decimals 1 ((tmax + tmin) / 2) t
           /\ nth_error (relative_humidity_2m h) (day * 24 + hr) = Some (JNum 50)
           /\ nth_error (wind_speed_10m h) (day * 24 + hr)
              = Some (JNum (default 0%Q
                              (nasaParam (nasaParameterObj json) "WS2M"
                                 (formatYMD env today day))))
           /\ nth_error (hourly_precipitation h) (day * 24 + hr) = Some (JNum p)
           /\ rounded_to_decimals 3 (pr / 24) p.
Proof.
  unfold nasaMapped. do 2 eexists.
  split; [reflexivity|]. split; [reflexivity|].
  cbn [daily_time temperature_2m_max temperature_2m_min uv_index_max
       precipitation_sum hourly_time temperature_2m relative_humidity_2m
       wind_speed_10m hourly_precipitation nasaHourlyLoop].
  split; [|split].
  - unfold nasaDailyLoop.
    cbn [nd_time nd_tmax nd_tmin nd_uv nd_pr].
    now rewrite !length_map, length_seq.
  - now rewrite !length_map, !length_hour_rows.
  - intros day hr Hday Hhr.
    set (p := nasaParameterObj json).
    set (d := nasaDailyLoop env p today days).
    assert (Hmax : nth_error (nd_tmax d) day
                   = Some (let '(_, x, _, _, _, _) := nasaDay env p today day in x)).
    { unfold d, nasaDailyLoop. cbn [nd_tmax].
      rewrite map_map.
      exact (nth_error_map_seq (fun i => let '(_, x, _, _, _, _) := nasaDay env p today i in x) days day Hday). }
    assert (Hmin : nth_error (nd_tmin d) day
                   = Some (let '(_, _, x, _, _, _) := nasaDay env p today day in x)).
    { unfold d, nasaDailyLoop. cbn [nd_tmin].
      rewrite map_map.
      exact (nth_error_map_seq (fun i => let '(_, _, x, _, _, _) := nasaDay env p today i in x) days day Hday). }
    assert (Hpr : nth_error (nd_pr d) day
                  = Some (let '(_, _, _, _, x, _) := nasaDay env p today day in x)).
    { unfold d, nasaDailyLoop. cbn [nd_pr].
      rewrite map_map.
      exact (nth_error_map_seq (fun i => let '(_, _, _, _, x, _) := nasaDay env p today i in x) days day Hday). }
    assert (Hws : nth_error (nd_wsDaily d) day
                  = Some (let '(_, _, _, _, _, x) := nasaDay env p today day in x)).
    { unfold d, nasaDailyLoop. cbn [nd_wsDaily].
      rewrite map_map.
      exact (nth_error_map_seq (fun i => let '(_, _, _, _, _, x) := nasaDay env p today i in x) days day Hday). }
    cbn beta iota in Hmax, Hmin, Hpr, Hws.
    unfold nasaDay in Hmax, Hmin, Hpr, Hws.
    do 5 eexists.
    rewrite !nth_error_map, Hmax, Hmin, Hpr.
    rewrite !(nth_error_hour_rows _ days 0 day hr Hday Hhr).
    cbn [Nat.add]. unfold nasaHourCell. rewrite Hmax, Hmin, Hpr, Hws.
    cbn [option_map].
    split; [reflexivity|]. split; [reflexivity|]. split; [reflexivity|].
    split; [reflexivity|]. split; [apply Math_round_one_decimal|].
    split; [reflexivity|]. split; [reflexivity|].
    split; [reflexivity|]. apply Number_toFixed_three_decimals.
Qed.

(** C4. When the cache has nothing for the key, the request to the primary
    provider fails and the secondary provider answers, the snapshot
    [fetchWeatherData] returns for [days] days has a daily and an hourly
    section; each daily array has [days] cells and each hourly array
    [days * 24]; for hour [hr] of day [day] the temperature is the mean of
    that day's maximum and minimum rounded to one decimal, the humidity is
    50, the wind speed is the day's [WS2M] value (0 when the provider has
    none) and the precipitation is the day's sum divided by 24 rounded to
    three decimals. *)
Theorem fetchWeatherData_fallback_snapshot (env : Env) (lat lon : R)
    (days : nat) (w w1 : World) (e : exn) (status : Z) (json : NasaJson) :
  cache_get env (weatherCacheKey env lat lon days) w = (inr None, w1) ->
  let n := w_reads w1 in
  let today := clock env (S n) in
  primaryFailure (openMeteo env n lat lon days) = Some e ->
  nasaPower env (S (S n)) lat lon
    (formatYMD env today 0) (formatYMD env today (Nat.max 0 (days - 1)))
  = Response status (inr json) ->
  response_ok status = true ->
  exists (snapshot : OpenMeteoResponse) (h : Hourly) (d : Daily),
    fst (fetchWeatherData env lat lon days w) = inr snapshot
    /\ hourly snapshot = Some h
    /\ daily snapshot = Some d
    /\ (length (daily_time d) = days
        /\ length (temperature_2m_max d) = days
        /\ length (temperature_2m_min d) = days
        /\ length (uv_index_max d) = days
        /\ length (precipitation_sum d) = days)
    /\ (length (hourly_time h) = (days * 24)%nat
        /\ length (temperature_2m h) = (days * 24)%nat
        /\ length (relative_humidity_2m h) = (days * 24)%nat
        /\ length (wind_speed_10m h) = (days * 24)%nat
        /\ length (hourly_precipitation h) = (days * 24)%nat)
    /\ forall day hr : nat,
         (day < days)%nat -> (hr < 24)%nat ->
         exists tmax tmin pr t p : Q,
           nth_error (temperature_2m_max d) day = Some (JNum tmax)
           /\ nth_error (temperature_2m_min d) day = Some (JNum tmin)
           /\ nth_error (precipitation_sum d) day = Some (JNum pr)
           /\ nth_error (temperature_2m h) (day * 24 + hr) = Some (JNum t)
           /\ rounded_to_decimals 1 ((tmax + tmin) / 2) t
           /\ nth_error (relative_humidity_2m h) (day * 24 + hr) = Some (JNum 50)
           /\ nth_error (wind_speed_10m h) (day * 24 + hr)
              = Some (JNum (default 0%Q
                              (nasaParam (nasaParameterObj json) "WS2M"
                                 (formatYMD env today day))))
           /\ nth_error (hourly_precipitation h) (day * 24 + hr) = Some (JNum p)
           /\ rounded_to_decimals 3 (pr / 24) p.
Proof.
  intros Hmiss n today Hprimary Hreply Hok.
  destruct (nasaMapped_shape env lat lon json today days) as (h & d & Hshape).
  exists (nasaMapped env lat lon json today days), h, d.
  split; [|exact Hshape].
  now apply fetchWeatherData_fallback_succeeds with (w1 := w1) (e := e) (status := status).
Qed.

(** With [primaryDown] a two-day request is served from [nasaTwoDays]. *)
Lemma fetchWeatherData_fallback_snapshot_witness :
  exists (snapshot : OpenMeteoResponse) (h : Hourly) (d : Daily),
    fst (fetchWeatherData primaryDown (437 / 10) (- 794 / 10) 2 startup) = inr snapshot
    /\ hourly snapshot = Some h
    /\ daily snapshot = Some d
    /\ length (temperature_2m_max d) = 2%nat
    /\ length (temperature_2m h) = 48%nat
    /\ nth_error (relative_humidity_2m h) 30 = Some (JNum 50).
Proof.
  destruct (fetchWeatherData_fallback_snapshot primaryDown (437 / 10) (- 794 / 10) 2
              startup startup (FetchFailed "ECONNRESET") 200 nasaTwoDays
              eq_refl eq_refl eq_refl eq_refl)
    as (snapshot & h & d & Hret & Hh & Hd & Hdaily & Hhourly & Hcells).
  exists snapshot, h, d.
  split; [exact Hret|]. split; [exact Hh|]. split; [exact Hd|].
  split; [apply Hdaily|]. split; [apply Hhourly|].
  destruct (Hcells 1%nat 6%nat) as (tmax & tmin & pr & t & p & H); [lia|lia|].
  apply H.
Defined.

(** The first day of [nasaTwoDays]: maximum 3.3 and minimum -2.15 give the
    hourly temperature 0.6; the sum 1.3 gives 0.054 per hour; the wind is the
    day's 7.2.  The second day has no wind value and gets 0. *)
Example nasaMapped_two_days :
  let snapshot := nasaMapped primaryDown 0 0 nasaTwoDays 1705300000001 2 in
  option_map (fun h => (nth_error (temperature_2m h) 5,
                        nth_error (hourly_precipitation h) 5,
                        nth_error (wind_speed_10m h) 5,
                        nth_error (wind_speed_10m h) 24)) (hourly snapshot)
  = Some (Some (JNum (6 # 10)), Some (JNum (54 # 1000)),
          Some (JNum (72 # 10)), Some (JNum 0)).
Proof. vm_compute. reflexivity. Qed.

(** ** The air-quality resolver *)

(** Reading the cache never throws. *)
Lemma cache_get_returns (env : Env) (key : string) (w : World) :
  exists (r : option Payload) (w1 : World), cache_get env key w = (inr r, w1).
Proof.
  unfold cache_get.
  destruct (WeatherCache.cache (w_cache w) !! key) as [entry|].
  - destruct (WeatherCache.get _ key (w_cache w)) as [r c]. now eexists _, _.
  - now eexists _, _.
Qed.

Lemma fetchAirQualityData_hit (env : Env) (lat lon radius : R) (w w1 : World)
    (p : Payload) :
  cache_get env (airQualityCacheKey env lat lon) w = (inr (Some p), w1) ->
  fst (fetchAirQualityData env lat lon radius w) = inr (asAirQuality p).
Proof.
  intros Hhit. unfold fetchAirQualityData. unfold bind at 1. rewrite Hhit.
  reflexivity.
Qed.

Lemma fetchAirQualityData_miss (env : Env) (lat lon radius : R) (w w1 : World) :
  cache_get env (airQualityCacheKey env lat lon) w = (inr None, w1) ->
  fst (fetchAirQualityData env lat lon radius w)
  = inr (resolvedAirQuality env lat lon radius (w_reads w1)).
Proof.
  intros Hmiss. unfold fetchAirQualityData, resolvedAirQuality.
  unfold bind at 1. rewrite Hmiss. run.
  destruct (openaqLocations env (w_reads w1) lat lon radius) as [e|status body];
    [reflexivity|].
  destruct body as [e|[[|first rest]|]];
    destruct (response_ok status); cbn [negb]; try reflexivity.
  destruct (nearestStationOf lat lon first (first :: rest)) as [s d].
  cbn [fst snd w_reads]. unfold stationSnapshot.
  destruct (openaqMeasurements env (S (w_reads w1)) (id s)) as [e|mstatus mbody];
    [reflexivity|].
  destruct (response_ok mstatus); [|reflexivity].
  destruct mbody as [e|[results|]]; try reflexivity.
  now destruct (fold_left measurementStep results (None, None, None))
    as [[pm25 pm10] no2].
Qed.

(** One iteration of the scan keeps the first nearest station of the
    stations seen so far. *)
Lemma nearestStep_first_nearest (lat lon : R) (l : list OpenAQLocation)
    (s x : OpenAQLocation) :
  first_nearest (stationDistance lat lon) l s ->
  let out := nearestStep lat lon (s, stationDistance lat lon s) x in
  first_nearest (stationDistance lat lon) (l ++ [x]) (fst out)
  /\ snd out = stationDistance lat lon (fst out).
Proof.
  intros [(i & Hi & Hbefore) Hmin]. unfold nearestStep. cbn [snd].
  destruct (Rlt_dec (stationDistance lat lon x) (stationDistance lat lon s))
    as [Hlt|Hge]; cbn [fst snd].
  - split; [|reflexivity]. split.
    + exists (length l). split.
      * rewrite nth_error_app2 by lia. now rewrite Nat.sub_diag.
      * intros j s' Hj Hs'. rewrite nth_error_app1 in Hs' by assumption.
        apply nth_error_In in Hs'. specialize (Hmin s' Hs'). lra.
    + intros s' Hin. apply in_app_or in Hin as [Hin|[<-|[]]].
      * specialize (Hmin s' Hin). lra.
      * lra.
  - split; [|reflexivity]. split.
    + assert (Hlen : (i < length l)%nat).
      { apply nth_error_Some. rewrite Hi. discriminate. }
      exists i. split.
      * now rewrite nth_error_app1.
      * intros j s' Hj Hs'. rewrite nth_error_app1 in Hs' by lia.
        now apply (Hbefore j).
    + intros s' Hin. apply in_app_or in Hin as [Hin|[<-|[]]].
      * now apply Hmin.
      * lra.
Qed.

Lemma nearest_scan_first_nearest (lat lon : R) (rest : list OpenAQLocation) :
  forall (l : list OpenAQLocation) (s : OpenAQLocation),
    first_nearest (stationDistance lat lon) l s ->
    let out := fold_left (nearestStep lat lon) rest (s, stationDistance lat lon s) in
    first_nearest (stationDistance lat lon) (l ++ rest) (fst out)
    /\ snd out = stationDistance lat lon (fst out).
Proof.
  induction rest as [|x rest IH]; intros l s Hs.
  - cbn [fold_left fst snd]. now rewrite app_nil_r.
  - cbn [fold_left].
    destruct (nearestStep_first_nearest lat lon l s x Hs) as [Hstep Hdist].
    destruct (nearestStep lat lon (s, stationDistance lat lon s) x) as [s1 d1].
    cbn [fst snd] in Hstep, Hdist. subst d1.
    specialize (IH (l ++ [x]) s1 Hstep).
    now rewrite <- app_assoc in IH.
Qed.

Lemma nearestStationOf_first_nearest (lat lon : R) (first : OpenAQLocation)
    (rest : list OpenAQLocation) :
  let out := nearestStationOf lat lon first (first :: rest) in
  first_nearest (stationDistance lat lon) (first :: rest) (fst out)
  /\ snd out = stationDistance lat lon (fst out).
Proof.
  unfold nearestStationOf. cbn [fold_left].
  assert (Hfirst : nearestStep lat lon (first, stationDistance lat lon first) first
                   = (first, stationDistance lat lon first)).
  { unfold nearestStep. cbn [snd].
    destruct (Rlt_dec _ _) as [Hlt|_]; [lra|reflexivity]. }
  rewrite Hfirst.
  apply (nearest_scan_first_nearest lat lon rest [first] first).
  split.
  - exists 0%nat. split; [reflexivity|]. intros j s' Hj. lia.
  - intros s' [<-|[]]. lra.
Qed.

(** Along the equator the haversine formula gives the arc length. *)
Lemma calculateDistance_equator (lon2 : R) :
  (0 <= lon2 < 180)%R ->
  calculateDistance 0 0 0 lon2 = (6371 * (lon2 * PI / 180))%R.
Proof.
  intros [Hlo Hhi]. unfold calculateDistance. cbv zeta.
  replace ((0 - 0) * PI / 180 / 2)%R with 0%R by lra.
  replace (0 * PI / 180)%R with 0%R by lra.
  rewrite sin_0, cos_0.
  set (y := ((lon2 - 0) * PI / 180 / 2)%R).
  pose proof PI_RGT_0 as Hpi.
  assert (Hy : (0 <= y < PI / 2)%R) by (unfold y; split; nra).
  assert (Hsin : (0 <= sin y)%R) by (apply sin_ge_0; lra).
  assert (Hcos : (0 < cos y)%R) by (apply cos_gt_0; lra).
  replace (0 * 0 + 1 * 1 * sin y * sin y)%R with (Rsqr (sin y))
    by (unfold Rsqr; ring).
  replace (1 - Rsqr (sin y))%R with (Rsqr (cos y))
    by (pose proof (sin2_cos2 y); lra).
  rewrite !sqrt_Rsqr by lra.
  unfold Math_atan2. destruct (Rlt_dec 0 (cos y)) as [_|Hn]; [|contradiction].
  change (sin y / cos y)%R with (tan y). rewrite atan_tan by lra.
  unfold y. field.
Qed.

Lemma stationDistance_eastOfOrigin (i : Z) (n : string) (km : R) :
  (0 <= km <= 100)%R ->
  stationDistance 0 0 (mkLocation i n (eastOfOrigin km)) = km.
Proof.
  intros H. pose proof PI_RGT_0 as Hpi. pose proof PI2_3_2 as Hpi3.
  unfold stationDistance, eastOfOrigin. cbn [coordinates coord_latitude coord_longitude].
  rewrite calculateDistance_equator.
  - field. lra.
  - split.
    + apply Rmult_le_pos; [lra|]. apply Rlt_le, Rinv_0_lt_compat. nra.
    + apply Rmult_lt_reg_r with (6371 * PI)%R; [nra|].
      unfold Rdiv. rewrite Rmult_assoc, Rinv_l by nra. nra.
Qed.

(** C7. From any non-empty list the scan keeps a station of least
    great-circle distance to the query point, and among those the one listed
    first: every station listed before it is strictly farther; the distance
    kept is that station's; unless the measurements request fails the
    resolver reports that station's name and distance; and from stations at
    12, 3 and 47 km the one at 3 km is kept. *)
Theorem nearest_station_first_minimum (env : Env) (lat lon radius : R)
    (first : OpenAQLocation) (rest : list OpenAQLocation) :
  let results := first :: rest in
  let out := nearestStationOf lat lon first results in
  first_nearest (stationDistance lat lon) results (fst out)
  /\ snd out = stationDistance lat lon (fst out)
  /\ (forall (w w1 : World) (status : Z),
        cache_get env (airQualityCacheKey env lat lon) w = (inr None, w1) ->
        openaqLocations env (w_reads w1) lat lon radius
        = Response status (inr (Some results)) ->
        response_ok status = true ->
        ~ measurementsFailure (openaqMeasurements env (S (w_reads w1)) (id (fst out))) ->
        exists a : AirQualityData,
          fst (fetchAirQualityData env lat lon radius w) = inr a
          /\ station a = Some (name (fst out))
          /\ distance a = Some (snd out))
  /\ (forall s2 s3 : OpenAQLocation,
        rest = [s2; s3] ->
        stationDistance lat lon first = 12%R ->
        stationDistance lat lon s2 = 3%R ->
        stationDistance lat lon s3 = 47%R ->
        out = (s2, 3%R)).
Proof.
  intros results out.
  destruct (nearestStationOf_first_nearest lat lon first rest) as [Hnear Hdist].
  fold results in Hnear, Hdist. fold out in Hnear, Hdist.
  split; [exact Hnear|]. split; [exact Hdist|]. split.
  - intros w w1 status Hmiss Hreply Hok Hmeasure.
    rewrite (fetchAirQualityData_miss env lat lon radius w w1 Hmiss).
    unfold resolvedAirQuality. rewrite Hreply. unfold results at 1. rewrite Hok.
    fold results. fold out. unfold stationSnapshot.
    destruct (openaqMeasurements env (S (w_reads w1)) (id (fst out)))
      as [e|mstatus mbody].
    + exfalso. apply Hmeasure. constructor.
    + destruct (response_ok mstatus) eqn:Hmok.
      * destruct mbody as [e|[ms|]].
        -- exfalso. apply Hmeasure. now constructor.
        -- destruct (fold_left measurementStep ms (None, None, None))
             as [[pm25 pm10] no2].
           now eexists.
        -- exfalso. apply Hmeasure. now constructor.
      * now eexists.
  - intros s2 s3 Hrest H12 H3 H47. clearbody out.
    destruct Hnear as [(i & Hi & _) Hmin].
    unfold results in Hi, Hmin. rewrite Hrest in Hi, Hmin.
    assert (Hle : (stationDistance lat lon (fst out) <= 3)%R).
    { rewrite <- H3. apply Hmin. right. now left. }
    assert (Hfst : fst out = s2).
    { destruct i as [|[|[|i]]]; cbn in Hi.
      - injection Hi as Hi. rewrite <- Hi in Hle. lra.
      - now injection Hi.
      - injection Hi as Hi. rewrite <- Hi in Hle. lra.
      - destruct i; discriminate. }
    rewrite (surjective_pairing out), Hdist, Hfst, H3. reflexivity.
Qed.

(** From [harbour], [midtown] and [airport], 12, 3 and 47 km east of the
    query point, the scan keeps [midtown]. *)
Lemma nearest_station_first_minimum_witness :
  nearestStationOf 0 0 harbour [harbour; midtown; airport] = (midtown, 3%R).
Proof.
  destruct (nearest_station_first_minimum outage 0 0 50000 harbour [midtown; airport])
    as (_ & _ & _ & H).
  apply (H midtown airport eq_refl).
  - apply stationDistance_eastOfOrigin. lra.
  - apply stationDistance_eastOfOrigin. lra.
  - apply stationDistance_eastOfOrigin. lra.
Defined.

Lemma nearestStationOf_single (lat lon : R) (s : OpenAQLocation) :
  nearestStationOf lat lon s [s] = (s, stationDistance lat lon s).
Proof.
  unfold nearestStationOf, nearestStep. cbn [fold_left snd].
  destruct (Rlt_dec _ _) as [Hlt|_]; [lra|reflexivity].
Qed.

(** The station list is served and names one station; the measurements
    request is answered with status 500; the snapshot returned names the
    station and gives its distance, so it is not the no-data snapshot. *)
Lemma fetchAirQualityData_measurements_status_counterexample :
  openaqMeasurements measurementsUnavailable 1 (id midtown)
  = Response 500 (inl (JsonRejected "Unexpected token <"))
  /\ response_ok 500 = false
  /\ fst (fetchAirQualityData measurementsUnavailable 0 0 50000 startup)
     = inr (mkAirQualityData None None None (Some "Midtown"%string) (Some 3%R))
  /\ fst (fetchAirQualityData measurementsUnavailable 0 0 50000 startup)
     <> inr getFallbackAirQuality.
Proof.
  assert (Hrun : fst (fetchAirQualityData measurementsUnavailable 0 0 50000 startup)
                 = inr (mkAirQualityData None None None (Some "Midtown"%string) (Some 3%R))).
  { rewrite (fetchAirQualityData_miss measurementsUnavailable 0 0 50000 startup startup)
      by reflexivity.
    unfold resolvedAirQuality.
    cbn [openaqLocations measurementsUnavailable response_ok Z.leb Z.compare
         Pos.compare Pos.compare_cont andb].
    rewrite nearestStationOf_single. cbn [fst snd].
    unfold stationSnapshot.
    cbn [openaqMeasurements measurementsUnavailable response_ok].
    replace ((200 <=? 500) && (500 <=? 299))%bool with false by reflexivity.
    unfold midtown at 2. rewrite stationDistance_eastOfOrigin by lra.
    reflexivity. }
  split; [reflexivity|]. split; [reflexivity|]. split; [exact Hrun|].
  rewrite Hrun. unfold getFallbackAirQuality. intros H. discriminate H.
Qed.

(** C5 (amended). [fetchAirQualityData] never throws. When the cache has
    nothing for the key, it returns the no-data snapshot if the station
    listing fails (rejected request, status outside 200-299, unreadable body,
    no station) or if the measurements request is rejected or its body cannot
    be read; if the measurements request is answered with a status outside
    200-299, it returns a snapshot with the three pollutant fields absent and
    with the name and the distance of the nearest station. *)
Theorem fetchAirQualityData_degrades (env : Env) (lat lon radius : R) (w : World) :
  (exists a : AirQualityData, fst (fetchAirQualityData env lat lon radius w) = inr a)
  /\ forall w1 : World,
       cache_get env (airQualityCacheKey env lat lon) w = (inr None, w1) ->
       let n := w_reads w1 in
       (locationsFailure (openaqLocations env n lat lon radius) ->
        fst (fetchAirQualityData env lat lon radius w) = inr getFallbackAirQuality)
       /\ forall (status : Z) (first : OpenAQLocation) (rest : list OpenAQLocation),
            openaqLocations env n lat lon radius
            = Response status (inr (Some (first :: rest))) ->
            response_ok status = true ->
            let out := nearestStationOf lat lon first (first :: rest) in
            let reply := openaqMeasurements env (S n) (id (fst out)) in
            (measurementsFailure reply ->
             fst (fetchAirQualityData env lat lon radius w) = inr getFallbackAirQuality)
            /\ (forall (mstatus : Z) (mbody : exn + option (list OpenAQMeasurement)),
                  reply = Response mstatus mbody ->
                  response_ok mstatus = false ->
                  fst (fetchAirQualityData env lat lon radius w)
                  = inr (mkAirQualityData None None None
                           (Some (name (fst out))) (Some (snd out)))).
Proof.
  split.
  - destruct (cache_get_returns env (airQualityCacheKey env lat lon) w)
      as ([p|] & w1 & Hget).
    + exists (asAirQuality p).
      exact (fetchAirQualityData_hit env lat lon radius w w1 p Hget).
    + exists (resolvedAirQuality env lat lon radius (w_reads w1)).
      exact (fetchAirQualityData_miss env lat lon radius w w1 Hget).
  - intros w1 Hmiss n. split.
    + intros Hfail.
      rewrite (fetchAirQualityData_miss env lat lon radius w w1 Hmiss).
      unfold resolvedAirQuality. fold n.
      inversion Hfail as [e He|status body Hok He|status e He|status He|status He];
        try reflexivity.
      rewrite Hok. now destruct body as [e|[[|first rest]|]].
    + intros status first rest Hreply Hok out reply.
      rewrite (fetchAirQualityData_miss env lat lon radius w w1 Hmiss).
      unfold resolvedAirQuality. fold n.
      rewrite Hreply, Hok. fold out. fold reply. unfold stationSnapshot.
      split.
      * intros Hfail.
        inversion Hfail as [e He|mstatus e Hmok He|mstatus Hmok He]; try reflexivity.
        -- now rewrite Hmok.
        -- now rewrite Hmok.
      * intros mstatus mbody -> Hmok. now rewrite Hmok.
Qed.

(** During [outage] the lookup gives the no-data snapshot; with
    [measurementsUnavailable] it names the station it found. *)
Lemma fetchAirQualityData_degrades_witness :
  fst (fetchAirQualityData outage 0 0 50000 startup) = inr getFallbackAirQuality
  /\ fst (fetchAirQualityData measurementsUnavailable 0 0 50000 startup)
     = inr (mkAirQualityData None None None
              (Some (name (fst (nearestStationOf 0 0 midtown [midtown]))))
              (Some (snd (nearestStationOf 0 0 midtown [midtown])))).
Proof.
  split.
  - destruct (fetchAirQualityData_degrades outage 0 0 50000 startup) as [_ H].
    destruct (H startup eq_refl) as [Hlist _].
    apply Hlist. constructor.
  - destruct (fetchAirQualityData_degrades measurementsUnavailable 0 0 50000 startup)
      as [_ H].
    destruct (H startup eq_refl) as [_ Hstation].
    destruct (Hstation 200 midtown [] eq_refl eq_refl) as [_ Hstatus].
    apply (Hstatus 500 (inl (JsonRejected "Unexpected token <"))); reflexivity.
Defined.

(** ** Cache keys *)

Lemma cache_get_fresh (env : Env) (key : string) (w : World)
    (entry : WeatherCache.CacheEntry Payload) :
  WeatherCache.cache (w_cache w) !! key = Some entry ->
  clock env (w_reads w) - WeatherCache.timestamp entry <= WeatherCache.ttl (w_cache w) ->
  cache_get env key w
  = (inr (Some (WeatherCache.data entry)),
     mkWorld (w_cache w) (S (w_reads w)) (w_console w) (w_alerts w)).
Proof.
  intros Hentry Hage. unfold cache_get. rewrite Hentry.
  now rewrite (WeatherCache_get_fresh _ key entry).
Qed.

(** A lookup that finds the station list and is answered by the measurements
    endpoint stores its result under the key of the coordinates. *)
Lemma fetchAirQualityData_stores (env : Env) (lat lon radius : R) (w w1 : World)
    (status : Z) (first : OpenAQLocation) (rest : list OpenAQLocation) :
  cache_get env (airQualityCacheKey env lat lon) w = (inr None, w1) ->
  let n := w_reads w1 in
  openaqLocations env n lat lon radius = Response status (inr (Some (first :: rest))) ->
  response_ok status = true ->
  let out := nearestStationOf lat lon first (first :: rest) in
  ~ measurementsFailure (openaqMeasurements env (S n) (id (fst out))) ->
  let a := resolvedAirQuality env lat lon radius n in
  fetchAirQualityData env lat lon radius w
  = (inr a,
     mkWorld
       (WeatherCache.set (clock env (S (S n))) (airQualityCacheKey env lat lon)
          (PAir a) (w_cache w1))
       (S (S (S n)))
       (w_console w1 ++ [AirQualityFetching lat lon])
       (w_alerts w1)).
Proof.
  intros Hmiss n Hreply Hok out Hmeasure a. subst a.
  unfold fetchAirQualityData, resolvedAirQuality.
  unfold bind at 1. rewrite Hmiss. run. fold n.
  rewrite Hreply, Hok. cbn [negb]. fold out.
  destruct out as [s d] eqn:Hout. cbn [fst snd w_reads] in *.
  unfold stationSnapshot.
  destruct (openaqMeasurements env (S n) (id s)) as [e|mstatus mbody].
  - exfalso. apply Hmeasure. constructor.
  - destruct (response_ok mstatus) eqn:Hmok.
    + destruct mbody as [e|[ms|]].
      * exfalso. apply Hmeasure. now constructor.
      * now destruct (fold_left measurementStep ms (None, None, None))
          as [[pm25 pm10] no2].
      * exfalso. apply Hmeasure. now constructor.
    + reflexivity.
Qed.

(** Two texts without underscore, each followed by an underscore and more
    text: if the wholes are equal, so are the parts. *)
Lemma split_at_underscore (s1 : string) :
  forall s2 r1 r2 : string,
    no_underscore s1 -> no_underscore s2 ->
    (s1 ++ "_" ++ r1 = s2 ++ "_" ++ r2)%string ->
    s1 = s2 /\ r1 = r2.
Proof.
  induction s1 as [|c s1 IH]; intros [|c' s2] r1 r2 H1 H2 Heq; cbn in *.
  - now injection Heq.
  - injection Heq as Hc _. destruct H2 as [H2 _]. now contradiction H2.
  - injection Heq as Hc _. destruct H1 as [H1 _]. now contradiction H1.
  - injection Heq as -> Heq. destruct H1 as [_ H1], H2 as [_ H2].
    destruct (IH s2 r1 r2 H1 H2 Heq) as [-> ->]. now split.
Qed.

(** As long as numbers print without underscore, a weather key determines
    the printed latitude, longitude and day count, an air-quality key
    determines the printed latitude and longitude, and no weather key is an
    air-quality key. *)
Lemma cache_keys_determine_printed_parameters (env : Env) :
  (forall x : R, no_underscore (numberToString env x)) ->
  (forall (lat lon lat' lon' : R) (days days' : nat),
     weatherCacheKey env lat lon days = weatherCacheKey env lat' lon' days' ->
     numberToString env lat = numberToString env lat'
     /\ numberToString env lon = numberToString env lon'
     /\ numberToString env (INR days) = numberToString env (INR days'))
  /\ (forall lat lon lat' lon' : R,
        airQualityCacheKey env lat lon = airQualityCacheKey env lat' lon' ->
        numberToString env lat = numberToString env lat'
        /\ numberToString env lon = numberToString env lon')
  /\ (forall (lat lon lat' lon' : R) (days : nat),
        weatherCacheKey env lat lon days <> airQualityCacheKey env lat' lon').
Proof.
  intros Hprint. split; [|split].
  - intros lat lon lat' lon' days days' Heq.
    unfold weatherCacheKey in Heq. cbn [String.append] in Heq.
    injection Heq as Heq.
    apply split_at_underscore in Heq as [Hlat Heq]; try apply Hprint.
    apply split_at_underscore in Heq as [Hlon Hdays]; try apply Hprint.
    now repeat split.
  - intros lat lon lat' lon' Heq.
    unfold airQualityCacheKey in Heq. cbn [String.append] in Heq.
    injection Heq as Heq.
    apply split_at_underscore in Heq as [Hlat Hlon]; try apply Hprint.
    now split.
  - intros lat lon lat' lon' days Heq.
    unfold weatherCacheKey, airQualityCacheKey in Heq. cbn [String.append] in Heq.
    discriminate Heq.
Qed.

(** C9, on the code. A lookup around the origin with a radius of 50 km finds
    the station 47 km away and stores the result; a lookup at the same
    coordinates with a radius of 1 km made right after uses the same key, is
    served that stored result and makes no request, although there is no
    station within 1 km and a lookup with an empty cache returns the no-data
    snapshot. *)
Theorem fetchAirQualityData_key_ignores_radius :
  let first := fetchAirQualityData radiusSensitive 0 0 50000 startup in
  let again := fetchAirQualityData radiusSensitive 0 0 1000 (snd first) in
  fst first = inr airportReading
  /\ WeatherCache.cache (w_cache (snd first)) !! airQualityCacheKey radiusSensitive 0 0
     = Some (WeatherCache.mkEntry (PAir airportReading) 1705300000002)
  /\ fst again = inr airportReading
  /\ w_console (snd again)
     = [AirQualityFetching 0 0; AirQualityCacheHit (airQualityCacheKey radiusSensitive 0 0)]
  /\ fst (fetchAirQualityData radiusSensitive 0 0 1000 startup)
     = inr getFallbackAirQuality.
Proof.
  assert (Hfar : openaqLocations radiusSensitive 0 0 0 50000
                 = Response 200 (inr (Some [airport]))).
  { cbn [openaqLocations radiusSensitive].
    destruct (Rlt_dec 50000 47000) as [Hlt|_]; [lra|reflexivity]. }
  assert (Hnear : forall n, openaqLocations radiusSensitive n 0 0 1000
                            = Response 200 (inr (Some []))).
  { intros n. cbn [openaqLocations radiusSensitive].
    destruct (Rlt_dec 1000 47000) as [_|Hge]; [reflexivity|lra]. }
  assert (Hresolved : resolvedAirQuality radiusSensitive 0 0 50000 0 = airportReading).
  { unfold resolvedAirQuality. rewrite Hfar.
    replace (response_ok 200) with true by reflexivity.
    rewrite nearestStationOf_single. cbn [fst snd]. unfold stationSnapshot.
    cbn [openaqMeasurements radiusSensitive].
    replace (response_ok 200) with true by reflexivity.
    cbn [fold_left measurementStep parameter value String.eqb Ascii.eqb Bool.eqb
         andb bool_decide decide_rel].
    unfold airport at 2. rewrite stationDistance_eastOfOrigin by lra.
    reflexivity. }
  assert (Hfirst :
    fetchAirQualityData radiusSensitive 0 0 50000 startup
    = (inr airportReading,
       mkWorld
         (WeatherCache.set 1705300000002 (airQualityCacheKey radiusSensitive 0 0)
            (PAir airportReading) weatherCache)
         3 [AirQualityFetching 0 0] [])).
  { pose proof (fetchAirQualityData_stores radiusSensitive 0 0 50000 startup startup
                  200 airport [] eq_refl Hfar eq_refl) as Hstores.
    cbv zeta in Hstores. change (w_reads startup) with 0%nat in Hstores.
    rewrite Hresolved in Hstores. rewrite Hstores; [reflexivity|].
    rewrite nearestStationOf_single. cbn [fst openaqMeasurements radiusSensitive].
    intros Hfail. inversion Hfail. }
  intros first again. subst again first. rewrite Hfirst. cbn [fst snd w_cache].
  set (w2 := mkWorld
               (WeatherCache.set 1705300000002 (airQualityCacheKey radiusSensitive 0 0)
                  (PAir airportReading) weatherCache)
               3 [AirQualityFetching 0 0] []).
  assert (Hget : cache_get radiusSensitive (airQualityCacheKey radiusSensitive 0 0) w2
                 = (inr (Some (PAir airportReading)),
                    mkWorld (w_cache w2) 4 (w_console w2) (w_alerts w2))).
  { apply (cache_get_fresh radiusSensitive (airQualityCacheKey radiusSensitive 0 0) w2
             (WeatherCache.mkEntry (PAir airportReading) 1705300000002)).
    - apply WeatherCache_lookup_set.
    - vm_compute. discriminate. }
  split; [reflexivity|]. split; [apply WeatherCache_lookup_set|]. split; [|split].
  - exact (fetchAirQualityData_hit radiusSensitive 0 0 1000 w2 _ _ Hget).
  - unfold fetchAirQualityData. unfold bind at 1. rewrite Hget. reflexivity.
  - rewrite (fetchAirQualityData_miss radiusSensitive 0 0 1000 startup startup)
      by reflexivity.
    unfold resolvedAirQuality. now rewrite Hnear.
Qed.

(** ** The scheduler *)

Section KeepsAlerts.

Context {A B : Type}.

Lemma keeps_alerts_ret (a : A) : keeps_alerts (ret a).
Proof. now intros w. Qed.

Lemma keeps_alerts_throw (e : exn) : keeps_alerts (@throw A e).
Proof. now intros w. Qed.

Lemma keeps_alerts_lift (r : exn + A) : keeps_alerts (lift r).
Proof. now intros w. Qed.

Lemma keeps_alerts_reading (oracle : nat -> A) : keeps_alerts (reading oracle).
Proof. now intros w. Qed.

Lemma keeps_alerts_bind (m : M A) (k : A -> M B) :
  keeps_alerts m -> (forall a, keeps_alerts (k a)) -> keeps_alerts (bind m k).
Proof.
  intros Hm Hk w. unfold bind. specialize (Hm w).
  destruct (m w) as [[e|a] w']; cbn [snd] in *.
  - exact Hm.
  - now rewrite Hk.
Qed.

Lemma keeps_alerts_try_catch (body : M A) (handler : exn -> M A) :
  keeps_alerts body -> (forall e, keeps_alerts (handler e)) ->
  keeps_alerts (try_catch body handler).
Proof.
  intros Hm Hk w. unfold try_catch. specialize (Hm w).
  destruct (body w) as [[e|a] w']; cbn [snd] in *.
  - now rewrite Hk.
  - exact Hm.
Qed.

End KeepsAlerts.

Lemma keeps_alerts_console (ev : LogEvent) : keeps_alerts (console ev).
Proof. now intros w. Qed.

Lemma keeps_alerts_cache_get (env : Env) (key : string) : keeps_alerts (cache_get env key).
Proof.
  intros w. unfold cache_get.
  destruct (WeatherCache.cache (w_cache w) !! key); [|reflexivity].
  now destruct (WeatherCache.get _ key (w_cache w)).
Qed.

Lemma keeps_alerts_cache_set (env : Env) (key : string) (p : Payload) :
  keeps_alerts (cache_set env key p).
Proof. now intros w. Qed.

Ltac keeps_alerts_step :=
  first
    [ apply keeps_alerts_bind; [|intros ?]
    | apply keeps_alerts_try_catch; [|intros ?]
    | apply keeps_alerts_ret
    | apply keeps_alerts_throw
    | apply keeps_alerts_lift
    | apply keeps_alerts_reading
    | apply keeps_alerts_console
    | apply keeps_alerts_cache_get
    | apply keeps_alerts_cache_set
    | match goal with
      | |- keeps_alerts (match ?x with _ => _ end) => destruct x
      | |- keeps_alerts (if ?b then _ else _) => destruct b
      end ].

Lemma keeps_alerts_fetchWeatherDataFromNASA (env : Env) (lat lon : R) (days : nat) :
  keeps_alerts (fetchWeatherDataFromNASA env lat lon days).
Proof. unfold fetchWeatherDataFromNASA. repeat keeps_alerts_step. Qed.

Lemma keeps_alerts_fetchWeatherData (env : Env) (lat lon : R) (days : nat) :
  keeps_alerts (fetchWeatherData env lat lon days).
Proof.
  unfold fetchWeatherData.
  repeat first [apply keeps_alerts_fetchWeatherDataFromNASA | keeps_alerts_step].
Qed.

Lemma keeps_alerts_fetchAirQualityData (env : Env) (lat lon radius : R) :
  keeps_alerts (fetchAirQualityData env lat lon radius).
Proof. unfold fetchAirQualityData. repeat keeps_alerts_step. Qed.

Lemma keeps_alerts_assessRegion (env : Env) (lat lon : R) :
  keeps_alerts (assessRegion env lat lon).
Proof.
  unfold assessRegion.
  repeat first [ apply keeps_alerts_fetchWeatherData
               | apply keeps_alerts_fetchAirQualityData
               | keeps_alerts_step ].
Qed.

Lemma keeps_alerts_processFeature (env : Env) (acc : HighRisk) (feature : Feature) :
  keeps_alerts (processFeature env acc feature).
Proof.
  unfold processFeature.
  repeat first [ apply keeps_alerts_assessRegion | keeps_alerts_step ].
Qed.

Lemma keeps_alerts_forEachFeature (env : Env) (features : list Feature) :
  forall acc : HighRisk, keeps_alerts (forEachFeature env features acc).
Proof.
  induction features as [|feature rest IH]; intros acc; cbn [forEachFeature].
  - apply keeps_alerts_ret.
  - apply keeps_alerts_bind; [apply keeps_alerts_processFeature|exact IH].
Qed.

(** On a feature it can read, one iteration of the loop returns normally,
    whatever happens inside the per-region [try]; the world it leaves does
    not depend on the sets accumulated so far. *)
Lemma processFeature_run (env : Env) (acc : HighRisk) (feature : Feature) (w : World) :
  readable feature ->
  processFeature env acc feature w
  = (inr (fold_left pushOutcome (regionOutcome env feature w) acc),
     snd (processFeature env (mkHighRisk [] [] []) feature w)).
Proof.
  unfold processFeature, regionOutcome, readable.
  destruct (geometry feature) as [[[| |] coordinates]|]; try reflexivity;
    [|contradiction].
  cbn [geometry_type geometry_coordinates].
  destruct (properties feature) as [p|]; [intros _|intros H; now contradiction H].
  destruct (getCentroid coordinates) as [lon lat].
  unfold try_catch, bind.
  now destruct (assessRegion env lat lon w) as [[e|riskData] w'].
Qed.

(** On a feature it cannot read, the iteration throws before the
    per-region [try] and leaves the world as it is. *)
Lemma processFeature_unreadable (env : Env) (acc : HighRisk) (feature : Feature)
    (w : World) :
  ~ readable feature ->
  processFeature env acc feature w = (inl (unreadableError feature), w).
Proof.
  unfold processFeature, readable, unreadableError.
  destruct (geometry feature) as [[[| |] coordinates]|]; intros Hno;
    try (exfalso; now apply Hno); [|reflexivity].
  cbn [geometry_type geometry_coordinates].
  destruct (properties feature) as [p|]; [exfalso; apply Hno; discriminate|].
  now destruct (getCentroid coordinates).
Qed.

Lemma forEachFeature_run (env : Env) (features : list Feature) :
  Forall readable features ->
  forall (acc : HighRisk) (w : World),
    fst (forEachFeature env features acc w)
    = inr (fold_left pushOutcome (outcomes env features w) acc).
Proof.
  induction 1 as [|feature rest Hfeature _ IH]; intros acc w;
    cbn [forEachFeature outcomes].
  - reflexivity.
  - unfold bind. rewrite (processFeature_run env acc feature w Hfeature), IH.
    now rewrite fold_left_app.
Qed.

Lemma fold_pushOutcome_affected (outs : list (string * (exn + RiskData))) :
  forall acc : HighRisk,
    fold_left pushOutcome outs acc
    = mkHighRisk
        (hr_heat acc ++ affected hsi (th_hsi thresholds) outs)
        (hr_cold acc ++ affected csi (th_csi thresholds) outs)
        (hr_air_quality acc ++ affected aqri (th_aqri thresholds) outs).
Proof.
  induction outs as [|[name [e|r]] rest IH]; intros acc; cbn [fold_left affected pushOutcome].
  - rewrite !app_nil_r. now destruct acc.
  - apply IH.
  - rewrite IH. unfold pushHighRisk, js_ge.
    cbn [hr_heat hr_cold hr_air_quality].
    destruct (Qle_bool (th_hsi thresholds) (hsi r));
      destruct (Qle_bool (th_csi thresholds) (csi r));
      destruct (Qle_bool (th_aqri thresholds) (aqri r));
      now rewrite <- ?app_assoc.
Qed.

Lemma alertBlock_run (env : Env) (t : AlertType) (names : list string) (w : World) :
  fst (alertBlock env t names w) = inr tt
  /\ w_alerts (snd (alertBlock env t names w)) = w_alerts w ++ alertsFor t names.
Proof.
  unfold alertBlock, alertsFor.
  destruct names as [|n rest].
  - cbn. now rewrite app_nil_r.
  - now cbn.
Qed.

(** The alert blocks never throw, and store the alerts of the three
    indices, in the order heat, cold, air quality. *)
Lemma raiseAlerts_run (env : Env) (hr : HighRisk) (w : World) :
  fst (raiseAlerts env hr w) = inr tt
  /\ w_alerts (snd (raiseAlerts env hr w))
     = w_alerts w ++ alertsFor heat (hr_heat hr) ++ alertsFor cold (hr_cold hr)
       ++ alertsFor air_quality (hr_air_quality hr).
Proof.
  destruct (raiseAlerts env hr w) as [r wf] eqn:Hrun. cbn [fst snd]. revert Hrun.
  unfold raiseAlerts. unfold bind at 1.
  destruct (alertBlock_run env heat (hr_heat hr) w) as [Hr1 Ha1].
  destruct (alertBlock env heat (hr_heat hr) w) as [r1 w2].
  cbn [fst snd] in Hr1, Ha1. subst r1. unfold bind at 1.
  destruct (alertBlock_run env cold (hr_cold hr) w2) as [Hr2 Ha2].
  destruct (alertBlock env cold (hr_cold hr) w2) as [r2 w3].
  cbn [fst snd] in Hr2, Ha2. subst r2. unfold bind at 1.
  destruct (alertBlock_run env air_quality (hr_air_quality hr) w3) as [Hr3 Ha3].
  destruct (alertBlock env air_quality (hr_air_quality hr) w3) as [r3 w4].
  cbn [fst snd] in Hr3, Ha3. subst r3.
  unfold console. intros [= <- <-]. cbn [w_alerts]. split; [reflexivity|].
  rewrite Ha3, Ha2, Ha1. now rewrite <- !List.app_assoc.
Qed.

Lemma getNeighborhoods_run (env : Env) (w : World) :
  getNeighborhoods env w
  = (inr (listedFeatures env (w_reads w)),
     mkWorld (w_cache w) (S (w_reads w))
       (w_console w ++ storageLines env (w_reads w)) (w_alerts w)).
Proof.
  unfold getNeighborhoods, listedFeatures, storageLines, bind, reading.
  destruct (neighborhoodsFile env (w_reads w)) as [e|neighborhoods]; cbn.
  - reflexivity.
  - now rewrite app_nil_r.
Qed.

(** The course of a run: the first line, the reading of the file, the loop
    and, when the loop returns, the alert blocks; the run's own [catch] takes
    what the reading of the features or the loop throws. *)
Lemma calculateDailyRisks_course (env : Env) (w : World) :
  calculateDailyRisks env w
  = match listedFeatures env (w_reads w) with
    | None =>
        console (SchedulerError (TypeError "neighborhoods.features is not iterable"))
          (loopStart env w)
    | Some features =>
        match forEachFeature env features (mkHighRisk [] [] []) (loopStart env w) with
        | (inr highRiskNeighborhoods, w1) => raiseAlerts env highRiskNeighborhoods w1
        | (inl error, w1) => console (SchedulerError error) w1
        end
    end.
Proof.
  unfold calculateDailyRisks. unfold bind at 1. unfold console at 1.
  unfold try_catch at 1. unfold bind at 1.
  rewrite getNeighborhoods_run. cbn [w_cache w_reads w_console w_alerts].
  rewrite <- List.app_assoc. cbn [app]. fold (loopStart env w).
  destruct (listedFeatures env (w_reads w)) as [features|].
  - unfold bind at 1. unfold ret at 1. unfold bind at 1.
    destruct (forEachFeature env features (mkHighRisk [] [] []) (loopStart env w))
      as [[error|hr] w1]; [reflexivity|].
    fold (raiseAlerts env hr).
    destruct (raiseAlerts_run env hr w1) as [Hr _].
    destruct (raiseAlerts env hr w1) as [r w2]. cbn [fst] in Hr. now subst r.
  - reflexivity.
Qed.

(** A run never throws; when the loop reads every listed feature, the alerts
    the run stores are those of the three indices, in the order heat, cold,
    air quality. *)
Lemma calculateDailyRisks_run (env : Env) (w : World) :
  fst (calculateDailyRisks env w) = inr tt
  /\ match listedFeatures env (w_reads w) with
     | Some features =>
         Forall readable features ->
         let outs := outcomes env features (loopStart env w) in
         w_alerts (snd (calculateDailyRisks env w))
         = w_alerts w
           ++ alertsFor heat (affected hsi (th_hsi thresholds) outs)
           ++ alertsFor cold (affected csi (th_csi thresholds) outs)
           ++ alertsFor air_quality (affected aqri (th_aqri thresholds) outs)
     | None => w_alerts (snd (calculateDailyRisks env w)) = w_alerts w
     end.
Proof.
  rewrite calculateDailyRisks_course.
  destruct (listedFeatures env (w_reads w)) as [features|]; [|now split].
  pose proof (keeps_alerts_forEachFeature env features (mkHighRisk [] [] [])
                (loopStart env w)) as Hkeep.
  split.
  - destruct (forEachFeature env features (mkHighRisk [] [] []) (loopStart env w))
      as [[error|hr] w1]; [reflexivity|apply raiseAlerts_run].
  - intros Hreadable outs.
    pose proof (forEachFeature_run env features Hreadable (mkHighRisk [] [] [])
                  (loopStart env w)) as Hacc.
    destruct (forEachFeature env features (mkHighRisk [] [] []) (loopStart env w))
      as [[error|hr] w1]; cbn [fst snd] in Hacc, Hkeep; [discriminate|].
    injection Hacc as ->. fold outs.
    destruct (raiseAlerts_run env
                (fold_left pushOutcome outs (mkHighRisk [] [] [])) w1) as [_ Ha].
    rewrite Ha, Hkeep, fold_pushOutcome_affected. reflexivity.
Qed.

Lemma alertsOfType_alertsFor (t t' : AlertType) (names : list string) :
  alertsOfType t (alertsFor t' names) = if decide (t' = t) then alertsFor t' names else [].
Proof.
  unfold alertsOfType, alertsFor.
  destruct names as [|n rest]; [now destruct (decide (t' = t))|].
  cbn [List.filter type]. unfold bool_decide, decide.
  now destruct (decide_rel eq t' t).
Qed.

Lemma alertsOfType_run (t : AlertType) (hs cs qs : list string) :
  alertsOfType t (alertsFor heat hs ++ alertsFor cold cs ++ alertsFor air_quality qs)
  = alertsFor t match t with heat => hs | cold => cs | air_quality => qs end.
Proof.
  unfold alertsOfType. rewrite !List.filter_app.
  fold (alertsOfType t (alertsFor heat hs)).
  fold (alertsOfType t (alertsFor cold cs)).
  fold (alertsOfType t (alertsFor air_quality qs)).
  rewrite !alertsOfType_alertsFor.
  destruct t; cbn; now rewrite ?app_nil_r.
Qed.

Lemma length_alertsFor (t : AlertType) (names : list string) :
  (length (alertsFor t names) <= 1)%nat.
Proof. destruct names; cbn; lia. Qed.

(** C1. In a run over the regions of the neighbourhood file, every feature
    of which has its geometry and, if it is a polygon, its properties (so
    that the loop reaches its end), the alerts
    stored are, for each of the three indices on its own, none when no
    region assessed in the run has its sub-index at or above the threshold
    of the index (70, 60, 65), and otherwise exactly one, listing those
    regions in file order, with severity extreme for 3 regions or more and
    high for fewer; so at most one alert per index and at most three in all.
    With three regions whose heat index is 72, 50 and 90 the heat alert
    lists the first and the third and has severity high. *)
Theorem calculateDailyRisks_alerts (env : Env) (w : World) (features : list Feature) :
  neighborhoodsFile env (w_reads w) = inr (Some features) ->
  Forall readable features ->
  let w0 := mkWorld (w_cache w) (S (w_reads w))
              (w_console w ++ [SchedulerRunning]) (w_alerts w) in
  let outs := outcomes env features w0 in
  let names (t : AlertType) :=
    match t with
    | heat => affected hsi 70 outs
    | cold => affected csi 60 outs
    | air_quality => affected aqri 65 outs
    end in
  exists emitted : list Alert,
    w_alerts (snd (calculateDailyRisks env w)) = w_alerts w ++ emitted
    /\ (forall t : AlertType,
          (names t = [] -> alertsOfType t emitted = [])
          /\ (names t <> [] ->
              alertsOfType t emitted
              = [mkAlert t (if (3 <=? length (names t))%nat then extreme else high)
                         (names t) (alertMessage t (length (names t)))])
          /\ (length (alertsOfType t emitted) <= 1)%nat)
    /\ (length emitted <= 3)%nat
    /\ (forall (n1 n2 n3 : string) (r1 r2 r3 : RiskData),
          outs = [(n1, inr r1); (n2, inr r2); (n3, inr r3)] ->
          hsi r1 == 72 -> hsi r2 == 50 -> hsi r3 == 90 ->
          alertsOfType heat emitted
          = [mkAlert heat high [n1; n3] (alertMessage heat 2)]).
Proof.
  intros Hfile Hreadable w0 outs names.
  destruct (calculateDailyRisks_run env w) as [_ Hrun].
  unfold listedFeatures, loopStart, storageLines in Hrun. rewrite Hfile in Hrun.
  specialize (Hrun Hreadable). cbv zeta in Hrun. fold w0 in Hrun. fold outs in Hrun.
  change (th_hsi thresholds) with 70%Q in Hrun.
  change (th_csi thresholds) with 60%Q in Hrun.
  change (th_aqri thresholds) with 65%Q in Hrun.
  fold (names heat) in Hrun. fold (names cold) in Hrun. fold (names air_quality) in Hrun.
  exists (alertsFor heat (names heat) ++ alertsFor cold (names cold)
          ++ alertsFor air_quality (names air_quality)).
  split; [exact Hrun|].
  assert (Htype : forall t, alertsOfType t
                    (alertsFor heat (names heat) ++ alertsFor cold (names cold)
                     ++ alertsFor air_quality (names air_quality))
                  = alertsFor t (names t)).
  { intros t. rewrite alertsOfType_run. now destruct t. }
  split; [|split].
  - intros t. rewrite Htype. split; [|split].
    + now intros ->.
    + intros Hne. unfold alertsFor. now destruct (names t).
    + apply length_alertsFor.
  - rewrite !length_app.
    pose proof (length_alertsFor heat (names heat)).
    pose proof (length_alertsFor cold (names cold)).
    pose proof (length_alertsFor air_quality (names air_quality)). lia.
  - intros n1 n2 n3 r1 r2 r3 Houts H1 H2 H3. rewrite Htype.
    cbn [names]. rewrite Houts. cbn [affected].
    assert (E1 : Qle_bool 70 (hsi r1) = true)
      by (apply Qle_bool_iff; rewrite H1; discriminate).
    assert (E3 : Qle_bool 70 (hsi r3) = true)
      by (apply Qle_bool_iff; rewrite H3; discriminate).
    assert (E2 : Qle_bool 70 (hsi r2) = false).
    { destruct (Qle_bool 70 (hsi r2)) eqn:E; [|reflexivity].
      apply Qle_bool_iff in E. rewrite H2 in E. now contradiction E. }
    rewrite E1, E2, E3. reflexivity.
Qed.

(** The run of [heatwave]: heat indices 72, 50 and 90 give one heat alert,
    of severity high, for Riverside and Hillcrest. *)
Lemma calculateDailyRisks_alerts_witness :
  exists emitted : list Alert,
    w_alerts (snd (calculateDailyRisks heatwave startup)) = w_alerts startup ++ emitted
    /\ alertsOfType heat emitted
       = [mkAlert heat high ["Riverside"; "Hillcrest"]%string (alertMessage heat 2)]
    /\ (length emitted <= 3)%nat.
Proof.
  destruct (calculateDailyRisks_alerts heatwave startup [riverside; oldtown; hillcrest]
              eq_refl)
    as (emitted & Hrun & _ & Hlen & Hexample).
  { repeat constructor; discriminate. }
  exists emitted. split; [exact Hrun|]. split; [|exact Hlen].
  apply (Hexample "Riverside" "Oldtown" "Hillcrest"
           (mkRiskData 72 0 0 72) (mkRiskData 50 0 0 50) (mkRiskData 90 0 0 90))%string.
  - vm_compute. reflexivity.
  - reflexivity.
  - reflexivity.
  - reflexivity.
Defined.

(** ** Failures of single regions *)

(** The world an iteration leaves does not depend on the sets. *)
Lemma processFeature_world (env : Env) (acc : HighRisk) (feature : Feature)
    (w : World) :
  snd (processFeature env acc feature w)
  = snd (processFeature env (mkHighRisk [] [] []) feature w).
Proof.
  unfold processFeature.
  destruct (geometry feature) as [[[| |] coordinates]|]; try reflexivity.
  cbn [geometry_type geometry_coordinates].
  destruct (getCentroid coordinates) as [lon lat].
  destruct (properties feature) as [p|]; [|reflexivity].
  unfold try_catch, bind.
  now destruct (assessRegion env lat lon w) as [[e|riskData] w'].
Qed.

Lemma forEachFeature_world (env : Env) (features : list Feature) :
  Forall readable features ->
  forall (acc : HighRisk) (w : World),
    snd (forEachFeature env features acc w) = worldAfter env features w.
Proof.
  unfold worldAfter.
  induction 1 as [|feature rest Hfeature _ IH]; intros acc w; cbn [forEachFeature].
  - reflexivity.
  - unfold bind. rewrite (processFeature_run env acc _ _ Hfeature).
    rewrite (processFeature_run env (mkHighRisk [] [] []) _ _ Hfeature).
    rewrite IH. symmetry. apply IH.
Qed.

Lemma worldAfter_cons (env : Env) (feature : Feature) (rest : list Feature) (w : World) :
  readable feature -> Forall readable rest ->
  worldAfter env (feature :: rest) w
  = worldAfter env rest (snd (processFeature env (mkHighRisk [] [] []) feature w)).
Proof.
  intros Hfeature Hrest. unfold worldAfter at 1. cbn [forEachFeature]. unfold bind.
  rewrite (processFeature_run env _ _ _ Hfeature). now apply forEachFeature_world.
Qed.

Lemma outcomes_app (env : Env) (pre rest : list Feature) :
  Forall readable pre ->
  forall w : World,
    outcomes env (pre ++ rest) w
    = outcomes env pre w ++ outcomes env rest (worldAfter env pre w).
Proof.
  induction 1 as [|feature pre Hfeature Hpre IH]; intros w.
  - reflexivity.
  - cbn [app outcomes]. rewrite IH, worldAfter_cons by assumption.
    now rewrite List.app_assoc.
Qed.

Lemma affected_app (score : RiskData -> Q) (threshold : Q)
    (a b : list (string * (exn + RiskData))) :
  affected score threshold (a ++ b)
  = affected score threshold a ++ affected score threshold b.
Proof.
  induction a as [|[name [e|r]] a IH]; cbn [app affected].
  - reflexivity.
  - exact IH.
  - destruct (Qle_bool threshold (score r)); [cbn [app]|]; now rewrite IH.
Qed.

(** A throw of the weather fetch is a throw of the per-region [try] body. *)
Lemma assessRegion_weather_throws (env : Env) (lat lon : R) (w : World) (e : exn) :
  fst (fetchWeatherData env lat lon 7 w) = inl e ->
  fst (assessRegion env lat lon w) = inl e.
Proof.
  intros Hthrow. unfold assessRegion. unfold bind at 1.
  destruct (fetchWeatherData env lat lon 7 w) as [[e0|d] w']; cbn [fst] in *.
  - now injection Hthrow as ->.
  - discriminate.
Qed.

(** What the per-region [try] does contain. When the assessment of a polygon
    region with properties throws [e] (as it does when its weather fetch
    throws), the iteration returns normally and leaves the three sets as
    they were, the console ends with the error of that region, and the loop
    goes on with the remaining regions; in a run over the readable regions
    [pre], that region and the readable regions [rest], the alert of every
    index is raised for the regions of [pre] and of [rest] at or above the
    threshold, the failed region being in none. *)
Lemma assessment_failure_is_contained (env : Env) (acc : HighRisk)
    (feature : Feature) (coordinates : list (list (R * R))) (p : Properties)
    (rest : list Feature) (w : World) (e : exn) :
  geometry feature = Some (mkGeometry Polygon coordinates) ->
  properties feature = Some p ->
  let lon := fst (getCentroid coordinates) in
  let lat := snd (getCentroid coordinates) in
  fst (assessRegion env lat lon w) = inl e ->
  let w' := snd (processFeature env acc feature w) in
  processFeature env acc feature w = (inr acc, w')
  /\ w_console w'
     = w_console (snd (assessRegion env lat lon w))
       ++ [SchedulerErrorProcessing (properties_name p) e]
  /\ forEachFeature env (feature :: rest) acc w = forEachFeature env rest acc w'
  /\ (forall (pre : list Feature) (ws : World),
        neighborhoodsFile env (w_reads ws) = inr (Some (pre ++ feature :: rest)) ->
        Forall readable pre -> Forall readable rest ->
        worldAfter env pre (loopStart env ws) = w ->
        let names (score : RiskData -> Q) (threshold : Q) :=
          affected score threshold (outcomes env pre (loopStart env ws))
          ++ affected score threshold (outcomes env rest w') in
        w_alerts (snd (calculateDailyRisks env ws))
        = w_alerts ws ++ alertsFor heat (names hsi 70%Q)
          ++ alertsFor cold (names csi 60%Q)
          ++ alertsFor air_quality (names aqri 65%Q)).
Proof.
  intros Hgeometry Hproperties lon lat Hthrow w'.
  assert (Hreadable : readable feature).
  { unfold readable. rewrite Hgeometry, Hproperties. discriminate. }
  assert (Hstep : processFeature env acc feature w
                  = (inr acc,
                     mkWorld (w_cache (snd (assessRegion env lat lon w)))
                       (w_reads (snd (assessRegion env lat lon w)))
                       (w_console (snd (assessRegion env lat lon w))
                        ++ [SchedulerErrorProcessing (properties_name p) e])
                       (w_alerts (snd (assessRegion env lat lon w))))).
  { unfold processFeature. rewrite Hgeometry, Hproperties.
    cbn [geometry_type geometry_coordinates]. subst lon lat.
    destruct (getCentroid coordinates) as [lon lat].
    cbn [fst snd] in *. unfold try_catch, bind.
    destruct (assessRegion env lat lon w) as [[e0|r] w1]; cbn [fst snd] in *.
    - injection Hthrow as ->. reflexivity.
    - discriminate. }
  assert (Hw' : w' = snd (processFeature env (mkHighRisk [] [] []) feature w)).
  { subst w'. apply processFeature_world. }
  assert (Houtcome : regionOutcome env feature w = [(properties_name p, inl e)]).
  { unfold regionOutcome. rewrite Hgeometry, Hproperties. subst lon lat.
    destruct (getCentroid coordinates) as [lon lat].
    cbn [fst snd] in Hthrow. now rewrite Hthrow. }
  split; [|split; [|split]].
  - subst w'. now rewrite Hstep.
  - subst w'. now rewrite Hstep.
  - cbn [forEachFeature]. unfold bind. subst w'. now rewrite Hstep.
  - intros pre ws Hfile Hpre Hrest Hworld names.
    destruct (calculateDailyRisks_run env ws) as [_ Hrun].
    unfold listedFeatures in Hrun. rewrite Hfile in Hrun.
    assert (Hall : Forall readable (pre ++ feature :: rest)).
    { apply Forall_app. split; [exact Hpre|]. now constructor. }
    specialize (Hrun Hall). cbv zeta in Hrun. rewrite Hrun.
    assert (Hnames : forall score threshold,
              affected score threshold
                (outcomes env (pre ++ feature :: rest) (loopStart env ws))
              = names score threshold).
    { intros score threshold. unfold names.
      rewrite (outcomes_app env pre (feature :: rest) Hpre), affected_app, Hworld.
      f_equal. cbn [outcomes]. rewrite affected_app, <- Hw', Houtcome. reflexivity. }
    change (th_hsi thresholds) with 70%Q. change (th_csi thresholds) with 60%Q.
    change (th_aqri thresholds) with 65%Q.
    now rewrite !Hnames.
Qed.

(** What the per-region [try] does not contain. In a run over the readable
    features [pre], a feature that cannot be read and any features [rest],
    the loop throws at that feature: the run's own [catch] reports the error
    and the run ends without an alert, whatever the regions of [pre]
    scored. *)
Lemma unreadable_feature_ends_run (env : Env) (w : World)
    (pre rest : list Feature) (feature : Feature) :
  neighborhoodsFile env (w_reads w) = inr (Some (pre ++ feature :: rest)) ->
  Forall readable pre ->
  ~ readable feature ->
  calculateDailyRisks env w
  = console (SchedulerError (unreadableError feature))
      (worldAfter env pre (loopStart env w))
  /\ w_alerts (snd (calculateDailyRisks env w)) = w_alerts w.
Proof.
  intros Hfile Hpre Hfeature.
  assert (Hloop : forall acc w0,
            forEachFeature env (pre ++ feature :: rest) acc w0
            = (inl (unreadableError feature), worldAfter env pre w0)).
  { clear Hfile. induction Hpre as [|first pre Hfirst Hpre IH]; intros acc w0.
    - cbn [app forEachFeature]. unfold bind.
      now rewrite (processFeature_unreadable env acc feature w0 Hfeature).
    - cbn [app forEachFeature]. unfold bind.
      rewrite (processFeature_run env acc first w0 Hfirst), IH.
      now rewrite worldAfter_cons. }
  assert (Hrun : calculateDailyRisks env w
                 = console (SchedulerError (unreadableError feature))
                     (worldAfter env pre (loopStart env w))).
  { rewrite calculateDailyRisks_course. unfold listedFeatures. rewrite Hfile.
    now rewrite Hloop. }
  split; [exact Hrun|]. rewrite Hrun. unfold console, worldAfter. cbn [snd w_alerts].
  now rewrite (keeps_alerts_forEachFeature env pre (mkHighRisk [] [] []) (loopStart env w)).
Qed.

(** C8, on the code. A failure inside the per-region [try] is contained:
    in the heat wave in which both weather providers fail for Oldtown, the
    second of three regions, the run reports the error of Oldtown and stores
    the heat alert for Riverside and Hillcrest. A failure of the statements
    before the [try] is not: when the neighbourhoods file lists Riverside, a
    feature whose geometry is [null], and Hillcrest, with heat indices 72 for
    Riverside and 90 for Hillcrest, the loop assesses Riverside, whose heat
    index is at the threshold, then throws on the feature without geometry;
    the run's own [catch] reports the error, Hillcrest is never assessed, and
    the run ends without any alert, where the run over Riverside and
    Hillcrest alone stores one heat alert for both. *)
Theorem unreadable_feature_aborts_run :
  let alert := mkAlert heat high ["Riverside"; "Hillcrest"]%string (alertMessage heat 2) in
  let contained := calculateDailyRisks heatwaveWithOutage startup in
  let listed := [riverside; unlocated; hillcrest] in
  let run := calculateDailyRisks (heatwaveOver listed) startup in
  (List.filter isRegionLine (w_console (snd contained))
   = [SchedulerRegion "Riverside" (mkRiskData 72 0 0 72);
      SchedulerErrorProcessing "Oldtown" (FetchFailed "ECONNRESET");
      SchedulerRegion "Hillcrest" (mkRiskData 90 0 0 90)]
   /\ w_alerts (snd contained) = [alert])
  /\ w_alerts (snd (calculateDailyRisks (heatwaveOver [riverside; hillcrest]) startup))
     = [alert]
  /\ fst run = inr tt
  /\ affected hsi 70 (outcomes (heatwaveOver listed) [riverside] running)
     = ["Riverside"%string]
  /\ w_alerts (snd run) = []
  /\ List.filter isRegionLine (w_console (snd run))
     = [SchedulerRegion "Riverside" (mkRiskData 72 0 0 72)]
  /\ List.last (w_console (snd run)) SchedulerRunning
     = SchedulerError (TypeError "Cannot read properties of null (reading 'type')").
Proof.
  intros alert contained listed run.
  destruct (unreadable_feature_ends_run (heatwaveOver listed) startup
              [riverside] [hillcrest] unlocated eq_refl) as [Hrun Halerts].
  { repeat constructor. discriminate. }
  { intros H. exact H. }
  fold run in Hrun, Halerts.
  split; [split; vm_compute; reflexivity|].
  split; [vm_compute; reflexivity|].
  split; [rewrite Hrun; reflexivity|].
  split; [vm_compute; reflexivity|].
  split; [exact Halerts|].
  rewrite Hrun. split; vm_compute; reflexivity.
Qed.

(** * Further properties *)

(** ** Results of [processWeatherForRisk] *)

Lemma js_or_nonzero (x : option jsnum) (d : Q) : ~ d == 0 -> ~ js_or x d == 0.
Proof.
  intros Hd. destruct x as [[| |q]|]; cbn [js_or]; try exact Hd.
  destruct (Qeq_bool q 0) eqn:E; [exact Hd|].
  now apply Qeq_bool_neq.
Qed.

(** X3. [processWeatherForRisk] throws, and then 'Invalid weather data
    structure', exactly when the snapshot lacks its daily or its hourly
    section; whenever it returns, the temperature, the humidity, the wind
    speed and the UV index of the result are all different from 0. *)
Theorem processWeatherForRisk_never_zero (data : OpenMeteoResponse) (dayIndex : Z) :
  match processWeatherForRisk data dayIndex with
  | inl e => e = InvalidWeatherData /\ (daily data = None \/ hourly data = None)
  | inr w =>
      daily data <> None /\ hourly data <> None
      /\ ~ temperature w == 0 /\ ~ humidity w == 0
      /\ ~ windSpeed w == 0 /\ ~ uvIndex w == 0
  end.
Proof.
  unfold processWeatherForRisk.
  destruct (daily data) as [d|], (hourly data) as [h|]; try (split; [reflexivity|tauto]).
  cbn [temperature humidity windSpeed uvIndex].
  repeat split; try discriminate; apply js_or_nonzero; discriminate.
Qed.

Lemma js_index_negative {A : Type} (a : list A) (i : Z) : i < 0 -> js_index a i = None.
Proof. intros Hi. unfold js_index. destruct (Z.ltb_spec i 0); [reflexivity|lia]. Qed.

Lemma js_index_past_end {A : Type} (a : list A) (i : Z) :
  Z.of_nat (length a) <= i -> js_index a i = None.
Proof.
  intros Hi. unfold js_index. destruct (Z.ltb_spec i 0); [reflexivity|].
  apply nth_error_None. lia.
Qed.

(** X4. A day index outside the forecast. A negative index gives all six
    defaults. An index at or past the end of the daily arrays gives the
    daily defaults (25, 15, 5, 0), while the humidity and the wind speed are
    read from the last hour of the hourly arrays, the hour index being capped
    at the last one. *)
Theorem processWeatherForRisk_outside_forecast (data : OpenMeteoResponse)
    (d : Daily) (h : Hourly) (dayIndex : Z) :
  daily data = Some d ->
  hourly data = Some h ->
  (dayIndex < 0 ->
   processWeatherForRisk data dayIndex
   = inr (mkWeatherData 25 50 10 5 (15 - 10 * (1 # 2)) 0))
  /\ (Z.of_nat (length (temperature_2m_max d)) <= dayIndex ->
      Z.of_nat (length (temperature_2m_min d)) <= dayIndex ->
      Z.of_nat (length (uv_index_max d)) <= dayIndex ->
      Z.of_nat (length (precipitation_sum d)) <= dayIndex ->
      (0 < length (hourly_time h))%nat ->
      Z.of_nat (length (hourly_time h)) <= dayIndex * 24 ->
      let last := (length (hourly_time h) - 1)%nat in
      exists w : WeatherData,
        processWeatherForRisk data dayIndex = inr w
        /\ temperature w = 25%Q /\ uvIndex w = 5%Q /\ precipitation w = 0%Q
        /\ humidity w = js_or (nth_error (relative_humidity_2m h) last) 50
        /\ windSpeed w = js_or (nth_error (wind_speed_10m h) last) 10
        /\ windChill w = (15 - windSpeed w * (1 # 2))%Q).
Proof.
  intros Hd Hh. split.
  - intros Hneg. unfold processWeatherForRisk. rewrite Hd, Hh.
    assert (Hhour : Z.min (dayIndex * 24) (Z.of_nat (length (hourly_time h)) - 1) < 0)
      by lia.
    now rewrite !(js_index_negative _ dayIndex Hneg), !(js_index_negative _ _ Hhour).
  - intros H1 H2 H3 H4 Hn Hcap last. unfold processWeatherForRisk. rewrite Hd, Hh.
    rewrite (js_index_past_end _ _ H1), (js_index_past_end _ _ H2),
      (js_index_past_end _ _ H3), (js_index_past_end _ _ H4).
    replace (Z.min (dayIndex * 24) (Z.of_nat (length (hourly_time h)) - 1))
      with (Z.of_nat last) by (unfold last; lia).
    unfold js_index. destruct (Z.ltb_spec (Z.of_nat last) 0); [lia|].
    rewrite Nat2Z.id. eexists. split; [reflexivity|]. now cbn.
Qed.

(** On [freezingDay], a forecast of one day and one hour: day -1 gives the
    defaults; day 3 reads the only hour, whose wind speed is 20. *)
Lemma processWeatherForRisk_outside_forecast_witness :
  processWeatherForRisk freezingDay (-1)
  = inr (mkWeatherData 25 50 10 5 (15 - 10 * (1 # 2)) 0)
  /\ exists w : WeatherData,
       processWeatherForRisk freezingDay 3 = inr w
       /\ temperature w = 25%Q /\ windSpeed w = 20%Q.
Proof.
  destruct (processWeatherForRisk_outside_forecast freezingDay
              (mkDaily ["2024-01-15"%string] [JNum (7 # 2)] [JNum 0] [JNum 1] [JNum 0])
              (mkHourly ["2024-01-15T00:00"%string] [JNum 1] [JNum 0] [JNum 20] [JNum 0])
              (-1) eq_refl eq_refl) as [Hneg _].
  split; [apply Hneg; lia|].
  destruct (processWeatherForRisk_outside_forecast freezingDay
              (mkDaily ["2024-01-15"%string] [JNum (7 # 2)] [JNum 0] [JNum 1] [JNum 0])
              (mkHourly ["2024-01-15T00:00"%string] [JNum 1] [JNum 0] [JNum 20] [JNum 0])
              3 eq_refl eq_refl) as [_ Hpast].
  destruct Hpast as (w & Hw & Ht & _ & _ & _ & Hws & _); cbn; try lia.
  exists w. split; [exact Hw|]. split; [exact Ht|]. exact Hws.
Defined.

(** ** The weather client and the cache *)

(** A lookup that returns nothing leaves no entry under the key: there was
    none, or it had expired and was deleted. *)
Lemma cache_get_none (env : Env) (key : string) (w w1 : World) :
  cache_get env key w = (inr None, w1) ->
  WeatherCache.cache (w_cache w1) !! key = None.
Proof.
  unfold cache_get, WeatherCache.get.
  destruct (WeatherCache.cache (w_cache w) !! key) as [entry|] eqn:Hentry.
  - destruct (clock env (w_reads w) - WeatherCache.timestamp entry
              >? WeatherCache.ttl (w_cache w)).
    + intros [= <-]. cbn. apply lookup_delete_eq.
    + discriminate.
  - now intros [= <-].
Qed.

Lemma cache_get_stale (env : Env) (key : string) (w : World)
    (entry : WeatherCache.CacheEntry Payload) :
  WeatherCache.cache (w_cache w) !! key = Some entry ->
  clock env (w_reads w) - WeatherCache.timestamp entry > WeatherCache.ttl (w_cache w) ->
  cache_get env key w
  = (inr None,
     mkWorld (WeatherCache.mkCache (delete key (WeatherCache.cache (w_cache w)))
                (WeatherCache.ttl (w_cache w)))
       (S (w_reads w)) (w_console w) (w_alerts w)).
Proof.
  intros Hentry Hage. unfold cache_get. rewrite Hentry.
  now rewrite (WeatherCache_get_stale _ key entry).
Qed.

(** A snapshot returned after the cache had nothing is stored under the key,
    stamped with the last clock reading made. *)
Lemma fetchWeatherData_success_stored (env : Env) (lat lon : R) (days : nat)
    (w w1 w' : World) (d : OpenMeteoResponse) :
  cache_get env (weatherCacheKey env lat lon days) w = (inr None, w1) ->
  fetchWeatherData env lat lon days w = (inr d, w') ->
  WeatherCache.cache (w_cache w') !! weatherCacheKey env lat lon days
  = Some (WeatherCache.mkEntry (PWeather d) (clock env (pred (w_reads w')))).
Proof.
  intros Hmiss. unfold fetchWeatherData. unfold bind at 1. rewrite Hmiss.
  unfold fetchWeatherDataFromNASA. run.
  destruct (openMeteo env (w_reads w1) lat lon days) as [e0|status body].
  - cbn [w_cache w_reads w_console w_alerts].
    destruct (nasaPower env _ lat lon _ _) as [e1|nstatus nbody]; cbn [fst snd];
      [discriminate|].
    destruct (response_ok nstatus); cbn [negb fst snd]; [|discriminate].
    destruct nbody as [e1|json]; cbn [fst snd]; [discriminate|].
    intros [= <- <-]. cbn [w_cache w_reads pred]. apply WeatherCache_lookup_set.
  - destruct (response_ok status); cbn [negb].
    + destruct body as [e0|data]; cbn [fst snd w_cache w_reads w_console w_alerts].
      * destruct (nasaPower env _ lat lon _ _) as [e1|nstatus nbody]; cbn [fst snd];
          [discriminate|].
        destruct (response_ok nstatus); cbn [negb fst snd]; [|discriminate].
        destruct nbody as [e1|json]; cbn [fst snd]; [discriminate|].
        intros [= <- <-]. cbn [w_cache w_reads pred]. apply WeatherCache_lookup_set.
      * intros [= <- <-]. cbn [w_cache w_reads pred]. apply WeatherCache_lookup_set.
    + cbn [fst snd w_cache w_reads w_console w_alerts].
      destruct (nasaPower env _ lat lon _ _) as [e1|nstatus nbody]; cbn [fst snd];
        [discriminate|].
      destruct (response_ok nstatus); cbn [negb fst snd]; [|discriminate].
      destruct nbody as [e1|json]; cbn [fst snd]; [discriminate|].
      intros [= <- <-]. cbn [w_cache w_reads pred]. apply WeatherCache_lookup_set.
Qed.

Lemma fetchWeatherData_hit (env : Env) (lat lon : R) (days : nat) (w : World)
    (entry : WeatherCache.CacheEntry Payload) :
  WeatherCache.cache (w_cache w) !! weatherCacheKey env lat lon days = Some entry ->
  clock env (w_reads w) - WeatherCache.timestamp entry <= WeatherCache.ttl (w_cache w) ->
  fetchWeatherData env lat lon days w
  = (inr (asWeather (WeatherCache.data entry)),
     mkWorld (w_cache w) (S (w_reads w))
       (w_console w ++ [WeatherCacheHit (weatherCacheKey env lat lon days)])
       (w_alerts w)).
Proof.
  intros Hentry Hage. unfold fetchWeatherData. unfold bind at 1.
  now rewrite (cache_get_fresh env _ w entry Hentry Hage).
Qed.

(** X5. Whatever snapshot [fetchWeatherData] returns after finding nothing
    in the cache, from the primary or from the secondary provider, an
    identical request made next returns the same snapshot from the cache as
    long as the clock then reads no more than the time-to-live past the
    storing: it reads the clock once, makes no request and leaves the cache
    as it is. *)
Theorem fetchWeatherData_repeat_from_cache (env : Env) (lat lon : R) (days : nat)
    (w w1 : World) (d : OpenMeteoResponse) :
  cache_get env (weatherCacheKey env lat lon days) w = (inr None, w1) ->
  fst (fetchWeatherData env lat lon days w) = inr d ->
  let w' := snd (fetchWeatherData env lat lon days w) in
  clock env (w_reads w') - clock env (pred (w_reads w'))
  <= WeatherCache.ttl (w_cache w') ->
  fetchWeatherData env lat lon days w'
  = (inr d,
     mkWorld (w_cache w') (S (w_reads w'))
       (w_console w' ++ [WeatherCacheHit (weatherCacheKey env lat lon days)])
       (w_alerts w')).
Proof.
  intros Hmiss Hret w' Hfresh.
  assert (Hstored :
    WeatherCache.cache (w_cache w') !! weatherCacheKey env lat lon days
    = Some (WeatherCache.mkEntry (PWeather d) (clock env (pred (w_reads w'))))).
  { apply (fetchWeatherData_success_stored env lat lon days w w1 w' d Hmiss).
    unfold w'. rewrite <- Hret. now destruct (fetchWeatherData env lat lon days w). }
  now rewrite (fetchWeatherData_hit env lat lon days w' _ Hstored Hfresh).
Qed.

(** With [primaryDown] the two-day snapshot built from the secondary
    provider is served again from the cache. *)
Lemma fetchWeatherData_repeat_from_cache_witness :
  let first := fetchWeatherData primaryDown (437 / 10) (- 794 / 10) 2 startup in
  fst (fetchWeatherData primaryDown (437 / 10) (- 794 / 10) 2 (snd first)) = fst first
  /\ w_reads (snd (fetchWeatherData primaryDown (437 / 10) (- 794 / 10) 2 (snd first)))
     = S (w_reads (snd first)).
Proof.
  intros first.
  pose proof (fetchWeatherData_repeat_from_cache primaryDown (437 / 10) (- 794 / 10) 2
                startup startup
                (nasaMapped primaryDown (437 / 10) (- 794 / 10) nasaTwoDays
                   1705300000001 2)
                eq_refl) as H.
  cbv zeta in H. fold first in H.
  assert (Hret : fst first
                 = inr (nasaMapped primaryDown (437 / 10) (- 794 / 10) nasaTwoDays
                          1705300000001 2)).
  { unfold first.
    now apply (fetchWeatherData_fallback_succeeds primaryDown (437 / 10) (- 794 / 10) 2
                 startup startup (FetchFailed "ECONNRESET") 200 nasaTwoDays). }
  specialize (H Hret).
  assert (Hworld : snd first
                   = mkWorld
                       (WeatherCache.set 1705300000003
                          (weatherCacheKey primaryDown (437 / 10) (- 794 / 10) 2)
                          (PWeather (nasaMapped primaryDown (437 / 10) (- 794 / 10)
                                       nasaTwoDays 1705300000001 2))
                          weatherCache)
                       4
                       [WeatherApiFetching (437 / 10) (- 794 / 10) 2;
                        WeatherApiError (FetchFailed "ECONNRESET");
                        WeatherApiFallingBack]
                       []).
  { reflexivity. }
  rewrite Hworld in H |- *.
  rewrite H; [|vm_compute; discriminate].
  split; [now rewrite Hret|reflexivity].
Defined.

(** ** What a computation changes of the cache *)

Section Frames.

Context {A B : Type}.
Variable P : string -> Prop.

Lemma frames_ret (a : A) : frames P (ret a).
Proof. now intros w. Qed.

Lemma frames_throw (e : exn) : frames P (@throw A e).
Proof. now intros w. Qed.

Lemma frames_lift (r : exn + A) : frames P (lift r).
Proof. now intros w. Qed.

Lemma frames_reading (oracle : nat -> A) : frames P (reading oracle).
Proof. now intros w. Qed.

Lemma frames_bind (m : M A) (k : A -> M B) :
  frames P m -> (forall a, frames P (k a)) -> frames P (bind m k).
Proof.
  intros Hm Hk w. unfold bind. specialize (Hm w).
  destruct (m w) as [[e|a] w']; cbn [snd] in *.
  - exact Hm.
  - destruct Hm as [Httl Hkeys]. destruct (Hk a w') as [Httl' Hkeys']. split.
    + now rewrite Httl'.
    + intros k0 Hk0. now rewrite Hkeys', Hkeys.
Qed.

Lemma frames_try_catch (body : M A) (handler : exn -> M A) :
  frames P body -> (forall e, frames P (handler e)) ->
  frames P (try_catch body handler).
Proof.
  intros Hm Hk w. unfold try_catch. specialize (Hm w).
  destruct (body w) as [[e|a] w']; cbn [snd] in *.
  - destruct Hm as [Httl Hkeys]. destruct (Hk e w') as [Httl' Hkeys']. split.
    + now rewrite Httl'.
    + intros k0 Hk0. now rewrite Hkeys', Hkeys.
  - exact Hm.
Qed.

Lemma frames_weaken (Q : string -> Prop) (m : M A) :
  (forall k, Q k -> P k) -> frames Q m -> frames P m.
Proof.
  intros Hsub Hm w. destruct (Hm w) as [Httl Hkeys]. split; [exact Httl|].
  intros k Hk. apply Hkeys. intros HQ. apply Hk, Hsub, HQ.
Qed.

End Frames.

Lemma frames_console (P : string -> Prop) (ev : LogEvent) : frames P (console ev).
Proof. now intros w. Qed.

Lemma frames_addAlert (P : string -> Prop) (env : Env) (a : Alert) :
  frames P (addAlert env a).
Proof. now intros w. Qed.

Lemma frames_cache_get (P : string -> Prop) (env : Env) (key : string) :
  P key -> frames P (cache_get env key).
Proof.
  intros HP w. unfold cache_get, WeatherCache.get.
  destruct (WeatherCache.cache (w_cache w) !! key) as [entry|]; [|now split].
  destruct (clock env (w_reads w) - WeatherCache.timestamp entry
            >? WeatherCache.ttl (w_cache w)); cbn; [|now split].
  split; [reflexivity|]. intros k Hk. apply lookup_delete_ne. now intros ->.
Qed.

Lemma frames_cache_set (P : string -> Prop) (env : Env) (key : string) (p : Payload) :
  P key -> frames P (cache_set env key p).
Proof.
  intros HP w. unfold cache_set. cbn. split; [reflexivity|].
  intros k Hk. apply lookup_insert_ne. now intros ->.
Qed.

Ltac frames_step :=
  first
    [ apply frames_bind; [|intros ?]
    | apply frames_try_catch; [|intros ?]
    | apply frames_ret
    | apply frames_throw
    | apply frames_lift
    | apply frames_reading
    | apply frames_console
    | apply frames_addAlert
    | apply frames_cache_get; assumption
    | apply frames_cache_set; assumption
    | match goal with
      | |- frames _ (match ?x with _ => _ end) => destruct x
      | |- frames _ (if ?b then _ else _) => destruct b
      end ].

Lemma frames_fetchWeatherDataFromNASA (P : string -> Prop) (env : Env) (lat lon : R)
    (days : nat) :
  frames P (fetchWeatherDataFromNASA env lat lon days).
Proof. unfold fetchWeatherDataFromNASA. repeat frames_step. Qed.

Lemma frames_fetchWeatherData (P : string -> Prop) (env : Env) (lat lon : R)
    (days : nat) :
  P (weatherCacheKey env lat lon days) ->
  frames P (fetchWeatherData env lat lon days).
Proof.
  intros HP. unfold fetchWeatherData.
  repeat first [apply frames_fetchWeatherDataFromNASA | frames_step].
Qed.

Lemma frames_fetchAirQualityData (P : string -> Prop) (env : Env) (lat lon radius : R) :
  P (airQualityCacheKey env lat lon) ->
  frames P (fetchAirQualityData env lat lon radius).
Proof. intros HP. unfold fetchAirQualityData. repeat frames_step. Qed.

Lemma frames_assessRegion (P : string -> Prop) (env : Env) (lat lon : R) :
  P (weatherCacheKey env lat lon 7) ->
  P (airQualityCacheKey env lat lon) ->
  frames P (assessRegion env lat lon).
Proof.
  intros HPw HPa. unfold assessRegion.
  repeat first [ apply frames_fetchWeatherData; assumption
               | apply frames_fetchAirQualityData; assumption
               | frames_step ].
Qed.

Lemma frames_processFeature (P : string -> Prop) (env : Env) (acc : HighRisk)
    (feature : Feature) :
  (forall k, In k (regionKeys env feature) -> P k) ->
  frames P (processFeature env acc feature).
Proof.
  intros HP. unfold processFeature. unfold regionKeys in HP.
  destruct (geometry feature) as [[[| |] coordinates]|];
    cbn [geometry_type geometry_coordinates] in *;
    try apply frames_ret; try apply frames_throw.
  destruct (getCentroid coordinates) as [lon lat].
  destruct (properties feature) as [p|]; [|apply frames_throw].
  repeat first [ apply frames_assessRegion; apply HP; cbn; tauto | frames_step ].
Qed.

Lemma frames_forEachFeature (P : string -> Prop) (env : Env) (features : list Feature) :
  (forall k, In k (flat_map (regionKeys env) features) -> P k) ->
  forall acc : HighRisk, frames P (forEachFeature env features acc).
Proof.
  induction features as [|feature rest IH]; intros HP acc; cbn [forEachFeature].
  - apply frames_ret.
  - apply frames_bind.
    + apply frames_processFeature. intros k Hk. apply HP. cbn [flat_map].
      apply in_or_app. now left.
    + apply IH. intros k Hk. apply HP. cbn [flat_map]. apply in_or_app. now right.
Qed.

Lemma frames_alertBlock (P : string -> Prop) (env : Env) (t : AlertType)
    (names : list string) :
  frames P (alertBlock env t names).
Proof. unfold alertBlock. repeat frames_step. Qed.

Lemma frames_raiseAlerts (P : string -> Prop) (env : Env) (hr : HighRisk) :
  frames P (raiseAlerts env hr).
Proof. unfold raiseAlerts. repeat first [apply frames_alertBlock | frames_step]. Qed.

(** X6. A call of [fetchWeatherData] changes nothing of the shared cache
    except, at most, the entry under its own key: every entry under another
    key, expired or not, and the time-to-live are after the call what they
    were before it, whether the call returns or throws. *)
Theorem fetchWeatherData_changes_one_entry (env : Env) (lat lon : R) (days : nat)
    (w : World) (k : string) :
  k <> weatherCacheKey env lat lon days ->
  let w' := snd (fetchWeatherData env lat lon days w) in
  WeatherCache.cache (w_cache w') !! k = WeatherCache.cache (w_cache w) !! k
  /\ WeatherCache.ttl (w_cache w') = WeatherCache.ttl (w_cache w).
Proof.
  intros Hk w'.
  destruct (frames_fetchWeatherData (fun k0 => k0 = weatherCacheKey env lat lon days)
              env lat lon days eq_refl w) as [Httl Hkeys].
  split; [now apply Hkeys|exact Httl].
Qed.

Lemma fetchWeatherData_changes_one_entry_witness :
  let w := mkWorld (WeatherCache.set 1705300000000 "other" (PWeather freezingDay)
                      weatherCache) 0 [] [] in
  let w' := snd (fetchWeatherData primaryDown (437 / 10) (- 794 / 10) 2 w) in
  WeatherCache.cache (w_cache w') !! "other"
  = Some (WeatherCache.mkEntry (PWeather freezingDay) 1705300000000)
  /\ WeatherCache.ttl (w_cache w') = 900000.
Proof.
  intros w w'.
  destruct (fetchWeatherData_changes_one_entry primaryDown (437 / 10) (- 794 / 10) 2 w
              "other") as [Hentry Httl].
  - vm_compute. discriminate.
  - fold w' in Hentry, Httl. split.
    + rewrite Hentry. reflexivity.
    + rewrite Httl. reflexivity.
Defined.

(** X7. A call of [fetchAirQualityData] changes nothing of the shared cache
    except, at most, the entry under its own key. *)
Theorem fetchAirQualityData_changes_one_entry (env : Env) (lat lon radius : R)
    (w : World) (k : string) :
  k <> airQualityCacheKey env lat lon ->
  let w' := snd (fetchAirQualityData env lat lon radius w) in
  WeatherCache.cache (w_cache w') !! k = WeatherCache.cache (w_cache w) !! k
  /\ WeatherCache.ttl (w_cache w') = WeatherCache.ttl (w_cache w).
Proof.
  intros Hk w'.
  destruct (frames_fetchAirQualityData (fun k0 => k0 = airQualityCacheKey env lat lon)
              env lat lon radius eq_refl w) as [Httl Hkeys].
  split; [now apply Hkeys|exact Httl].
Qed.

Lemma fetchAirQualityData_changes_one_entry_witness :
  let w := mkWorld (WeatherCache.set 1705300000000 "other" (PWeather freezingDay)
                      weatherCache) 0 [] [] in
  let w' := snd (fetchAirQualityData radiusSensitive 0 0 1000 w) in
  WeatherCache.cache (w_cache w') !! "other"
  = Some (WeatherCache.mkEntry (PWeather freezingDay) 1705300000000)
  /\ WeatherCache.ttl (w_cache w') = 900000.
Proof.
  intros w w'.
  destruct (fetchAirQualityData_changes_one_entry radiusSensitive 0 0 1000 w
              "other") as [Hentry Httl].
  - vm_compute. discriminate.
  - fold w' in Hentry, Httl. split.
    + rewrite Hentry. reflexivity.
    + rewrite Httl. reflexivity.
Defined.

Lemma cache_keys_differ (env : Env) (lat lon lat' lon' : R) (days : nat) :
  weatherCacheKey env lat lon days <> airQualityCacheKey env lat' lon'.
Proof. unfold weatherCacheKey, airQualityCacheKey. cbn. discriminate. Qed.

(** X8. The two services share one cache but never touch each other's
    entries: whatever the coordinates and however the numbers print, a call
    of [fetchWeatherData] leaves every air-quality entry as it was, and a
    call of [fetchAirQualityData] leaves every weather entry as it was. *)
Theorem services_keep_each_others_entries (env : Env) (lat lon radius : R)
    (days : nat) (w : World) (lat' lon' : R) (days' : nat) :
  WeatherCache.cache (w_cache (snd (fetchWeatherData env lat lon days w)))
    !! airQualityCacheKey env lat' lon'
  = WeatherCache.cache (w_cache w) !! airQualityCacheKey env lat' lon'
  /\ WeatherCache.cache (w_cache (snd (fetchAirQualityData env lat lon radius w)))
       !! weatherCacheKey env lat' lon' days'
     = WeatherCache.cache (w_cache w) !! weatherCacheKey env lat' lon' days'.
Proof.
  split.
  - destruct (frames_fetchWeatherData (fun k0 => k0 = weatherCacheKey env lat lon days)
                env lat lon days eq_refl w) as [_ Hkeys].
    apply Hkeys. intros H. symmetry in H. revert H. apply cache_keys_differ.
  - destruct (frames_fetchAirQualityData (fun k0 => k0 = airQualityCacheKey env lat lon)
                env lat lon radius eq_refl w) as [_ Hkeys].
    apply Hkeys. apply cache_keys_differ.
Qed.

(** X9. A run of [calculateDailyRisks] changes nothing of the shared cache
    except, at most, the entries under the forecast and air-quality keys of
    the centroids of the polygons in the neighbourhoods file it reads: all
    other entries and the time-to-live stay, also when regions fail, when a
    feature stops the run or when the file cannot be read. *)
Theorem calculateDailyRisks_cache_footprint (env : Env) (w : World) (k : string) :
  let features :=
    match listedFeatures env (w_reads w) with
    | Some features => features
    | None => []
    end in
  ~ In k (flat_map (regionKeys env) features) ->
  let w' := snd (calculateDailyRisks env w) in
  WeatherCache.cache (w_cache w') !! k = WeatherCache.cache (w_cache w) !! k
  /\ WeatherCache.ttl (w_cache w') = WeatherCache.ttl (w_cache w).
Proof.
  intros features Hk w'. subst w' features.
  rewrite calculateDailyRisks_course.
  destruct (listedFeatures env (w_reads w)) as [fs|]; [|now split].
  destruct (frames_forEachFeature (fun k0 => In k0 (flat_map (regionKeys env) fs))
              env fs (fun k0 H => H) (mkHighRisk [] [] []) (loopStart env w))
    as [Httl Hkeys].
  specialize (Hkeys k Hk).
  destruct (forEachFeature env fs (mkHighRisk [] [] []) (loopStart env w))
    as [[e|hr] w1]; cbn [snd] in *.
  - now split.
  - destruct (frames_raiseAlerts (fun k0 => In k0 (flat_map (regionKeys env) fs))
                env hr w1) as [Httl' Hkeys'].
    split; [now rewrite Hkeys'|now rewrite Httl'].
Qed.

Lemma calculateDailyRisks_cache_footprint_witness :
  let w := mkWorld (WeatherCache.set 1705300000000 "other" (PWeather freezingDay)
                      weatherCache) 0 [] [] in
  let w' := snd (calculateDailyRisks heatwave w) in
  WeatherCache.cache (w_cache w') !! "other"
  = Some (WeatherCache.mkEntry (PWeather freezingDay) 1705300000000)
  /\ WeatherCache.ttl (w_cache w') = 900000.
Proof.
  intros w w'.
  destruct (calculateDailyRisks_cache_footprint heatwave w "other") as [Hentry Httl].
  - vm_compute. intuition discriminate.
  - fold w' in Hentry, Httl. split.
    + rewrite Hentry. reflexivity.
    + rewrite Httl. reflexivity.
Defined.

(** ** What a failed request leaves in the cache *)

(** X10. An expired forecast is never served, even when no provider can be
    reached: if the entry under the key is older than the time-to-live and
    both providers fail, [fetchWeatherData] throws the primary provider's
    error and the expired entry is gone from the cache. *)
Theorem fetchWeatherData_expired_not_served (env : Env) (lat lon : R) (days : nat)
    (w : World) (entry : WeatherCache.CacheEntry Payload) (e e' : exn) :
  WeatherCache.cache (w_cache w) !! weatherCacheKey env lat lon days = Some entry ->
  clock env (w_reads w) - WeatherCache.timestamp entry > WeatherCache.ttl (w_cache w) ->
  let n := S (w_reads w) in
  let today := clock env (S n) in
  primaryFailure (openMeteo env n lat lon days) = Some e ->
  secondaryFailure
    (nasaPower env (S (S n)) lat lon
       (formatYMD env today 0) (formatYMD env today (Nat.max 0 (days - 1))))
  = Some e' ->
  let out := fetchWeatherData env lat lon days w in
  fst out = inl e
  /\ WeatherCache.cache (w_cache (snd out)) !! weatherCacheKey env lat lon days = None.
Proof.
  intros Hentry Hage n today Hprimary Hsecondary out.
  pose proof (cache_get_stale env _ w entry Hentry Hage) as Hget.
  pose proof (fetchWeatherData_both_fail env lat lon days w _ e e' Hget
                Hprimary Hsecondary) as Hrun.
  subst out. rewrite Hrun. cbn [fst snd w_cache]. split; [reflexivity|].
  cbn. apply lookup_delete_eq.
Qed.

Lemma fetchWeatherData_expired_not_served_witness :
  fst (fetchWeatherData outage 0 0 0 staleForecast) = inl (OpenMeteoApiError 500)
  /\ WeatherCache.cache (w_cache (snd (fetchWeatherData outage 0 0 0 staleForecast)))
       !! "weather_0_0_0" = None.
Proof.
  apply (fetchWeatherData_expired_not_served outage 0 0 0 staleForecast
           (WeatherCache.mkEntry (PWeather freezingDay) 1705200000000)
           (OpenMeteoApiError 500) (NasaPowerApiError 503)).
  - reflexivity.
  - vm_compute. reflexivity.
  - reflexivity.
  - reflexivity.
Defined.

(** X11. After a lookup that found nothing in the cache,
    [fetchAirQualityData] leaves under its key exactly the snapshots that
    name a station: a snapshot with a station, also one whose pollutant
    fields are all absent, is stored with the time of the last clock reading;
    the no-data snapshot is never stored, so the next identical request asks
    the service again. *)
Theorem fetchAirQualityData_stores_station_snapshots (env : Env)
    (lat lon radius : R) (w w1 : World) :
  cache_get env (airQualityCacheKey env lat lon) w = (inr None, w1) ->
  let out := fetchAirQualityData env lat lon radius w in
  exists a : AirQualityData,
    fst out = inr a
    /\ WeatherCache.cache (w_cache (snd out)) !! airQualityCacheKey env lat lon
       = match station a with
         | Some _ =>
             Some (WeatherCache.mkEntry (PAir a) (clock env (pred (w_reads (snd out)))))
         | None => None
         end.
Proof.
  intros Hmiss out. subst out.
  pose proof (cache_get_none env _ w w1 Hmiss) as Hnone.
  destruct (fetchAirQualityData env lat lon radius w) as [r wf] eqn:Hrun.
  cbn [fst snd]. revert Hrun.
  unfold fetchAirQualityData. unfold bind at 1. rewrite Hmiss. run.
  destruct (openaqLocations env (w_reads w1) lat lon radius) as [e|status body].
  { intros [= <- <-]. now exists getFallbackAirQuality. }
  destruct (response_ok status); cbn [negb].
  2:{ intros [= <- <-]. now exists getFallbackAirQuality. }
  destruct body as [e|[[|first rest]|]].
  1,2,4: intros [= <- <-]; now exists getFallbackAirQuality.
  destruct (nearestStationOf lat lon first (first :: rest)) as [s d].
  cbn [fst snd w_cache w_reads w_console w_alerts].
  destruct (openaqMeasurements env (S (w_reads w1)) (id s)) as [e|mstatus mbody].
  { intros [= <- <-]. now exists getFallbackAirQuality. }
  destruct (response_ok mstatus).
  - destruct mbody as [e|[ms|]].
    + intros [= <- <-]. now exists getFallbackAirQuality.
    + destruct (fold_left measurementStep ms (None, None, None)) as [[pm25 pm10] no2].
      intros [= <- <-]. eexists. split; [reflexivity|].
      cbn [station w_cache w_reads pred]. apply WeatherCache_lookup_set.
    + intros [= <- <-]. now exists getFallbackAirQuality.
  - intros [= <- <-]. eexists. split; [reflexivity|].
    cbn [station w_cache w_reads pred]. apply WeatherCache_lookup_set.
Qed.

Lemma fetchAirQualityData_stores_station_snapshots_witness :
  exists a : AirQualityData,
    fst (fetchAirQualityData outage 0 0 50000 startup) = inr a
    /\ WeatherCache.cache (w_cache (snd (fetchAirQualityData outage 0 0 50000 startup)))
         !! airQualityCacheKey outage 0 0
       = match station a with
         | Some _ =>
             Some (WeatherCache.mkEntry (PAir a)
                     (clock outage
                        (pred (w_reads (snd (fetchAirQualityData outage 0 0 50000
                                               startup))))))
         | None => None
         end.
Proof.
  apply (fetchAirQualityData_stores_station_snapshots outage 0 0 50000 startup startup).
  reflexivity.
Defined.

(** ** The readings taken from the measurements *)

Lemma measurementStep_first (m : OpenAQMeasurement) (pm25 pm10 no2 : option Q) :
  measurementStep (pm25, pm10, no2) m
  = (match pm25 with Some v => Some v | None => firstReading "pm25" [m] end,
     match pm10 with Some v => Some v | None => firstReading "pm10" [m] end,
     match no2 with Some v => Some v | None => firstReading "no2" [m] end).
Proof.
  unfold measurementStep, firstReading. cbn [find].
  generalize (parameter m) as p. intros p.
  destruct (String.eqb_spec p "pm25") as [->|H25];
    [|destruct (String.eqb_spec p "pm10") as [->|H10];
      [|destruct (String.eqb_spec p "no2") as [->|H2]]];
    destruct pm25, pm10, no2; repeat case_bool_decide;
    try discriminate; try congruence; try reflexivity.
Qed.

Lemma measurementStep_fold (ms : list OpenAQMeasurement) :
  forall pm25 pm10 no2 : option Q,
    fold_left measurementStep ms (pm25, pm10, no2)
    = (match pm25 with Some v => Some v | None => firstReading "pm25" ms end,
       match pm10 with Some v => Some v | None => firstReading "pm10" ms end,
       match no2 with Some v => Some v | None => firstReading "no2" ms end).
Proof.
  induction ms as [|m rest IH]; intros pm25 pm10 no2; cbn [fold_left].
  - now destruct pm25, pm10, no2.
  - rewrite measurementStep_first, IH. unfold firstReading. cbn [find].
    destruct pm25, pm10, no2;
      destruct (String.eqb (parameter m) "pm25"),
               (String.eqb (parameter m) "pm10"),
               (String.eqb (parameter m) "no2"); reflexivity.
Qed.

(** X12. When the station listing and the measurements request both succeed,
    each pollutant field of the snapshot is the value of the first listed
    measurement of that parameter, or absent when the list has none: later
    measurements of the same parameter and measurements of other parameters
    are ignored. *)
Theorem fetchAirQualityData_first_readings (env : Env) (lat lon radius : R)
    (w w1 : World) (status : Z) (first : OpenAQLocation) (rest : list OpenAQLocation)
    (mstatus : Z) (ms : list OpenAQMeasurement) :
  cache_get env (airQualityCacheKey env lat lon) w = (inr None, w1) ->
  let n := w_reads w1 in
  openaqLocations env n lat lon radius = Response status (inr (Some (first :: rest))) ->
  response_ok status = true ->
  let out := nearestStationOf lat lon first (first :: rest) in
  openaqMeasurements env (S n) (id (fst out)) = Response mstatus (inr (Some ms)) ->
  response_ok mstatus = true ->
  fst (fetchAirQualityData env lat lon radius w)
  = inr (mkAirQualityData (firstReading "pm25" ms) (firstReading "pm10" ms)
           (firstReading "no2" ms) (Some (name (fst out))) (Some (snd out))).
Proof.
  intros Hmiss n Hreply Hok out Hmeasure Hmok.
  rewrite (fetchAirQualityData_miss env lat lon radius w w1 Hmiss).
  unfold resolvedAirQuality. fold n. rewrite Hreply, Hok. fold out.
  unfold stationSnapshot. rewrite Hmeasure, Hmok.
  now rewrite measurementStep_fold.
Qed.

Lemma fetchAirQualityData_first_readings_witness :
  fst (fetchAirQualityData measurementsListed 0 0 50000 startup)
  = inr (mkAirQualityData (Some (25 # 2)%Q) (Some 30%Q) (Some 17%Q)
           (Some (name (fst (nearestStationOf 0 0 midtown [midtown]))))
           (Some (snd (nearestStationOf 0 0 midtown [midtown])))).
Proof.
  apply (fetchAirQualityData_first_readings measurementsListed 0 0 50000
           startup startup 200 midtown [] 200 midtownReadings);
    reflexivity.
Defined.

(** ** The distance between two points *)

Lemma Math_atan2_zero_one : Math_atan2 0 1 = 0%R.
Proof.
  unfold Math_atan2. destruct (Rlt_dec 0 1) as [_|H]; [|lra].
  replace (0 / 1)%R with 0%R by lra. apply atan_0.
Qed.

(** The quantity [a] of [calculateDistance]. *)
Lemma calculateDistance_haversine (lat1 lon1 lat2 lon2 : R) :
  calculateDistance lat1 lon1 lat2 lon2
  = (let a :=
       sin ((lat2 - lat1) * PI / 180 / 2) * sin ((lat2 - lat1) * PI / 180 / 2) +
       cos (lat1 * PI / 180) * cos (lat2 * PI / 180) *
       sin ((lon2 - lon1) * PI / 180 / 2) * sin ((lon2 - lon1) * PI / 180 / 2) in
     6371 * (2 * Math_atan2 (sqrt a) (sqrt (1 - a))))%R.
Proof. reflexivity. Qed.

(** X13. [calculateDistance] gives 0 from a point to itself, and the same
    distance in both directions. *)
Theorem calculateDistance_zero_symmetric (lat1 lon1 lat2 lon2 : R) :
  calculateDistance lat1 lon1 lat1 lon1 = 0%R
  /\ calculateDistance lat1 lon1 lat2 lon2 = calculateDistance lat2 lon2 lat1 lon1.
Proof.
  split.
  - rewrite calculateDistance_haversine. cbv zeta.
    replace ((lat1 - lat1) * PI / 180 / 2)%R with 0%R by lra.
    replace ((lon1 - lon1) * PI / 180 / 2)%R with 0%R by lra.
    rewrite sin_0.
    replace (0 * 0 + cos (lat1 * PI / 180) * cos (lat1 * PI / 180) * 0 * 0)%R
      with 0%R by ring.
    rewrite sqrt_0. replace (1 - 0)%R with 1%R by lra. rewrite sqrt_1.
    rewrite Math_atan2_zero_one. ring.
  - rewrite !calculateDistance_haversine. cbv zeta.
    replace ((lat1 - lat2) * PI / 180 / 2)%R
      with (- ((lat2 - lat1) * PI / 180 / 2))%R by lra.
    replace ((lon1 - lon2) * PI / 180 / 2)%R
      with (- ((lon2 - lon1) * PI / 180 / 2))%R by lra.
    rewrite !sin_neg.
    set (s1 := sin ((lat2 - lat1) * PI / 180 / 2)).
    set (s2 := sin ((lon2 - lon1) * PI / 180 / 2)).
    set (c1 := cos (lat1 * PI / 180)). set (c2 := cos (lat2 * PI / 180)).
    replace (- s1 * - s1 + c2 * c1 * - s2 * - s2)%R
      with (s1 * s1 + c1 * c2 * s2 * s2)%R by ring.
    reflexivity.
Qed.

Lemma Math_atan2_quadrant (y x : R) :
  (0 <= y)%R -> (0 <= x)%R -> (0 <= Math_atan2 y x <= PI / 2)%R.
Proof.
  intros Hy Hx. pose proof PI_RGT_0 as Hpi. unfold Math_atan2.
  destruct (Rlt_dec 0 x) as [Hpos|Hnpos].
  - assert (Hq : (0 <= y / x)%R).
    { apply Rmult_le_pos; [exact Hy|]. now apply Rlt_le, Rinv_0_lt_compat. }
    pose proof (atan_bound (y / x)) as [_ Hup]. split; [|lra].
    destruct Hq as [Hq|<-].
    + apply Rlt_le. rewrite <- atan_0. now apply atan_increasing.
    + rewrite atan_0. lra.
  - destruct (Rlt_dec x 0) as [Hneg|_]; [lra|].
    destruct (Rlt_dec 0 y) as [_|_]; [lra|].
    destruct (Rlt_dec y 0) as [Hneg|_]; lra.
Qed.

Lemma haversine_bounds (u v s : R) :
  (0 <= cos u)%R -> (0 <= cos v)%R -> (s * s <= 1)%R ->
  (0 <= sin ((v - u) / 2) * sin ((v - u) / 2) + cos u * cos v * s * s <= 1)%R.
Proof.
  intros Hu Hv Hs.
  set (x := ((v - u) / 2)%R).
  assert (Hs0 : (0 <= s * s)%R) by nra.
  assert (Hx0 : (0 <= sin x * sin x)%R) by nra.
  assert (Hcc : (0 <= cos u * cos v)%R) by nra.
  split; [nra|].
  assert (Hhalf : (sin x * sin x = (1 - cos (v - u)) / 2)%R).
  { replace (v - u)%R with (2 * x)%R by (unfold x; lra).
    rewrite cos_2a_sin. lra. }
  rewrite Hhalf, cos_minus.
  pose proof (COS_bound (u + v)) as [_ Hsum]. rewrite cos_plus in Hsum.
  nra.
Qed.

(** X14. Between two points whose latitudes are between -90 and 90 degrees,
    [calculateDistance] is at least 0 and at most half the circumference of
    a sphere of radius 6371 km. *)
Theorem calculateDistance_range (lat1 lon1 lat2 lon2 : R) :
  (-90 <= lat1 <= 90)%R -> (-90 <= lat2 <= 90)%R ->
  (0 <= calculateDistance lat1 lon1 lat2 lon2 <= 6371 * PI)%R.
Proof.
  intros H1 H2. pose proof PI_RGT_0 as Hpi.
  rewrite calculateDistance_haversine. cbv zeta.
  set (s := sin ((lon2 - lon1) * PI / 180 / 2)).
  set (u := (lat1 * PI / 180)%R). set (v := (lat2 * PI / 180)%R).
  replace ((lat2 - lat1) * PI / 180 / 2)%R with ((v - u) / 2)%R by (unfold u, v; lra).
  assert (Hu : (0 <= cos u)%R) by (apply cos_ge_0; unfold u; nra).
  assert (Hv : (0 <= cos v)%R) by (apply cos_ge_0; unfold v; nra).
  assert (Hs : (s * s <= 1)%R).
  { pose proof (SIN_bound ((lon2 - lon1) * PI / 180 / 2)) as [Hlo Hhi]. fold s in Hlo, Hhi.
    nra. }
  destruct (haversine_bounds u v s Hu Hv Hs) as [Hlo Hhi].
  set (a := (sin ((v - u) / 2) * sin ((v - u) / 2) + cos u * cos v * s * s)%R) in *.
  destruct (Math_atan2_quadrant (sqrt a) (sqrt (1 - a))) as [Hc0 Hc1];
    [apply sqrt_pos|apply sqrt_pos|].
  split; nra.
Qed.

Lemma calculateDistance_range_witness :
  (0 <= calculateDistance (437 / 10) (- 794 / 10) (4365 / 100) (- 7940 / 100)
   <= 6371 * PI)%R.
Proof. apply calculateDistance_range; lra. Defined.

(** ** The centroid of a region *)

Lemma getCentroid_ring (ring : list (R * R)) :
  forall (sumLat sumLon : R) (count : nat),
    fold_left
      (fun '(sumLat, sumLon, count) coord =>
         ((sumLat + snd coord)%R, (sumLon + fst coord)%R, S count))
      ring (sumLat, sumLon, count)
    = ((sumLat + Rsum (map snd ring))%R, (sumLon + Rsum (map fst ring))%R,
       (count + length ring)%nat).
Proof.
  induction ring as [|coord ring IH]; intros sumLat sumLon count; cbn [fold_left].
  - cbn. f_equal; [f_equal; lra|lia].
  - rewrite IH. cbn [map Rsum length]. f_equal; [f_equal; lra|lia].
Qed.

Lemma Rsum_app (l l' : list R) : Rsum (l ++ l') = (Rsum l + Rsum l')%R.
Proof.
  induction l as [|x l IH]; cbn [app Rsum].
  - lra.
  - rewrite IH. lra.
Qed.

Lemma getCentroid_rings (rings : list (list (R * R))) :
  forall (sumLat sumLon : R) (count : nat),
    fold_left
      (fun acc ring =>
         fold_left
           (fun '(sumLat, sumLon, count) coord =>
              ((sumLat + snd coord)%R, (sumLon + fst coord)%R, S count))
           ring acc)
      rings (sumLat, sumLon, count)
    = ((sumLat + Rsum (map snd (concat rings)))%R,
       (sumLon + Rsum (map fst (concat rings)))%R,
       (count + length (concat rings))%nat).
Proof.
  induction rings as [|ring rings IH]; intros sumLat sumLon count; cbn [fold_left concat].
  - cbn. f_equal; [f_equal; lra|lia].
  - rewrite getCentroid_ring, IH, !map_app, !Rsum_app, length_app.
    f_equal; [f_equal; lra|lia].
Qed.

Lemma getCentroid_mean (rings : list (list (R * R))) :
  getCentroid rings
  = (population_mean (map fst (concat rings)),
     population_mean (map snd (concat rings))).
Proof.
  unfold getCentroid. rewrite getCentroid_rings. unfold population_mean.
  rewrite !length_map, !Rplus_0_l. reflexivity.
Qed.

Lemma Rsum_bounds (lo hi : R) (l : list R) :
  (forall x, In x l -> (lo <= x <= hi)%R) ->
  (INR (length l) * lo <= Rsum l <= INR (length l) * hi)%R.
Proof.
  induction l as [|x l IH]; intros Hall.
  - cbn. lra.
  - cbn [Rsum length]. rewrite S_INR.
    pose proof (Hall x (or_introl eq_refl)) as Hx.
    assert (Hrest : forall y, In y l -> (lo <= y <= hi)%R)
      by (intros y Hy; apply Hall; now right).
    specialize (IH Hrest). lra.
Qed.

Lemma population_mean_bounds (lo hi : R) (l : list R) :
  l <> [] ->
  (forall x, In x l -> (lo <= x <= hi)%R) ->
  (lo <= population_mean l <= hi)%R.
Proof.
  intros Hne Hall. unfold population_mean.
  pose proof (Rsum_bounds lo hi l Hall) as [Hlo Hhi].
  assert (Hn : (0 < INR (length l))%R).
  { apply lt_0_INR. destruct l; [contradiction|cbn; lia]. }
  split.
  - apply Rmult_le_reg_r with (INR (length l)); [exact Hn|].
    unfold Rdiv. rewrite Rmult_assoc, Rinv_l by lra. lra.
  - apply Rmult_le_reg_r with (INR (length l)); [exact Hn|].
    unfold Rdiv. rewrite Rmult_assoc, Rinv_l by lra. lra.
Qed.

(** X15. [getCentroid] returns the mean longitude and the mean latitude of
    all the vertices of all the rings, outer boundary and holes alike, each
    vertex counted as often as it is listed; for a region with at least one
    vertex the point lies in the bounding box of the vertices. *)
Theorem getCentroid_in_bounding_box (rings : list (list (R * R)))
    (west east south north : R) :
  concat rings <> [] ->
  (forall v : R * R,
     In v (concat rings) ->
     (west <= fst v <= east)%R /\ (south <= snd v <= north)%R) ->
  getCentroid rings = getCentroid [concat rings]
  /\ getCentroid rings
     = (population_mean (map fst (concat rings)),
        population_mean (map snd (concat rings)))
  /\ (west <= fst (getCentroid rings) <= east)%R
  /\ (south <= snd (getCentroid rings) <= north)%R.
Proof.
  intros Hne Hbox. split; [|split].
  - rewrite !getCentroid_mean. cbn [concat]. now rewrite app_nil_r.
  - apply getCentroid_mean.
  - rewrite getCentroid_mean. cbn [fst snd]. split.
    + apply population_mean_bounds.
      * intros Hnil. apply Hne. now apply map_eq_nil in Hnil.
      * intros x Hx. apply in_map_iff in Hx as (v & <- & Hv). now apply Hbox.
    + apply population_mean_bounds.
      * intros Hnil. apply Hne. now apply map_eq_nil in Hnil.
      * intros x Hx. apply in_map_iff in Hx as (v & <- & Hv). now apply Hbox.
Qed.

Lemma getCentroid_in_bounding_box_witness :
  let outline :=
    [[((- 7940 / 100)%R, (4365 / 100)%R); ((- 7938 / 100)%R, (4367 / 100)%R)]] in
  geometry riverside = Some (mkGeometry Polygon outline)
  /\ (- 7940 / 100 <= fst (getCentroid outline) <= - 7938 / 100)%R
  /\ (4365 / 100 <= snd (getCentroid outline) <= 4367 / 100)%R.
Proof.
  intros outline. split; [reflexivity|].
  apply (getCentroid_in_bounding_box outline
           (- 7940 / 100) (- 7938 / 100) (4365 / 100) (4367 / 100)).
  - discriminate.
  - intros v [<-|[<-|[]]]; cbn [fst snd]; lra.
Defined.

(** ** Runs of the scheduler *)

Lemma processFeature_other_geometry (env : Env) (acc : HighRisk) (feature : Feature) :
  skipped feature = true -> processFeature env acc feature = ret acc.
Proof.
  unfold skipped, processFeature.
  now destruct (geometry feature) as [[[| |] coordinates]|].
Qed.

(** X16. The loop over the regions passes over every feature whose geometry
    is of another type than a polygon without any effect: it returns the
    same sets, or throws the same error, and leaves the same world as the
    loop over the other features of the file alone. *)
Theorem forEachFeature_skips_other_geometries (env : Env) (features : list Feature)
    (acc : HighRisk) (w : World) :
  forEachFeature env features acc w
  = forEachFeature env (List.filter (fun feature => negb (skipped feature)) features)
      acc w.
Proof.
  revert acc w.
  induction features as [|feature rest IH]; intros acc w; [reflexivity|].
  cbn [forEachFeature List.filter].
  destruct (skipped feature) eqn:Hskipped; cbn [negb].
  - rewrite (processFeature_other_geometry env acc feature Hskipped).
    unfold bind, ret. apply IH.
  - cbn [forEachFeature]. unfold bind.
    destruct (processFeature env acc feature w) as [[e|acc'] w']; [reflexivity|].
    apply IH.
Qed.

Lemma forEachFeature_no_polygon (env : Env) (features : list Feature)
    (acc : HighRisk) (w : World) :
  (forall feature, In feature features -> skipped feature = true) ->
  forEachFeature env features acc w = (inr acc, w).
Proof.
  intros Hnone.
  induction features as [|feature rest IH]; [reflexivity|].
  cbn [forEachFeature].
  rewrite (processFeature_other_geometry env acc feature)
    by (apply Hnone; now left).
  unfold bind, ret. apply IH. intros f Hf. apply Hnone. now right.
Qed.

(** X17. A run that has nothing to assess, because the neighbourhoods file
    cannot be read, has no list of features or lists only features with a
    geometry of another type than a polygon, reads the file and nothing
    else: it makes no request, leaves the cache as it is, stores no alert,
    and returns normally. After the line of its start the console shows the
    completion, preceded by the storage's report of the error when the file
    could not be read; or, when the list of features is missing, the error
    of the run and no completion. *)
Theorem calculateDailyRisks_nothing_to_assess (env : Env) (w : World) :
  match neighborhoodsFile env (w_reads w) with
  | inr (Some features) =>
      forall feature, In feature features -> skipped feature = true
  | _ => True
  end ->
  calculateDailyRisks env w
  = (inr tt,
     mkWorld (w_cache w) (S (w_reads w))
       (w_console w
        ++ SchedulerRunning :: idleRunEnd (neighborhoodsFile env (w_reads w)))
       (w_alerts w)).
Proof.
  intros Hfile. rewrite calculateDailyRisks_course.
  unfold listedFeatures, loopStart, storageLines, idleRunEnd.
  destruct (neighborhoodsFile env (w_reads w)) as [e|[features|]].
  - cbn [forEachFeature]. unfold ret, raiseAlerts, alertBlock, bind, console. cbn.
    now rewrite <- !List.app_assoc.
  - rewrite (forEachFeature_no_polygon env features _ _ Hfile).
    unfold raiseAlerts, alertBlock, bind, ret, console. cbn.
    now rewrite <- !List.app_assoc.
  - unfold console. cbn. now rewrite <- !List.app_assoc.
Qed.

Lemma calculateDailyRisks_nothing_to_assess_witness :
  calculateDailyRisks noPolygons startup
  = (inr tt, mkWorld weatherCache 1 [SchedulerRunning; SchedulerCompleted] [])
  /\ calculateDailyRisks unreadableFile startup
     = (inr tt,
        mkWorld weatherCache 1
          [SchedulerRunning;
           StorageErrorLoadingNeighborhoods
             (FileError "Unexpected end of JSON input");
           SchedulerCompleted] []).
Proof.
  split.
  - apply (calculateDailyRisks_nothing_to_assess noPolygons startup).
    intros feature [<-|[<-|[]]]; reflexivity.
  - apply (calculateDailyRisks_nothing_to_assess unreadableFile startup).
    exact I.
Defined.

(** X18. A region's assessment can fail in three ways only: the weather
    fetch throws, the forecast it returned has no daily or no hourly section,
    or the risk engine throws on the processed weather and the air-quality
    snapshot; the air-quality lookup is never the cause. *)
Theorem assessRegion_failure_sources (env : Env) (lat lon : R) (w : World) (e : exn) :
  fst (assessRegion env lat lon w) = inl e ->
  fst (fetchWeatherData env lat lon 7 w) = inl e
  \/ (exists data : OpenMeteoResponse,
        fst (fetchWeatherData env lat lon 7 w) = inr data
        /\ (daily data = None \/ hourly data = None)
        /\ e = InvalidWeatherData)
  \/ (exists (data : OpenMeteoResponse) (weather : WeatherData)
             (airQuality : AirQualityData) (now : string),
        fst (fetchWeatherData env lat lon 7 w) = inr data
        /\ processWeatherForRisk data 0 = inr weather
        /\ fst (fetchAirQualityData env lat lon 50000
                  (snd (fetchWeatherData env lat lon 7 w))) = inr airQuality
        /\ calculateCompleteRisk env weather airQuality 0 0 now = inl e).
Proof.
  unfold assessRegion. unfold bind at 1.
  destruct (fetchWeatherData env lat lon 7 w) as [[e0|data] w1]; cbn [fst snd].
  - intros [= ->]. now left.
  - unfold bind at 1. unfold lift at 1.
    destruct (processWeatherForRisk data 0) as [e1|weather] eqn:Hprocess.
    + intros [= ->]. right. left. exists data. split; [reflexivity|].
      unfold processWeatherForRisk in Hprocess.
      destruct (daily data), (hourly data); try discriminate;
        injection Hprocess as <-; (split; [|reflexivity]); auto.
    + unfold bind at 1.
      destruct (cache_get_returns env (airQualityCacheKey env lat lon) w1)
        as ([p|] & w2 & Hget).
      * pose proof (fetchAirQualityData_hit env lat lon 50000 w1 w2 p Hget) as Hair.
        destruct (fetchAirQualityData env lat lon 50000 w1) as [[e2|a] w3];
          cbn [fst] in Hair; [discriminate|].
        unfold bind, reading, lift. cbn [fst]. intros Hengine.
        right. right. exists data, weather, a. eexists.
        split; [reflexivity|]. split; [exact Hprocess|]. split; [reflexivity|].
        exact Hengine.
      * pose proof (fetchAirQualityData_miss env lat lon 50000 w1 w2 Hget) as Hair.
        destruct (fetchAirQualityData env lat lon 50000 w1) as [[e2|a] w3];
          cbn [fst] in Hair; [discriminate|].
        unfold bind, reading, lift. cbn [fst]. intros Hengine.
        right. right. exists data, weather, a. eexists.
        split; [reflexivity|]. split; [exact Hprocess|]. split; [reflexivity|].
        exact Hengine.
Qed.

Lemma assessRegion_failure_sources_witness :
  fst (fetchWeatherData outage 0 0 7 startup) = inl (OpenMeteoApiError 500)
  \/ (exists data : OpenMeteoResponse,
        fst (fetchWeatherData outage 0 0 7 startup) = inr data
        /\ (daily data = None \/ hourly data = None)
        /\ OpenMeteoApiError 500 = InvalidWeatherData)
  \/ (exists (data : OpenMeteoResponse) (weather : WeatherData)
             (airQuality : AirQualityData) (now : string),
        fst (fetchWeatherData outage 0 0 7 startup) = inr data
        /\ processWeatherForRisk data 0 = inr weather
        /\ fst (fetchAirQualityData outage 0 0 50000
                  (snd (fetchWeatherData outage 0 0 7 startup))) = inr airQuality
        /\ calculateCompleteRisk outage weather airQuality 0 0 now
           = inl (OpenMeteoApiError 500)).
Proof.
  apply (assessRegion_failure_sources outage 0 0 startup (OpenMeteoApiError 500)).
  reflexivity.
Defined.

(** ** The fallback forecast in the risk assessment *)

Lemma js_index_of_nat {A : Type} (a : list A) (i : nat) :
  js_index a (Z.of_nat i) = nth_error a i.
Proof.
  unfold js_index. destruct (Z.ltb_spec (Z.of_nat i) 0) as [H|_]; [lia|].
  now rewrite Nat2Z.id.
Qed.

(** X19. When the forecast comes from the secondary provider, the weather
    [processWeatherForRisk] hands to the risk engine for a day of the
    forecast has humidity 50, and its wind speed is that day's [WS2M] value
    only when the provider gives one other than zero: a day without a wind
    value, which the fallback forecast lists as 0, is assessed with wind
    speed 10. *)
Theorem processWeatherForRisk_fallback_day (env : Env) (lat lon : R)
    (json : NasaJson) (today : Z) (days day : nat) :
  (day < days)%nat ->
  exists weather : WeatherData,
    processWeatherForRisk (nasaMapped env lat lon json today days) (Z.of_nat day)
    = inr weather
    /\ humidity weather = 50%Q
    /\ windSpeed weather
       = match nasaParam (nasaParameterObj json) "WS2M" (formatYMD env today day) with
         | Some ws => if Qeq_bool ws 0 then 10%Q else ws
         | None => 10%Q
         end.
Proof.
  intros Hday.
  destruct (nasaMapped_shape env lat lon json today days)
    as (h & d & Hh & Hd & _ & (Hlen & _) & Hcells).
  destruct (Hcells day 0%nat Hday ltac:(lia))
    as (tmax & tmin & pr & t & p & _ & _ & _ & _ & _ & Hhum & Hwind & _).
  rewrite Nat.add_0_r in Hhum, Hwind.
  unfold processWeatherForRisk. rewrite Hd, Hh. eexists. split; [reflexivity|].
  cbn [humidity windSpeed]. rewrite Hlen.
  replace (Z.min (Z.of_nat day * 24) (Z.of_nat (days * 24) - 1))
    with (Z.of_nat (day * 24)) by lia.
  rewrite !js_index_of_nat, Hhum, Hwind. split; [reflexivity|].
  unfold js_or.
  now destruct (nasaParam (nasaParameterObj json) "WS2M" (formatYMD env today day)).
Qed.

(** With [nasaTwoDays] the second day has no wind value. *)
Lemma processWeatherForRisk_fallback_day_witness :
  exists weather : WeatherData,
    processWeatherForRisk (nasaMapped primaryDown 0 0 nasaTwoDays 1705300000001 2) 1
    = inr weather
    /\ humidity weather = 50%Q
    /\ windSpeed weather = 10%Q.
Proof.
  destruct (processWeatherForRisk_fallback_day primaryDown 0 0 nasaTwoDays
              1705300000001 2 1 ltac:(lia)) as (weather & Hrun & Hhum & Hwind).
  exists weather. split; [exact Hrun|]. split; [exact Hhum|].
  rewrite Hwind. reflexivity.
Defined.

(** ** Emptying the cache *)

(** X20. After [clear()] every lookup returns [null], whatever the key and
    the time, and changes nothing; the time-to-live is kept, so that an
    entry stored afterwards is served until it is older than the
    time-to-live of the cache before the clearing. *)
Theorem WeatherCache_clear_forgets {T : Type} (c : WeatherCache.t T) (k : string)
    (v : T) (now later : Z) :
  WeatherCache.get now k (WeatherCache.clear c) = (None, WeatherCache.clear c)
  /\ WeatherCache.ttl (WeatherCache.clear c) = WeatherCache.ttl c
  /\ fst (WeatherCache.get later k (WeatherCache.set now k v (WeatherCache.clear c)))
     = (if later - now >? WeatherCache.ttl c then None else Some v).
Proof.
  split; [|split].
  - unfold WeatherCache.get, WeatherCache.clear. cbn [WeatherCache.cache].
    now rewrite lookup_empty.
  - reflexivity.
  - unfold WeatherCache.get. rewrite WeatherCache_lookup_set.
    cbn [WeatherCache.timestamp WeatherCache.data WeatherCache.ttl
         WeatherCache.set WeatherCache.clear].
    now destruct (later - now >? WeatherCache.ttl c).
Qed.

(** ** The two versions of the weather client *)

(** X21. The weather client with the fallback extends the one without:
    wherever the version of server/services/weatherService.ts returns a
    forecast, the version with the fallback returns the same forecast and
    leaves the same cache, console and count of readings; where the former
    throws, the latter throws the same error or returns a forecast mapped
    from the secondary provider. *)
Theorem fetchWeatherData_extends_direct (env : Env) (lat lon : R) (days : nat)
    (w : World) :
  match fst (WeatherServiceDirect.fetchWeatherData env lat lon days w) with
  | inr _ =>
      fetchWeatherData env lat lon days w
      = WeatherServiceDirect.fetchWeatherData env lat lon days w
  | inl e =>
      match fst (fetchWeatherData env lat lon days w) with
      | inl e' => e' = e
      | inr data =>
          exists (json : NasaJson) (today : Z),
            data = nasaMapped env lat lon json today days
      end
  end.
Proof.
  destruct (WeatherServiceDirect.fetchWeatherData env lat lon days w)
    as [rd wd] eqn:Hd.
  destruct (fetchWeatherData env lat lon days w) as [rf wf] eqn:Hf.
  cbn [fst].
  unfold WeatherServiceDirect.fetchWeatherData in Hd. unfold fetchWeatherData in Hf.
  unfold bind at 1 in Hd. unfold bind at 1 in Hf.
  destruct (cache_get env (weatherCacheKey env lat lon days) w) as [[e|[p|]] w1].
  - injection Hd as <- <-. now injection Hf as <- <-.
  - rewrite <- Hd, <- Hf. now destruct rd.
  - unfold fetchWeatherDataFromNASA in Hf.
    revert Hd Hf. run.
    destruct (openMeteo env (w_reads w1) lat lon days) as [e0|status body].
    + cbn [fst snd w_cache w_reads w_console w_alerts].
      intros [= <- <-].
      destruct (nasaPower env _ lat lon _ _) as [e1|nstatus nbody]; cbn [fst snd];
        [now intros [= <- <-]|].
      destruct (response_ok nstatus); cbn [negb fst snd]; [|now intros [= <- <-]].
      destruct nbody as [e1|json]; cbn [fst snd]; intros [= <- <-];
        [reflexivity|now eexists _, _].
    + destruct (response_ok status); cbn [negb].
      * destruct body as [e0|data]; cbn [fst snd w_cache w_reads w_console w_alerts];
          intros [= <- <-]; [|now intros [= <- <-]].
        destruct (nasaPower env _ lat lon _ _) as [e1|nstatus nbody]; cbn [fst snd];
          [now intros [= <- <-]|].
        destruct (response_ok nstatus); cbn [negb fst snd]; [|now intros [= <- <-]].
        destruct nbody as [e1|json]; cbn [fst snd]; intros [= <- <-];
          [reflexivity|now eexists _, _].
      * cbn [fst snd w_cache w_reads w_console w_alerts].
        intros [= <- <-].
        destruct (nasaPower env _ lat lon _ _) as [e1|nstatus nbody]; cbn [fst snd];
          [now intros [= <- <-]|].
        destruct (response_ok nstatus); cbn [negb fst snd]; [|now intros [= <- <-]].
        destruct nbody as [e1|json]; cbn [fst snd]; intros [= <- <-];
          [reflexivity|now eexists _, _].
Qed.

(** ** The push service *)

Lemma JsMap_delete_filter {V : Type} (f : string * V -> bool) (k : string)
    (m : JsMap.t V) :
  List.filter f (JsMap.delete k m)
  = List.filter (fun kv => negb (String.eqb (fst kv) k) && f kv) m.
Proof.
  unfold JsMap.delete.
  induction m as [|kv m IH]; [reflexivity|].
  cbn [List.filter].
  destruct (String.eqb (fst kv) k); cbn [negb andb List.filter].
  - exact IH.
  - destruct (f kv); now rewrite IH.
Qed.

Lemma JsMap_same_key {V : Type} (m : JsMap.t V) (k : string) (v v' : V) :
  List.NoDup (map fst m) -> In (k, v) m -> In (k, v') m -> v = v'.
Proof.
  induction m as [|[k0 v0] m IH]; intros Hnodup Hv Hv'; [contradiction|].
  cbn [map fst] in Hnodup. apply NoDup_cons_iff in Hnodup as [Hfresh Hnodup].
  destruct Hv as [Heq|Hv], Hv' as [Heq'|Hv'].
  - congruence.
  - injection Heq as -> ->. exfalso. apply Hfresh. apply in_map_iff. now exists (k, v').
  - injection Heq' as -> ->. exfalso. apply Hfresh. apply in_map_iff. now exists (k, v).
  - now apply IH.
Qed.

Lemma length_filter_Permutation {A : Type} (f : A -> bool) (l l' : list A) :
  Permutation l l' -> length (List.filter f l) = length (List.filter f l').
Proof.
  induction 1 as [|x l l' _ IH|x y l|l l' l'' _ IH1 _ IH2]; cbn [List.filter].
  - reflexivity.
  - destruct (f x); cbn [length]; now rewrite IH.
  - now destruct (f x), (f y).
  - now rewrite IH1.
Qed.

Section PushService.

Import WebPushService.

Variable writeFileSync : nat -> list PushSubscription -> option exn.
Variable deliver : PushSubscription -> string -> Outcome.
Variable payload : string.

Lemma settle_one (count : nat) (s : t) (entry : string * PushSubscription) :
  let out := settle deliver payload (count, s) entry in
  fst out = (count + if delivered deliver payload entry then 1 else 0)%nat
  /\ ps_subscriptions (snd out)
     = (if expired deliver payload entry
        then JsMap.delete (fst entry) (ps_subscriptions s)
        else ps_subscriptions s)
  /\ ps_file (snd out) = ps_file s
  /\ ps_writes (snd out) = ps_writes s.
Proof.
  destruct entry as [k sub]. unfold settle, delivered, expired. cbn [fst snd].
  destruct (deliver sub payload) as [|statusCode].
  - cbn. split; [lia|]. now split.
  - destruct (bool_decide (statusCode = Some 410)); cbn; (split; [lia|]); now split.
Qed.

Lemma settle_all (settled : list (string * PushSubscription)) :
  forall (count : nat) (s : t),
    let out := fold_left (settle deliver payload) settled (count, s) in
    fst out = (count + length (List.filter (delivered deliver payload) settled))%nat
    /\ ps_subscriptions (snd out)
       = List.filter (fun kv => negb (removedBy deliver payload settled (fst kv))) (ps_subscriptions s)
    /\ ps_file (snd out) = ps_file s
    /\ ps_writes (snd out) = ps_writes s.
Proof.
  induction settled as [|entry rest IH]; intros count s; cbn [fold_left].
  - cbn. split; [lia|]. split; [|now split].
    induction (ps_subscriptions s) as [|kv m IHm]; [reflexivity|].
    cbn [List.filter negb]. now rewrite <- IHm.
  - destruct (settle_one count s entry) as (Hc1 & Hs1 & Hf1 & Hw1). cbv zeta in *.
    destruct (settle deliver payload (count, s) entry) as [c1 s1]. cbn [fst snd] in *.
    destruct (IH c1 s1) as (Hcount & Hsubs & Hfile & Hwrites). cbv zeta in *.
    split; [|split; [|split; congruence]].
    + rewrite Hcount, Hc1. cbn [List.filter].
      destruct (delivered deliver payload entry); cbn [length]; lia.
    + rewrite Hsubs, Hs1. unfold removedBy. cbn [existsb].
      destruct (expired deliver payload entry); cbn [andb orb].
      * rewrite JsMap_delete_filter. apply filter_ext. intros kv.
        rewrite negb_orb. now rewrite (String.eqb_sym (fst entry)).
      * reflexivity.
Qed.

Lemma removed_expired (m settled : list (string * PushSubscription))
    (kv : string * PushSubscription) :
  List.NoDup (map fst m) -> Permutation settled m -> In kv m ->
  removedBy deliver payload settled (fst kv) = expired deliver payload kv.
Proof.
  intros Hnodup Hperm Hin. unfold removedBy.
  destruct (expired deliver payload kv) eqn:Hkv.
  - apply existsb_exists. exists kv. split.
    + eapply Permutation_in; [symmetry; exact Hperm|exact Hin].
    + now rewrite Hkv, String.eqb_refl.
  - apply Bool.not_true_is_false. intros Hex.
    apply existsb_exists in Hex as ([k sub] & Hin' & Hboth).
    apply andb_prop in Hboth as [Hexp Hkey]. cbn [fst] in Hkey.
    apply String.eqb_eq in Hkey. destruct kv as [k0 sub0]. cbn [fst] in Hkey. subst k0.
    assert (sub = sub0).
    { apply (JsMap_same_key m k); [exact Hnodup| |exact Hin].
      eapply Permutation_in; [exact Hperm|exact Hin']. }
    subst sub0. congruence.
Qed.

Lemma sendNotification_run (settled : list (string * PushSubscription)) (s : t) :
  List.NoDup (map fst (ps_subscriptions s)) ->
  Permutation settled (JsMap.entries (ps_subscriptions s)) ->
  let out := sendNotification writeFileSync deliver payload settled s in
  fst out = length (List.filter (delivered deliver payload) (ps_subscriptions s))
  /\ ps_subscriptions (snd out)
     = List.filter (fun e => negb (expired deliver payload e)) (ps_subscriptions s)
  /\ ps_file (snd out) = ps_file s
  /\ ps_writes (snd out) = ps_writes s.
Proof.
  intros Hnodup Hperm out. subst out. unfold sendNotification.
  destruct (settle_all settled 0 s) as (Hcount & Hsubs & Hfile & Hwrites).
  cbv zeta in *.
  destruct (fold_left (settle deliver payload) settled (0%nat, s)) as [count s1].
  cbn [fst snd] in *.
  unfold JsMap.size, JsMap.values. rewrite length_map, Nat.eqb_refl. cbn [negb].
  cbn [fst snd log ps_subscriptions ps_file ps_writes].
  split; [|split; [|now split]].
  - rewrite Hcount. cbn [Nat.add]. now apply length_filter_Permutation.
  - rewrite Hsubs. apply filter_ext_in. intros kv Hin.
    now rewrite (removed_expired (ps_subscriptions s) settled kv).
Qed.

End PushService.

Lemma JsMap_set_fresh {V : Type} (k : string) (v : V) (m : JsMap.t V) :
  JsMap.has k m = false -> JsMap.set k v m = m ++ [(k, v)].
Proof.
  unfold JsMap.has.
  induction m as [|[k' v'] m IH]; intros Hfresh; [reflexivity|].
  cbn [existsb fst] in Hfresh. apply Bool.orb_false_elim in Hfresh as [Hk Hrest].
  cbn [JsMap.set app]. rewrite Hk. now rewrite IH.
Qed.

Lemma JsMap_has_false {V : Type} (k : string) (m : JsMap.t V) :
  ~ In k (map fst m) -> JsMap.has k m = false.
Proof.
  intros Hfresh. unfold JsMap.has. apply Bool.not_true_is_false. intros Hex.
  apply existsb_exists in Hex as ([k' v'] & Hin & Hk). cbn [fst] in Hk.
  apply String.eqb_eq in Hk. subst k'. apply Hfresh. apply in_map_iff.
  now exists (k, v').
Qed.

Lemma JsMap_delete_set_fresh {V : Type} (k : string) (v : V) (m : JsMap.t V) :
  JsMap.has k m = false -> JsMap.delete k (JsMap.set k v m) = m.
Proof.
  intros Hfresh. rewrite (JsMap_set_fresh k v m Hfresh). unfold JsMap.delete.
  rewrite List.filter_app. cbn [List.filter fst]. rewrite String.eqb_refl.
  cbn [negb]. rewrite app_nil_r. unfold JsMap.has in Hfresh.
  induction m as [|[k' v'] m IH]; [reflexivity|].
  cbn [existsb fst] in Hfresh. apply Bool.orb_false_elim in Hfresh as [Hk Hrest].
  cbn [List.filter fst]. rewrite Hk. cbn [negb]. now rewrite IH.
Qed.

Lemma JsMap_set_set {V : Type} (k : string) (v v' : V) (m : JsMap.t V) :
  JsMap.set k v' (JsMap.set k v m) = JsMap.set k v' m.
Proof.
  induction m as [|[k0 v0] m IH]; cbn [JsMap.set].
  - now rewrite String.eqb_refl.
  - destruct (String.eqb k0 k) eqn:Hk; cbn [JsMap.set]; rewrite Hk; [reflexivity|].
    now rewrite IH.
Qed.

Lemma JsMap_size_set {V : Type} (k : string) (v : V) (m : JsMap.t V) :
  JsMap.size (JsMap.set k v m)
  = (JsMap.size m + if JsMap.has k m then 0 else 1)%nat.
Proof.
  unfold JsMap.size, JsMap.has.
  induction m as [|[k0 v0] m IH]; [reflexivity|].
  cbn [JsMap.set existsb fst].
  destruct (String.eqb k0 k); cbn [length orb]; [lia|].
  rewrite IH. lia.
Qed.

Lemma loadSubscriptions_values (m2 : JsMap.t WebPushService.PushSubscription) :
  forall m1 : JsMap.t WebPushService.PushSubscription,
    WebPushService.keyed_by_endpoint (m1 ++ m2) ->
    fold_left (fun m sub => JsMap.set (WebPushService.endpoint sub) sub m)
      (JsMap.values m2) m1
    = m1 ++ m2.
Proof.
  induction m2 as [|[k sub] m2 IH]; intros m1 [Hnodup Hkeys].
  - cbn. now rewrite app_nil_r.
  - cbn [JsMap.values map snd fold_left].
    assert (Hk : k = WebPushService.endpoint sub).
    { apply Hkeys. apply in_or_app. right. now left. }
    rewrite <- Hk. rewrite JsMap_set_fresh.
    + change (JsMap.values m2) with (map snd m2) in IH. rewrite IH.
      * now rewrite <- List.app_assoc.
      * rewrite <- List.app_assoc. now split.
    + apply JsMap_has_false. rewrite map_app in Hnodup. cbn [map fst] in Hnodup.
      apply NoDup_remove_2 in Hnodup. intros Hin. apply Hnodup.
      apply in_or_app. now left.
Qed.

(** X22. [sendNotification] returns the number of subscriptions whose send
    was fulfilled; afterwards the map holds the earlier subscriptions except
    those whose send was rejected with status 410, in their earlier order,
    those rejected with another status being kept; all this whatever the
    order in which the sends settle. The subscriptions file is not written:
    the size of the map is compared with the number of its own values. *)
Theorem sendNotification_outcome
    (writeFileSync : nat -> list WebPushService.PushSubscription -> option exn)
    (deliver : WebPushService.PushSubscription -> string -> WebPushService.Outcome)
    (payload : string)
    (settled : list (string * WebPushService.PushSubscription))
    (s : WebPushService.t) :
  List.NoDup (map fst (WebPushService.ps_subscriptions s)) ->
  Permutation settled (JsMap.entries (WebPushService.ps_subscriptions s)) ->
  let out := WebPushService.sendNotification writeFileSync deliver payload settled s in
  fst out
  = length (List.filter (WebPushService.delivered deliver payload)
              (WebPushService.ps_subscriptions s))
  /\ WebPushService.ps_subscriptions (snd out)
     = List.filter (fun e => negb (WebPushService.expired deliver payload e))
         (WebPushService.ps_subscriptions s)
  /\ WebPushService.ps_file (snd out) = WebPushService.ps_file s
  /\ WebPushService.ps_writes (snd out) = WebPushService.ps_writes s.
Proof.
  intros Hnodup Hperm.
  exact (sendNotification_run writeFileSync deliver payload settled s Hnodup Hperm).
Qed.

Lemma subscribers_distinct :
  List.NoDup (map fst (WebPushService.ps_subscriptions subscribers)).
Proof.
  cbn. repeat constructor; cbn; intuition discriminate.
Qed.

(** The sends to [subscribers] settle in the order carol, alice, bob. *)
Lemma sendNotification_outcome_witness :
  let out :=
    WebPushService.sendNotification diskAlwaysWritable pushGateway "{}"
      [(WebPushService.endpoint carol, carol); (WebPushService.endpoint alice, alice);
       (WebPushService.endpoint bob, bob)]
      subscribers in
  fst out = 1%nat
  /\ WebPushService.ps_subscriptions (snd out)
     = [(WebPushService.endpoint alice, alice); (WebPushService.endpoint carol, carol)]
  /\ WebPushService.ps_file (snd out) = [alice; bob; carol]
  /\ WebPushService.ps_writes (snd out) = 3%nat.
Proof.
  apply (sendNotification_outcome diskAlwaysWritable pushGateway "{}"
           [(WebPushService.endpoint carol, carol);
            (WebPushService.endpoint alice, alice);
            (WebPushService.endpoint bob, bob)]
           subscribers).
  - exact subscribers_distinct.
  - cbn. eapply perm_trans; [apply perm_swap|]. apply perm_skip, perm_swap.
Defined.

(** X23. A subscription that [sendNotification] removed as expired comes
    back when the service is started again: with the map keyed by endpoint
    and the file in step with it before the call, loading the file as it is
    after the call into a new service gives the map as it was before the
    call. *)
Theorem expired_subscriptions_return_on_reload
    (writeFileSync : nat -> list WebPushService.PushSubscription -> option exn)
    (deliver : WebPushService.PushSubscription -> string -> WebPushService.Outcome)
    (payload : string)
    (settled : list (string * WebPushService.PushSubscription))
    (s : WebPushService.t) :
  WebPushService.keyed_by_endpoint (WebPushService.ps_subscriptions s) ->
  WebPushService.ps_file s = JsMap.values (WebPushService.ps_subscriptions s) ->
  Permutation settled (JsMap.entries (WebPushService.ps_subscriptions s)) ->
  let s' := snd (WebPushService.sendNotification writeFileSync deliver payload settled s) in
  WebPushService.ps_subscriptions
    (WebPushService.loadSubscriptions
       (Some (inr (WebPushService.ps_file s')))
       (WebPushService.mkService [] (WebPushService.ps_file s') 0 []))
  = WebPushService.ps_subscriptions s.
Proof.
  intros Hkeyed Hfile Hperm s'.
  destruct (sendNotification_run writeFileSync deliver payload settled s
              (proj1 Hkeyed) Hperm) as (_ & _ & Hfile' & _).
  cbv zeta in Hfile'. fold s' in Hfile'.
  unfold WebPushService.loadSubscriptions. cbn [WebPushService.ps_subscriptions].
  rewrite Hfile', Hfile.
  exact (loadSubscriptions_values (WebPushService.ps_subscriptions s) [] Hkeyed).
Qed.

Lemma expired_subscriptions_return_on_reload_witness :
  let s' :=
    snd (WebPushService.sendNotification diskAlwaysWritable pushGateway "{}"
           (WebPushService.ps_subscriptions subscribers) subscribers) in
  WebPushService.ps_subscriptions s'
  = [(WebPushService.endpoint alice, alice); (WebPushService.endpoint carol, carol)]
  /\ WebPushService.ps_subscriptions
       (WebPushService.loadSubscriptions
          (Some (inr (WebPushService.ps_file s')))
          (WebPushService.mkService [] (WebPushService.ps_file s') 0 []))
     = WebPushService.ps_subscriptions subscribers.
Proof.
  intros s'. split; [reflexivity|].
  apply (expired_subscriptions_return_on_reload diskAlwaysWritable pushGateway "{}"
           (WebPushService.ps_subscriptions subscribers) subscribers).
  - split; [exact subscribers_distinct|].
    intros k sub [[= <- <-]|[[= <- <-]|[[= <- <-]|[]]]]; reflexivity.
  - reflexivity.
  - apply Permutation_refl.
Defined.

(** X24. [addSubscription] of a subscription whose endpoint the map does not
    hold makes the count one more, and a [removeSubscription] of that
    endpoint then gives back the earlier map; adding the same subscription
    again changes neither the map nor the count. Each of the two calls
    attempts one write of the file, which holds the values of the map when
    the write returns. *)
Theorem addSubscription_removeSubscription
    (writeFileSync : nat -> list WebPushService.PushSubscription -> option exn)
    (sub : WebPushService.PushSubscription) (s : WebPushService.t) :
  JsMap.has (WebPushService.endpoint sub) (WebPushService.ps_subscriptions s) = false ->
  let added := WebPushService.addSubscription writeFileSync sub s in
  let removed :=
    WebPushService.removeSubscription writeFileSync (WebPushService.endpoint sub) added in
  WebPushService.getSubscriptionCount added = S (WebPushService.getSubscriptionCount s)
  /\ WebPushService.ps_subscriptions removed = WebPushService.ps_subscriptions s
  /\ WebPushService.ps_subscriptions (WebPushService.addSubscription writeFileSync sub added)
     = WebPushService.ps_subscriptions added
  /\ WebPushService.ps_writes added = S (WebPushService.ps_writes s)
  /\ WebPushService.ps_writes removed = S (S (WebPushService.ps_writes s))
  /\ (writeFileSync (WebPushService.ps_writes s)
        (JsMap.values (WebPushService.ps_subscriptions added)) = None ->
      WebPushService.ps_file added
      = JsMap.values (WebPushService.ps_subscriptions added)).
Proof.
  intros Hfresh added removed.
  assert (Hsubs : WebPushService.ps_subscriptions added
                  = JsMap.set (WebPushService.endpoint sub) sub
                      (WebPushService.ps_subscriptions s)).
  { unfold added, WebPushService.addSubscription, WebPushService.saveSubscriptions.
    cbn [WebPushService.ps_subscriptions WebPushService.ps_writes].
    now destruct (writeFileSync _ _). }
  assert (Hwrites : WebPushService.ps_writes added = S (WebPushService.ps_writes s)).
  { unfold added, WebPushService.addSubscription, WebPushService.saveSubscriptions.
    cbn [WebPushService.ps_subscriptions WebPushService.ps_writes].
    now destruct (writeFileSync _ _). }
  split; [|split; [|split; [|split; [|split]]]].
  - unfold WebPushService.getSubscriptionCount. rewrite Hsubs, JsMap_size_set, Hfresh. lia.
  - unfold removed, WebPushService.removeSubscription, WebPushService.saveSubscriptions.
    cbn [WebPushService.ps_subscriptions WebPushService.ps_writes].
    destruct (writeFileSync _ _); cbn [WebPushService.log WebPushService.ps_subscriptions];
      rewrite Hsubs; now apply JsMap_delete_set_fresh.
  - unfold WebPushService.addSubscription at 1. unfold WebPushService.saveSubscriptions.
    cbn [WebPushService.ps_subscriptions WebPushService.ps_writes].
    destruct (writeFileSync _ _); cbn [WebPushService.log WebPushService.ps_subscriptions];
      rewrite Hsubs; apply JsMap_set_set.
  - exact Hwrites.
  - unfold removed, WebPushService.removeSubscription, WebPushService.saveSubscriptions.
    cbn [WebPushService.ps_subscriptions WebPushService.ps_writes].
    destruct (writeFileSync _ _); cbn [WebPushService.log WebPushService.ps_writes];
      now rewrite Hwrites.
  - rewrite Hsubs. unfold added, WebPushService.addSubscription,
      WebPushService.saveSubscriptions.
    cbn [WebPushService.ps_subscriptions WebPushService.ps_writes].
    intros ->. reflexivity.
Qed.

Lemma addSubscription_removeSubscription_witness :
  let dave :=
    WebPushService.mkSubscription "https://push.example/dave" "pk-d" "auth-d" in
  let added := WebPushService.addSubscription diskAlwaysWritable dave subscribers in
  WebPushService.getSubscriptionCount added = 4%nat
  /\ WebPushService.ps_subscriptions
       (WebPushService.removeSubscription diskAlwaysWritable
          (WebPushService.endpoint dave) added)
     = WebPushService.ps_subscriptions subscribers.
Proof.
  intros dave added.
  destruct (addSubscription_removeSubscription diskAlwaysWritable dave subscribers)
    as (Hcount & Hback & _).
  - reflexivity.
  - split; [exact Hcount|exact Hback].
Defined.

(** ** The alert store *)

Lemma js_sort_insert_Permutation {A : Type} (compare : A -> A -> Z) (x : A)
    (l : list A) :
  Permutation (js_sort_insert compare x l) (x :: l).
Proof.
  induction l as [|y l IH]; cbn [js_sort_insert]; [reflexivity|].
  destruct (compare x y <=? 0); [reflexivity|].
  rewrite IH. apply perm_swap.
Qed.

Lemma js_sort_Permutation {A : Type} (compare : A -> A -> Z) (l : list A) :
  Permutation (js_sort compare l) l.
Proof.
  unfold js_sort. induction l as [|x l IH]; cbn [fold_right]; [reflexivity|].
  rewrite js_sort_insert_Permutation. now apply perm_skip.
Qed.

Lemma newest_first_insert (x : MemStorage.StoredAlert)
    (l : list MemStorage.StoredAlert) :
  MemStorage.newest_first l ->
  MemStorage.newest_first
    (js_sort_insert
       (fun a b => MemStorage.sa_timestamp b - MemStorage.sa_timestamp a) x l).
Proof.
  induction l as [|y l IH]; intros Hsorted; cbn [js_sort_insert].
  - cbn. split; [intros b []|exact I].
  - destruct Hsorted as [Hy Hrest].
    destruct (Z.leb_spec (MemStorage.sa_timestamp y - MemStorage.sa_timestamp x) 0)
      as [Hle|Hgt].
    + cbn [MemStorage.newest_first]. split; [|now split].
      intros b [<-|Hb]; [lia|]. specialize (Hy b Hb). lia.
    + cbn [MemStorage.newest_first]. split; [|now apply IH].
      intros b Hb.
      apply (Permutation_in b (js_sort_insert_Permutation _ x l)) in Hb.
      destruct Hb as [<-|Hb]; [lia|now apply Hy].
Qed.

(** X25. [getAlerts] lists every stored alert once, from the newest to the
    oldest. *)
Theorem getAlerts_newest_first (s : MemStorage.t) :
  Permutation (MemStorage.getAlerts s) (JsMap.values (MemStorage.ms_alerts s))
  /\ MemStorage.newest_first (MemStorage.getAlerts s).
Proof.
  split.
  - apply js_sort_Permutation.
  - unfold MemStorage.getAlerts, js_sort.
    induction (JsMap.values (MemStorage.ms_alerts s)) as [|x l IH]; cbn [fold_right].
    + exact I.
    + now apply newest_first_insert.
Qed.

Lemma js_sort_newest_last (x : MemStorage.StoredAlert)
    (l : list MemStorage.StoredAlert) :
  (forall b, In b l -> MemStorage.sa_timestamp b < MemStorage.sa_timestamp x) ->
  forall acc : list MemStorage.StoredAlert,
    fold_right
      (js_sort_insert (fun a b => MemStorage.sa_timestamp b - MemStorage.sa_timestamp a))
      (x :: acc) l
    = x :: fold_right
             (js_sort_insert
                (fun a b => MemStorage.sa_timestamp b - MemStorage.sa_timestamp a))
             acc l.
Proof.
  induction l as [|y l IH]; intros Holder acc; cbn [fold_right]; [reflexivity|].
  rewrite IH by (intros b Hb; apply Holder; now right).
  cbn [js_sort_insert].
  pose proof (Holder y (or_introl eq_refl)) as Hy.
  destruct (Z.leb_spec (MemStorage.sa_timestamp x - MemStorage.sa_timestamp y) 0);
    [lia|reflexivity].
Qed.

(** X26. [addAlert] returns the given fields with the identifier and the
    time drawn for it; when the identifier is new to the store and the time
    is later than that of every stored alert, [getAlerts] then lists the new
    alert first and after it the alerts as it listed them before, and a
    [removeAlert] of the identifier gives back the earlier map. The alert is
    kept in the store also when the write of the file fails. *)
Theorem addAlert_listed_first (randomUUID : nat -> string) (now : nat -> Z)
    (writeFileSync : nat -> list MemStorage.StoredAlert -> option exn)
    (alert : Alert) (s : MemStorage.t) :
  let n := MemStorage.ms_created s in
  JsMap.has (randomUUID n) (MemStorage.ms_alerts s) = false ->
  (forall k b, In (k, b) (MemStorage.ms_alerts s) -> MemStorage.sa_timestamp b < now n) ->
  let out := MemStorage.addAlert randomUUID now writeFileSync alert s in
  fst out = MemStorage.mkStoredAlert (randomUUID n) (now n) alert
  /\ MemStorage.getAlerts (snd out) = fst out :: MemStorage.getAlerts s
  /\ MemStorage.ms_alerts
       (MemStorage.removeAlert writeFileSync (randomUUID n) (snd out))
     = MemStorage.ms_alerts s.
Proof.
  intros n Hfresh Holder out.
  assert (Hmap : MemStorage.ms_alerts (snd out)
                 = MemStorage.ms_alerts s
                   ++ [(randomUUID n, MemStorage.mkStoredAlert (randomUUID n) (now n) alert)]).
  { unfold out, MemStorage.addAlert, MemStorage.saveAlerts.
    cbn [snd MemStorage.ms_alerts MemStorage.ms_writes MemStorage.sa_id].
    fold n. destruct (writeFileSync _ _); cbn [MemStorage.ms_alerts];
      now apply JsMap_set_fresh. }
  split; [reflexivity|]. split.
  - unfold MemStorage.getAlerts. rewrite Hmap. unfold JsMap.values, js_sort.
    rewrite map_app. cbn [map snd]. rewrite fold_right_app. cbn [fold_right js_sort_insert].
    apply js_sort_newest_last.
    intros b Hb. apply in_map_iff in Hb as ([k b'] & <- & Hin). cbn [snd].
    exact (Holder k b' Hin).
  - unfold MemStorage.removeAlert, MemStorage.saveAlerts.
    cbn [MemStorage.ms_alerts MemStorage.ms_writes].
    destruct (writeFileSync _ _); cbn [MemStorage.ms_alerts];
      rewrite Hmap, <- (JsMap_set_fresh _ _ _ Hfresh);
      now apply JsMap_delete_set_fresh.
Qed.

Lemma addAlert_listed_first_witness :
  let nightAlert := mkAlert cold extreme ["Hillcrest"%string] "cold"%string in
  let out :=
    MemStorage.addAlert (fun n => "a-3"%string) (fun n => 1720051200000)
      (fun _ _ => Some (FetchFailed "EACCES")) nightAlert alertStore in
  MemStorage.getAlerts (snd out) = [fst out; eveningAlert; morningAlert]
  /\ MemStorage.ms_alertsFile (snd out) = [morningAlert; eveningAlert].
Proof.
  intros nightAlert out.
  destruct (addAlert_listed_first (fun n => "a-3"%string) (fun n => 1720051200000)
              (fun _ _ => Some (FetchFailed "EACCES")) nightAlert alertStore)
    as (_ & Hlist & _).
  - reflexivity.
  - intros k b [[= <- <-]|[[= <- <-]|[]]]; cbn; lia.
  - fold out in Hlist. split; [rewrite Hlist; reflexivity|reflexivity].
Defined.

(** ** The demographics client *)

Lemma firstValue_first (data : list (option (option Q))) (v : Q) :
  DemographicsService.firstValue data = Some v
  <-> exists i : nat,
        nth_error data i = Some (Some (Some v))
        /\ forall (j : nat) (entry : option (option Q)),
             (j < i)%nat -> nth_error data j = Some entry ->
             entry = None \/ entry = Some None.
Proof.
  induction data as [|entry data IH]; cbn [DemographicsService.firstValue].
  - split; [discriminate|]. intros (i & Hi & _). now destruct i.
  - destruct entry as [[value|]|].
    + split.
      * intros [= ->]. exists 0%nat. split; [reflexivity|]. intros j entry Hj. lia.
      * intros (i & Hi & Hbefore). destruct i as [|i]; [now injection Hi as ->|].
        destruct (Hbefore 0%nat (Some (Some value)) ltac:(lia) eq_refl); discriminate.
    + rewrite IH. split.
      * intros (i & Hi & Hbefore). exists (S i). split; [exact Hi|].
        intros [|j] entry Hj Hentry.
        -- injection Hentry as <-. now right.
        -- apply (Hbefore j); [lia|exact Hentry].
      * intros ([|i] & Hi & Hbefore); [discriminate|].
        exists i. split; [exact Hi|]. intros j entry Hj Hentry.
        apply (Hbefore (S j)); [lia|exact Hentry].
    + rewrite IH. split.
      * intros (i & Hi & Hbefore). exists (S i). split; [exact Hi|].
        intros [|j] entry Hj Hentry.
        -- injection Hentry as <-. now left.
        -- apply (Hbefore j); [lia|exact Hentry].
      * intros ([|i] & Hi & Hbefore); [discriminate|].
        exists i. split; [exact Hi|]. intros j entry Hj Hentry.
        apply (Hbefore (S j)); [lia|exact Hentry].
Qed.

(** X27. [getElderlyPercent] returns a number exactly when the request is
    answered with a status in 200-299 and a readable body whose list of
    datapoints has an entry with a value, and the number is the value of the
    first such entry; in every other case (rejected request, other status,
    unreadable body, no list, no value) it returns [null]. The console gets
    a message exactly when the request or the reading of the body failed. *)
Theorem getElderlyPercent_first_value
    (reply : HttpReply (option (list (option (option Q))))) (v : Q) :
  (fst (DemographicsService.getElderlyPercent reply) = Some v
   <-> exists (status : Z) (data : list (option (option Q))) (i : nat),
         reply = Response status (inr (Some data))
         /\ response_ok status = true
         /\ nth_error data i = Some (Some (Some v))
         /\ forall (j : nat) (entry : option (option Q)),
              (j < i)%nat -> nth_error data j = Some entry ->
              entry = None \/ entry = Some None)
  /\ (snd (DemographicsService.getElderlyPercent reply) = []
      <-> exists (status : Z) (json : option (list (option (option Q)))),
            reply = Response status (inr json) /\ response_ok status = true).
Proof.
  unfold DemographicsService.getElderlyPercent. split.
  - split.
    + destruct reply as [e|status body]; [discriminate|].
      destruct (response_ok status) eqn:Hok; cbn [negb fst]; [|discriminate].
      destruct body as [e|[data|]]; cbn [fst]; try discriminate.
      intros Hfirst. apply firstValue_first in Hfirst as (i & Hi & Hbefore).
      now exists status, data, i.
    + intros (status & data & i & -> & Hok & Hi & Hbefore).
      rewrite Hok. cbn [negb fst]. apply firstValue_first. now exists i.
  - split.
    + destruct reply as [e|status body]; [discriminate|].
      destruct (response_ok status) eqn:Hok; cbn [negb snd]; [|discriminate].
      destruct body as [e|json]; cbn [snd]; [discriminate|].
      intros _. now exists status, json.
    + intros (status & json & -> & Hok). now rewrite Hok.
Qed.

(** ** The push client *)

Lemma length_replaceAll (c d : ascii) (s : string) :
  String.length (PushClient.replaceAll c d s) = String.length s.
Proof.
  induction s as [|x s IH]; cbn [PushClient.replaceAll String.length]; congruence.
Qed.

Lemma length_repeatEquals (n : nat) : String.length (PushClient.repeatEquals n) = n.
Proof. induction n as [|n IH]; cbn; congruence. Qed.

Lemma length_string_app (s s' : string) :
  String.length (s ++ s')%string = (String.length s + String.length s')%nat.
Proof.
  induction s as [|x s IH]; [reflexivity|].
  change (String x s ++ s')%string with (String x (s ++ s')%string).
  cbn [String.length]. now rewrite IH.
Qed.

Lemma string_app_empty (s : string) : (s ++ "")%string = s.
Proof.
  induction s as [|x s IH]; [reflexivity|].
  change (String x s ++ "")%string with (String x (s ++ "")%string).
  now rewrite IH.
Qed.

Lemma without_replaceAll (c d : ascii) (s : string) :
  d <> c -> PushClient.without c (PushClient.replaceAll c d s).
Proof.
  intros Hdc. induction s as [|x s IH]; cbn [PushClient.replaceAll PushClient.without].
  - exact I.
  - split; [|exact IH]. destruct (Ascii.eqb_spec x c); congruence.
Qed.

Lemma without_replaceAll_other (c c' d : ascii) (s : string) :
  d <> c -> PushClient.without c s ->
  PushClient.without c (PushClient.replaceAll c' d s).
Proof.
  intros Hdc. induction s as [|x s IH]; cbn [PushClient.replaceAll PushClient.without].
  - trivial.
  - intros [Hx Hs]. split; [|now apply IH]. now destruct (Ascii.eqb x c').
Qed.

Lemma replaceAll_without (c d : ascii) (s : string) :
  PushClient.without c s -> PushClient.replaceAll c d s = s.
Proof.
  induction s as [|x s IH]; cbn [PushClient.replaceAll PushClient.without].
  - reflexivity.
  - intros [Hx Hs]. rewrite IH by exact Hs.
    now destruct (Ascii.eqb_spec x c).
Qed.

Lemma without_app (c : ascii) (s s' : string) :
  PushClient.without c s -> PushClient.without c s' ->
  PushClient.without c (s ++ s')%string.
Proof.
  induction s as [|x s IH]; [trivial|].
  change (String x s ++ s')%string with (String x (s ++ s')%string).
  cbn [PushClient.without].
  intros [Hx Hs] Hs'. split; [exact Hx|now apply IH].
Qed.

Lemma without_repeatEquals (c : ascii) (n : nat) :
  c <> "="%char -> PushClient.without c (PushClient.repeatEquals n).
Proof.
  intros Hc. induction n as [|n IH]; cbn [PushClient.repeatEquals PushClient.without].
  - exact I.
  - split; [congruence|exact IH].
Qed.

(** X28. The text [urlBase64ToUint8Array] hands to [atob] has a length that
    is a multiple of 4, at most 3 more than the length of the key, and holds
    neither a hyphen nor an underscore; the function changes it no further
    when it is given that text again; the array it returns has one cell for
    each character [atob] returns, and it throws exactly when [atob]
    throws. *)
Theorem urlBase64ToUint8Array_normalises (atob : string -> exn + string)
    (base64String : string) :
  let b := PushClient.base64 base64String in
  (String.length b mod 4 = 0)%nat
  /\ (String.length base64String <= String.length b <= String.length base64String + 3)%nat
  /\ PushClient.without "-"%char b
  /\ PushClient.without "_"%char b
  /\ PushClient.base64 b = b
  /\ match atob b with
     | inl e => PushClient.urlBase64ToUint8Array atob base64String = inl e
     | inr rawData =>
         exists cells : list nat,
           PushClient.urlBase64ToUint8Array atob base64String = inr cells
           /\ length cells = String.length rawData
     end.
Proof.
  intros b.
  assert (Hlen : String.length b
                 = (String.length base64String
                    + (4 - String.length base64String mod 4) mod 4)%nat).
  { unfold b, PushClient.base64, PushClient.padding.
    now rewrite !length_replaceAll, length_string_app, length_repeatEquals. }
  assert (Hmod : (String.length b mod 4 = 0)%nat).
  { rewrite Hlen.
    pose proof (Nat.mod_upper_bound (String.length base64String) 4 ltac:(lia)) as Hr.
    pose proof (Nat.div_mod_eq (String.length base64String) 4) as Hdiv.
    set (r := (String.length base64String mod 4)%nat) in *.
    set (q := (String.length base64String / 4)%nat) in *.
    assert (Hcases : (r = 0 \/ r = 1 \/ r = 2 \/ r = 3)%nat) by lia.
    rewrite Hdiv. clearbody r q.
    destruct Hcases as [-> | [-> | [-> | ->]]].
    - change ((4 - 0) mod 4)%nat with 0%nat.
      replace (4 * q + 0 + 0)%nat with (q * 4)%nat by lia.
      apply Nat.Div0.mod_mul.
    - change ((4 - 1) mod 4)%nat with 3%nat.
      replace (4 * q + 1 + 3)%nat with ((q + 1) * 4)%nat by lia.
      apply Nat.Div0.mod_mul.
    - change ((4 - 2) mod 4)%nat with 2%nat.
      replace (4 * q + 2 + 2)%nat with ((q + 1) * 4)%nat by lia.
      apply Nat.Div0.mod_mul.
    - change ((4 - 3) mod 4)%nat with 1%nat.
      replace (4 * q + 3 + 1)%nat with ((q + 1) * 4)%nat by lia.
      apply Nat.Div0.mod_mul. }
  assert (Hhyphen : PushClient.without "-"%char b).
  { unfold b, PushClient.base64. apply without_replaceAll_other; [discriminate|].
    apply without_replaceAll. discriminate. }
  assert (Hunder : PushClient.without "_"%char b).
  { unfold b, PushClient.base64. apply without_replaceAll. discriminate. }
  split; [exact Hmod|]. split.
  { rewrite Hlen.
    pose proof (Nat.mod_upper_bound (4 - String.length base64String mod 4) 4
                  ltac:(lia)).
    lia. }
  split; [exact Hhyphen|]. split; [exact Hunder|]. split.
  - unfold PushClient.base64 at 1. unfold PushClient.padding. rewrite Hmod.
    change ((4 - 0) mod 4)%nat with 0%nat. cbn [PushClient.repeatEquals].
    rewrite string_app_empty.
    rewrite (replaceAll_without "-"%char) by exact Hhyphen.
    now apply replaceAll_without.
  - unfold PushClient.urlBase64ToUint8Array. fold b.
    destruct (atob b) as [e|rawData]; [reflexivity|].
    eexists. split; [reflexivity|].
    induction rawData as [|x rawData IH]; cbn; congruence.
Qed.

(** ** The console of a run *)

Section Logs.

Context {A B : Type}.
Variable P : LogEvent -> Prop.

Lemma logs_ret (a : A) : logs P (ret a).
Proof. intros w. exists []. cbn. now rewrite app_nil_r. Qed.

Lemma logs_throw (e : exn) : logs P (@throw A e).
Proof. intros w. exists []. cbn. now rewrite app_nil_r. Qed.

Lemma logs_lift (r : exn + A) : logs P (lift r).
Proof. intros w. exists []. cbn. now rewrite app_nil_r. Qed.

Lemma logs_reading (oracle : nat -> A) : logs P (reading oracle).
Proof. intros w. exists []. cbn. now rewrite app_nil_r. Qed.

Lemma logs_bind (m : M A) (k : A -> M B) :
  logs P m -> (forall a, logs P (k a)) -> logs P (bind m k).
Proof.
  intros Hm Hk w. unfold bind. destruct (Hm w) as (l & Hl & HP).
  destruct (m w) as [[e|a] w']; cbn [snd] in *.
  - now exists l.
  - destruct (Hk a w') as (l' & Hl' & HP'). exists (l ++ l'). split.
    + now rewrite Hl', Hl, <- List.app_assoc.
    + apply Forall_app. now split.
Qed.

Lemma logs_try_catch (body : M A) (handler : exn -> M A) :
  logs P body -> (forall e, logs P (handler e)) -> logs P (try_catch body handler).
Proof.
  intros Hm Hk w. unfold try_catch. destruct (Hm w) as (l & Hl & HP).
  destruct (body w) as [[e|a] w']; cbn [snd] in *.
  - destruct (Hk e w') as (l' & Hl' & HP'). exists (l ++ l'). split.
    + now rewrite Hl', Hl, <- List.app_assoc.
    + apply Forall_app. now split.
  - now exists l.
Qed.

End Logs.

Lemma logs_console (P : LogEvent -> Prop) (ev : LogEvent) :
  P ev -> logs P (console ev).
Proof. intros HP w. exists [ev]. split; [reflexivity|]. now constructor. Qed.

Lemma logs_cache_get (P : LogEvent -> Prop) (env : Env) (key : string) :
  logs P (cache_get env key).
Proof.
  intros w. exists []. rewrite app_nil_r. split; [|constructor].
  unfold cache_get.
  destruct (WeatherCache.cache (w_cache w) !! key); [|reflexivity].
  now destruct (WeatherCache.get _ key (w_cache w)).
Qed.

Lemma logs_cache_set (P : LogEvent -> Prop) (env : Env) (key : string) (p : Payload) :
  logs P (cache_set env key p).
Proof. intros w. exists []. cbn. now rewrite app_nil_r. Qed.

Ltac logs_step :=
  first
    [ apply logs_bind; [|intros ?]
    | apply logs_try_catch; [|intros ?]
    | apply logs_ret
    | apply logs_throw
    | apply logs_lift
    | apply logs_reading
    | apply logs_console; exact I
    | apply logs_cache_get
    | apply logs_cache_set
    | match goal with
      | |- logs _ (match ?x with _ => _ end) => destruct x
      | |- logs _ (if ?b then _ else _) => destruct b
      end ].

Lemma logs_fetchWeatherData (env : Env) (lat lon : R) (days : nat) :
  logs serviceEvent (fetchWeatherData env lat lon days).
Proof.
  unfold fetchWeatherData, fetchWeatherDataFromNASA. repeat logs_step.
Qed.

Lemma logs_fetchAirQualityData (env : Env) (lat lon radius : R) :
  logs serviceEvent (fetchAirQualityData env lat lon radius).
Proof. unfold fetchAirQualityData. repeat logs_step. Qed.

Lemma logs_assessRegion (env : Env) (lat lon : R) :
  logs serviceEvent (assessRegion env lat lon).
Proof.
  unfold assessRegion.
  repeat first [ apply logs_fetchWeatherData
               | apply logs_fetchAirQualityData
               | logs_step ].
Qed.

Lemma filter_serviceEvent (l : list LogEvent) :
  Forall serviceEvent l -> List.filter isRegionLine l = [].
Proof.
  induction 1 as [|ev l Hev _ IH]; [reflexivity|].
  cbn [List.filter]. rewrite IH. now destruct ev.
Qed.

Lemma isRegionLine_regionLine (outs : list (string * (exn + RiskData))) :
  List.filter isRegionLine (map regionLine outs) = map regionLine outs.
Proof.
  induction outs as [|[name [e|r]] outs IH]; cbn [map List.filter regionLine isRegionLine];
    congruence.
Qed.

(** What one iteration of the loop puts on the console. *)
Lemma processFeature_console (env : Env) (acc : HighRisk) (feature : Feature)
    (w : World) :
  exists l : list LogEvent,
    w_console (snd (processFeature env acc feature w))
    = w_console w ++ l ++ map regionLine (regionOutcome env feature w)
    /\ Forall serviceEvent l.
Proof.
  unfold processFeature, regionOutcome.
  destruct (geometry feature) as [[[| |] coordinates]|];
    cbn [geometry_type geometry_coordinates];
    try (exists []; cbn; rewrite app_nil_r; split; [reflexivity|constructor]).
  destruct (getCentroid coordinates) as [lon lat].
  destruct (properties feature) as [p|];
    [|exists []; cbn; rewrite app_nil_r; split; [reflexivity|constructor]].
  destruct (logs_assessRegion env lat lon w) as (l & Hl & HP).
  exists l. split; [|exact HP].
  unfold try_catch, bind.
  destruct (assessRegion env lat lon w) as [[e|riskData] w']; cbn in *;
    now rewrite Hl, <- List.app_assoc.
Qed.

Lemma forEachFeature_console (env : Env) (features : list Feature) :
  Forall readable features ->
  forall (acc : HighRisk) (w : World),
    exists l : list LogEvent,
      w_console (snd (forEachFeature env features acc w)) = w_console w ++ l
      /\ List.filter isRegionLine l = map regionLine (outcomes env features w)
      /\ Forall (fun ev => serviceEvent ev \/ isRegionLine ev = true) l.
Proof.
  induction 1 as [|feature rest Hfeature _ IH]; intros acc w;
    cbn [forEachFeature outcomes].
  - exists []. cbn. rewrite app_nil_r. split; [reflexivity|]. split; [reflexivity|constructor].
  - destruct (processFeature_console env acc feature w) as (l1 & Hl1 & HP1).
    unfold bind. rewrite (processFeature_run env acc _ _ Hfeature) in Hl1 |- *.
    cbn [snd] in Hl1.
    destruct (IH (fold_left pushOutcome (regionOutcome env feature w) acc)
                (snd (processFeature env (mkHighRisk [] [] []) feature w)))
      as (l2 & Hl2 & Hlines & HP2).
    exists ((l1 ++ map regionLine (regionOutcome env feature w)) ++ l2).
    split; [|split].
    + rewrite Hl2, Hl1. now rewrite <- !List.app_assoc.
    + rewrite !List.filter_app, (filter_serviceEvent l1 HP1), isRegionLine_regionLine.
      rewrite Hlines. cbn [app]. now rewrite map_app.
    + apply Forall_app. split; [apply Forall_app; split|exact HP2].
      * eapply List.Forall_impl; [|exact HP1]. intros ev Hev. now left.
      * apply List.Forall_forall. intros ev Hev. right.
        apply in_map_iff in Hev as ([name [e|r]] & <- & _); reflexivity.
Qed.

(** What an alert block puts on the console: nothing for an empty set of
    regions; else the line of the alert, preceded by the report of the
    storage when the alerts file could not be written. *)
Lemma alertBlock_console (env : Env) (t : AlertType) (names : list string) (w : World) :
  exists l : list LogEvent,
    w_console (snd (alertBlock env t names w)) = w_console w ++ l
    /\ Forall alertEvent l
    /\ List.filter isCreatedLine l = map createdLine (alertsFor t names).
Proof.
  unfold alertBlock, alertsFor. destruct names as [|n rest].
  - exists []. cbn. rewrite app_nil_r. now repeat split.
  - unfold bind, addAlert, console. cbn.
    destruct (alertsFileWrite env (w_reads w)) as [e|].
    + exists [StorageErrorSavingAlerts e; SchedulerCreatedAlert t (n :: rest)].
      rewrite <- List.app_assoc. split; [reflexivity|].
      split; [repeat constructor|reflexivity].
    + exists [SchedulerCreatedAlert t (n :: rest)].
      split; [reflexivity|]. split; [repeat constructor|reflexivity].
Qed.

Lemma raiseAlerts_console (env : Env) (hr : HighRisk) (w : World) :
  exists created : list LogEvent,
    w_console (snd (raiseAlerts env hr w))
    = w_console w ++ created ++ [SchedulerCompleted]
    /\ Forall alertEvent created
    /\ List.filter isCreatedLine created
       = map createdLine
           (alertsFor heat (hr_heat hr) ++ alertsFor cold (hr_cold hr)
            ++ alertsFor air_quality (hr_air_quality hr)).
Proof.
  destruct (raiseAlerts env hr w) as [r wf] eqn:Hrun. cbn [snd]. revert Hrun.
  unfold raiseAlerts. unfold bind at 1.
  destruct (alertBlock_console env heat (hr_heat hr) w) as (l1 & Hl1 & HP1 & Hc1).
  destruct (alertBlock_run env heat (hr_heat hr) w) as [Hr1 _].
  destruct (alertBlock env heat (hr_heat hr) w) as [r1 w2].
  cbn [fst snd] in Hl1, Hr1. subst r1. unfold bind at 1.
  destruct (alertBlock_console env cold (hr_cold hr) w2) as (l2 & Hl2 & HP2 & Hc2).
  destruct (alertBlock_run env cold (hr_cold hr) w2) as [Hr2 _].
  destruct (alertBlock env cold (hr_cold hr) w2) as [r2 w3].
  cbn [fst snd] in Hl2, Hr2. subst r2. unfold bind at 1.
  destruct (alertBlock_console env air_quality (hr_air_quality hr) w3)
    as (l3 & Hl3 & HP3 & Hc3).
  destruct (alertBlock_run env air_quality (hr_air_quality hr) w3) as [Hr3 _].
  destruct (alertBlock env air_quality (hr_air_quality hr) w3) as [r3 w4].
  cbn [fst snd] in Hl3, Hr3. subst r3.
  unfold console. intros [= <- <-]. cbn [w_console].
  exists (l1 ++ l2 ++ l3). split; [|split].
  - rewrite Hl3, Hl2, Hl1. now rewrite <- !List.app_assoc.
  - repeat (apply Forall_app; split); assumption.
  - rewrite !List.filter_app, Hc1, Hc2, Hc3. now rewrite !map_app.
Qed.

(** X29. In a run that reads a list of features each of which can be read,
    the console gets: the start of the run; the report of the storage, when
    the neighbourhoods file could not be read; then, for each polygon of the
    file in file order, exactly one line of the scheduler, with the region's
    scores or with the error of its assessment, among the lines of the two
    services; then one line for each alert stored, in the order of the
    alerts, preceded by a report of the storage when the alerts file could
    not be written; then the completion of the run. The error line of the
    run's own [catch] does not appear in such a run. *)
Theorem calculateDailyRisks_console (env : Env) (w : World) (features : list Feature) :
  listedFeatures env (w_reads w) = Some features ->
  Forall readable features ->
  let outs := outcomes env features (loopStart env w) in
  exists (regions created : list LogEvent),
    w_console (snd (calculateDailyRisks env w))
    = w_console w ++ SchedulerRunning :: storageLines env (w_reads w)
      ++ regions ++ created ++ [SchedulerCompleted]
    /\ List.filter isRegionLine regions = map regionLine outs
    /\ Forall (fun ev => serviceEvent ev \/ isRegionLine ev = true) regions
    /\ Forall alertEvent created
    /\ List.filter isCreatedLine created
       = map createdLine
           (alertsFor heat (affected hsi 70 outs)
            ++ alertsFor cold (affected csi 60 outs)
            ++ alertsFor air_quality (affected aqri 65 outs))
    /\ w_alerts (snd (calculateDailyRisks env w))
       = w_alerts w
         ++ alertsFor heat (affected hsi 70 outs)
         ++ alertsFor cold (affected csi 60 outs)
         ++ alertsFor air_quality (affected aqri 65 outs).
Proof.
  intros Hfile Hreadable outs.
  destruct (calculateDailyRisks_run env w) as [_ Halerts].
  rewrite Hfile in Halerts. specialize (Halerts Hreadable). cbv zeta in Halerts.
  fold outs in Halerts.
  change (th_hsi thresholds) with 70%Q in Halerts.
  change (th_csi thresholds) with 60%Q in Halerts.
  change (th_aqri thresholds) with 65%Q in Halerts.
  revert Halerts. rewrite calculateDailyRisks_course, Hfile. intros Halerts.
  destruct (forEachFeature_console env features Hreadable (mkHighRisk [] [] [])
              (loopStart env w)) as (regions & Hregions & Hlines & HP).
  pose proof (forEachFeature_run env features Hreadable (mkHighRisk [] [] [])
                (loopStart env w)) as Hacc.
  destruct (forEachFeature env features (mkHighRisk [] [] []) (loopStart env w))
    as [[error|hr] w1]; cbn [fst snd] in Hacc, Hregions; [discriminate|].
  injection Hacc as ->. fold outs in Halerts |- *.
  destruct (raiseAlerts_console env
              (fold_left pushOutcome outs (mkHighRisk [] [] [])) w1)
    as (created & Hcreated & HPc & Hc).
  rewrite fold_pushOutcome_affected in Hc.
  exists regions, created.
  split; [|split; [exact Hlines|split; [exact HP|split; [exact HPc|split]]]].
  - rewrite Hcreated, Hregions. unfold loopStart. cbn [w_console].
    rewrite <- !List.app_assoc. reflexivity.
  - exact Hc.
  - exact Halerts.
Qed.

Lemma calculateDailyRisks_console_witness :
  exists (regions created : list LogEvent),
    w_console (snd (calculateDailyRisks heatwaveWithOutage startup))
    = [SchedulerRunning] ++ regions ++ created ++ [SchedulerCompleted]
    /\ List.filter isRegionLine regions
       = [SchedulerRegion "Riverside" (mkRiskData 72 0 0 72);
          SchedulerErrorProcessing "Oldtown" (FetchFailed "ECONNRESET");
          SchedulerRegion "Hillcrest" (mkRiskData 90 0 0 90)]
    /\ List.filter isCreatedLine created
       = [SchedulerCreatedAlert heat ["Riverside"; "Hillcrest"]%string]
    /\ w_alerts (snd (calculateDailyRisks heatwaveWithOutage startup))
       = [mkAlert heat high ["Riverside"; "Hillcrest"]%string (alertMessage heat 2)].
Proof.
  destruct (calculateDailyRisks_console heatwaveWithOutage startup
              [riverside; oldtown; hillcrest] eq_refl)
    as (regions & created & Hconsole & Hlines & _ & _ & Hcreated & Halerts).
  { repeat constructor; discriminate. }
  exists regions, created. split; [exact Hconsole|].
  split; [rewrite Hlines; vm_compute; reflexivity|].
  split; [rewrite Hcreated; vm_compute; reflexivity|].
  rewrite Halerts. vm_compute. reflexivity.
Defined.
